(** * UnemploymentTracker: the two analytic engines

    A shallow embedding of
    - [src/unemployment_tracker/processing/skill_matcher.py] and
    - [src/unemployment_tracker/processing/trend_detector.py],
    and the properties of them that the specification states, followed
    by further properties of the two and of the retry loop of
    [src/unemployment_tracker/data_ingestion/geocode_util.py].

    Numbers.  The skill matcher only ever divides one set size by another,
    so its floats are modelled as exact rationals ([Q]); the comparisons of
    the code agree with the exact ones for every catalogue whose skill sets
    have fewer than 2^26 members.

    The trend detector is embedded twice.  Module [trend_detector] reads
    its floats as real numbers ([R]), with [NaN] added where numpy produces
    it; it carries the properties that do not depend on a computed number:
    which rows, groups and keys there are, their order, and which calls
    raise.  Module [trend_detector_ieee] has the arithmetic of the machine:
    a float64 is a binary64 float with its rounding, its infinities and its
    NaN, an int64 is an integer that wraps around at 64 bits, and the sum
    of a column is numpy's pairwise sum.  Every property of a computed
    number (a percentage change, a standard deviation, a z-score, a
    confidence) is stated of the second module. *)

From Stdlib Require Import QArith Qminmax Reals Psatz Lia ZArith List Permutation Sorted.
From Stdlib Require OrderedTypeEx.
From Stdlib Require Floats.
From stdpp Require Import base decidable option list strings gmap.

Local Open Scope string_scope.

(** ** Python built-ins used by both engines *)

(** [sorted(l, key=...)] and the sorts of pandas: a stable sort.  [before x y]
    says that [x] may stay in front of [y]; an element is inserted in front
    of the first element it may stay in front of, so equal keys keep the
    order they had in the input, as Python guarantees.  (The sort that
    pandas uses on a single column need not be stable; no statement below
    depends on the order it gives to rows of equal key.) *)
Fixpoint insert_sorted {A} (before : A → A → bool) (x : A) (l : list A) : list A :=
  match l with
  | [] => [x]
  | y :: l' => if before x y then x :: y :: l' else y :: insert_sorted before x l'
  end.

Definition sorted {A} (before : A → A → bool) (l : list A) : list A :=
  foldr (insert_sorted before) [] l.

(** [l[:n]] for a Python int [n]: a negative [n] counts from the end. *)
Definition slice_to {A} (n : Z) (l : list A) : list A :=
  if (0 <=? n)%Z then take (Z.to_nat n) l
  else take (length l - Z.to_nat (- n)) l.

(** ** skill_matcher.py *)

Module skill_matcher.

Local Open Scope Q_scope.

Record Skill := mkSkill {
  skill_id : string;
  skill_name : string;
  category : string;
  skill_description : option string;
  importance : option Q;
  level : option Q
}.

Record JobProfile := mkJobProfile {
  id : string;
  title : string;
  industry : string;
  required_skills : gmap string Skill;
  description : option string;
  average_salary : option Q;
  growth_rate : option Q
}.

Definition add_skill (p : JobProfile) (s : Skill) : JobProfile :=
  mkJobProfile (id p) (title p) (industry p)
    (<[skill_id s := s]> (required_skills p))
    (description p) (average_salary p) (growth_rate p).

Definition get_skill_ids (p : JobProfile) : gset string := dom (required_skills p).

Record TransitionPath := mkTransitionPath {
  source_job : string;
  target_job : string;
  skill_overlap : gset string;
  missing_skills : gset string;
  transition_difficulty : Q;
  skill_gap : Q;
  common_skills_count : Z;
  missing_skills_count : Z
}.

(** The catalogue [self.job_profiles]: a dict, which iterates in insertion
    order.  Its keys are pairwise different ([catalog_wf]). *)
Definition catalog := list (string * JobProfile).

Definition catalog_wf (c : catalog) : Prop := NoDup (c.*1).

Fixpoint catalog_get (c : catalog) (k : string) : option JobProfile :=
  match c with
  | [] => None
  | (k', p) :: c' => if decide (k' = k) then Some p else catalog_get c' k
  end.

Definition len (s : gset string) : Z := Z.of_nat (size s).

(** [a < b], [a >= b] and [a == b] on floats *)
Definition Qltb (a b : Q) : bool := negb (Qle_bool b a).
Definition Qgeb (a b : Q) : bool := Qle_bool b a.

(** [min(a, b)] returns its first argument unless the second is smaller *)
Definition py_min (a b : Q) : Q := if Qltb b a then b else a.
(** [max(a, b)] returns its first argument unless the second is larger *)
Definition py_max (a b : Q) : Q := if Qltb a b then b else a.

Definition _create_transition_path (source_job_id target_job_id : string)
    (source_skills target_skills : gset string) : TransitionPath :=
  let common_skills := source_skills ∩ target_skills in
  let missing := target_skills ∖ source_skills in
  let gap :=
    if decide (target_skills = ∅) then 1
    else inject_Z (len missing) / inject_Z (len target_skills) in
  let difficulty := gap in
  {| source_job := source_job_id;
     target_job := target_job_id;
     skill_overlap := common_skills;
     missing_skills := missing;
     transition_difficulty := py_min 1 difficulty;
     skill_gap := gap;
     common_skills_count := len common_skills;
     missing_skills_count := len missing |}.

(** The loop body of [find_similar_jobs] for one catalogue entry: the
    entries it appends to [similarities]. *)
Definition similar_step (source_job_id : string) (source_skills : gset string)
    (min_skill_overlap : Q) (entry : string * JobProfile) : list (string * Q) :=
  let '(job_id, profile) := entry in
  if decide (job_id = source_job_id) then []
  else
    let target_skills := get_skill_ids profile in
    if decide (target_skills = ∅) then []
    else
      let intersection := len (source_skills ∩ target_skills) in
      let union := len (source_skills ∪ target_skills) in
      let similarity :=
        if (0 <? union)%Z then inject_Z intersection / inject_Z union else 0 in
      if Qgeb similarity min_skill_overlap then [(job_id, similarity)] else [].

Definition find_similar_jobs (c : catalog) (source_job_id : string)
    (top_n : Z) (min_skill_overlap : Q) : list (string * Q) :=
  match catalog_get c source_job_id with
  | None => []
  | Some source =>
      let source_skills := get_skill_ids source in
      let similarities :=
        concat (map (similar_step source_job_id source_skills min_skill_overlap) c) in
      slice_to top_n (sorted (λ x y, Qgeb x.2 y.2) similarities)
  end.

(** [unique_paths]: a dict keyed by [frozenset(path.missing_skills)].  A dict
    keeps the position of a key when its value is replaced and appends a
    new key at the end. *)
Definition path_dict := list (gset string * TransitionPath).

Fixpoint dict_get (d : path_dict) (k : gset string) : option TransitionPath :=
  match d with
  | [] => None
  | (k', v) :: d' => if decide (k' = k) then Some v else dict_get d' k
  end.

Fixpoint dict_set (d : path_dict) (k : gset string) (v : TransitionPath) : path_dict :=
  match d with
  | [] => [(k, v)]
  | (k', v') :: d' =>
      if decide (k' = k) then (k', v) :: d' else (k', v') :: dict_set d' k v
  end.

Definition dict_values (d : path_dict) : list TransitionPath := d.*2.

(** The loop body of the intermediate search for one catalogue entry: the
    paths it appends to [intermediate_paths]. *)
Definition intermediate_step (source_job_id target_job_id : string)
    (source_skills target_skills : gset string)
    (entry : string * JobProfile) : list TransitionPath :=
  let '(job_id, profile) := entry in
  if decide (job_id ∈ [source_job_id; target_job_id]) then []
  else
    let job_skills := get_skill_ids profile in
    let to_intermediate :=
      _create_transition_path source_job_id job_id source_skills job_skills in
    let intermediate_to_target :=
      _create_transition_path job_id target_job_id job_skills target_skills in
    if Qltb (transition_difficulty to_intermediate) 1
       && Qltb (transition_difficulty intermediate_to_target) 1
    then
      let combined_difficulty :=
        py_max (transition_difficulty to_intermediate)
               (transition_difficulty intermediate_to_target) in
      [ {| source_job := source_job_id;
           target_job := target_job_id;
           skill_overlap :=
             skill_overlap to_intermediate ∪ skill_overlap intermediate_to_target;
           missing_skills :=
             missing_skills to_intermediate ∪ missing_skills intermediate_to_target;
           transition_difficulty := combined_difficulty;
           skill_gap :=
             py_max (skill_gap to_intermediate) (skill_gap intermediate_to_target);
           common_skills_count :=
             (common_skills_count to_intermediate
              + common_skills_count intermediate_to_target)%Z;
           missing_skills_count :=
             (missing_skills_count to_intermediate
              + missing_skills_count intermediate_to_target)%Z |} ]
    else [].

(** [all_paths]: the direct path and the intermediate ones, without those of
    difficulty 1.0 or more. *)
Definition all_paths (c : catalog) (source_job_id target_job_id : string)
    (source_skills target_skills : gset string) : list TransitionPath :=
  let direct_path :=
    _create_transition_path source_job_id target_job_id source_skills target_skills in
  let intermediate_paths :=
    concat (map (intermediate_step source_job_id target_job_id
                   source_skills target_skills) c) in
  List.filter (λ p, Qltb (transition_difficulty p) 1)
    ([direct_path] ++ intermediate_paths).

(** One round of the deduplication loop. *)
Definition unique_step (unique_paths : path_dict) (path : TransitionPath) : path_dict :=
  let key := missing_skills path in
  match dict_get unique_paths key with
  | None => dict_set unique_paths key path
  | Some kept =>
      if Qltb (transition_difficulty path) (transition_difficulty kept)
      then dict_set unique_paths key path
      else unique_paths
  end.

Definition unique_paths (paths : list TransitionPath) : path_dict :=
  foldl unique_step [] paths.

(** The sort key [(x.transition_difficulty, -x.common_skills_count)] and the
    [<] of Python on such pairs: the first components decide unless they
    are equal. *)
Definition sort_key (p : TransitionPath) : Q * Z :=
  (transition_difficulty p, (- common_skills_count p)%Z).

Definition key_lt (a b : Q * Z) : bool :=
  if Qeq_bool a.1 b.1 then (a.2 <? b.2)%Z else Qltb a.1 b.1.

Definition find_transition_paths (c : catalog) (source_job_id target_job_id : string)
    (max_hops : Z) : list TransitionPath :=
  match catalog_get c source_job_id, catalog_get c target_job_id with
  | Some source, Some target =>
      let source_skills := get_skill_ids source in
      let target_skills := get_skill_ids target in
      let direct_path :=
        _create_transition_path source_job_id target_job_id
          source_skills target_skills in
      if (max_hops <=? 0)%Z then
        if Qltb (transition_difficulty direct_path) 1 then [direct_path] else []
      else
        sorted (λ x y, negb (key_lt (sort_key y) (sort_key x)))
          (dict_values
             (unique_paths
                (all_paths c source_job_id target_job_id source_skills target_skills)))
  | _, _ => []
  end.

(** The two jobs of the specification's scenario. *)
Definition plain_skill (name : string) : Skill :=
  mkSkill name name "general" None None None.

Definition job_of (job_id : string) (skills : list string) : JobProfile :=
  foldl add_skill (mkJobProfile job_id job_id "any" ∅ None None None)
    (plain_skill <$> skills).

Definition job_A : JobProfile := job_of "A" ["python"; "sql"].
Definition job_B : JobProfile := job_of "B" ["sql"; "excel"].
Definition scenario : catalog := [("A", job_A); ("B", job_B)].

(** A larger catalogue around them: two possible intermediate jobs and a
    job that requires no skill at all. *)
Definition job_C : JobProfile := job_of "C" ["sql"; "python"; "excel"; "r"].
Definition job_D : JobProfile := job_of "D" ["sql"].
Definition job_E : JobProfile := job_of "E" [].
Definition wide_scenario : catalog :=
  [("A", job_A); ("B", job_B); ("C", job_C); ("D", job_D); ("E", job_E)].

(** The order that the result of [find_transition_paths] is to have:
    ascending difficulty, and descending common_skills_count among equal
    difficulties. *)
Definition path_le (x y : TransitionPath) : Prop :=
  transition_difficulty x < transition_difficulty y
  ∨ (transition_difficulty x == transition_difficulty y
     ∧ (common_skills_count y <= common_skills_count x)%Z).

(** What the deduplication loop keeps true of [unique_paths] once the paths
    [seen] are behind it: keys are the missing-skills sets of their values,
    every value is one of the paths seen, and every path seen has its key
    in the dict with a value that is not more difficult. *)
Definition dict_inv (seen : list TransitionPath) (d : path_dict) : Prop :=
  NoDup d.*1
  ∧ (∀ k v, (k, v) ∈ d → missing_skills v = k ∧ v ∈ seen)
  ∧ (∀ p, p ∈ seen →
       ∃ v, dict_get d (missing_skills p) = Some v
            ∧ transition_difficulty v <= transition_difficulty p).

(** *** recommend_training *)

(** A course of [available_courses]: a dict, any of whose keys may be
    absent. *)
Record Course := mkCourse {
  c_id : option string;
  c_title : option string;
  c_provider : option string;
  c_url : option string;
  c_skills_covered : option (list string)
}.

(** An entry of the result.  [skills_covered] is [list(covered_skills)], a
    list in the order of a Python set: it is kept as the set. *)
Record Recommendation := mkRecommendation {
  rec_course_id : option string;
  rec_title : string;
  rec_provider : string;
  rec_url : string;
  rec_skills_covered : gset string;
  relevance_score : Q;
  missing_skills_covered : Z;
  total_missing_skills : Z
}.

(** The loop body of [recommend_training] for one course: the entries it
    appends to [course_scores]. *)
Definition course_step (missing : gset string) (course : Course) : list Recommendation :=
  match c_skills_covered course with
  | None => []
  | Some skills =>
      let covered_skills : gset string := list_to_set skills ∩ missing in
      if decide (covered_skills = ∅) then []
      else
        let relevance := inject_Z (len covered_skills) / inject_Z (len missing) in
        [ {| rec_course_id := c_id course;
             rec_title := default "Untitled Course" (c_title course);
             rec_provider := default "Unknown" (c_provider course);
             rec_url := default "" (c_url course);
             rec_skills_covered := covered_skills;
             relevance_score := relevance;
             missing_skills_covered := len covered_skills;
             total_missing_skills := len missing |} ]
  end.

Definition recommend_training (c : catalog) (source_job_id target_job_id : string)
    (available_courses : list Course) : list Recommendation :=
  match catalog_get c source_job_id, catalog_get c target_job_id with
  | Some source, Some target =>
      let missing := get_skill_ids target ∖ get_skill_ids source in
      if decide (missing = ∅) then []
      else
        sorted (λ x y, Qgeb (relevance_score x) (relevance_score y))
          (concat (map (course_step missing) available_courses))
  | _, _ => []
  end.

(** The course of the specification's scenario, and two that recommend
    nothing for A -> B. *)
Definition excel_course : Course :=
  mkCourse (Some "c1") (Some "Spreadsheets") None None (Some ["excel"]).
Definition python_course : Course :=
  mkCourse (Some "c2") None None None (Some ["python"]).
Definition untagged_course : Course :=
  mkCourse (Some "c3") (Some "Mystery") None None None.

(** Descending order of relevance. *)
Definition relevance_ge (x y : Recommendation) : Prop :=
  relevance_score y <= relevance_score x.

(** Descending order of similarity. *)
Definition similarity_ge (x y : string * Q) : Prop := x.2 >= y.2.

(** *** The skill graph

    [nx.Graph()]: the attributes of the nodes, and the weight of the edges.
    The graph is undirected: networkx keeps one attribute dict for an edge
    and reaches it from both ends, so an edge is stored here under both
    orders of its ends. *)
Record SkillGraph := mkSkillGraph {
  nodes : gmap string Skill;
  edges : gmap (string * string) Z
}.

Definition has_node (g : SkillGraph) (n : string) : bool :=
  bool_decide (is_Some (nodes g !! n)).

Definition has_edge (g : SkillGraph) (u v : string) : bool :=
  bool_decide (is_Some (edges g !! (u, v))).

(** [add_node(n, **attrs)]: a new node, or new attributes for an old one *)
Definition add_node (g : SkillGraph) (n : string) (attrs : Skill) : SkillGraph :=
  mkSkillGraph (<[n := attrs]> (nodes g)) (edges g).

Definition set_weight (g : SkillGraph) (u v : string) (w : Z) : SkillGraph :=
  mkSkillGraph (nodes g) (<[(u, v) := w]> (<[(v, u) := w]> (edges g))).

(** The body of the two inner loops:
    [if has_edge(u, v): G[u][v]['weight'] += 1 else: add_edge(u, v, weight=1)] *)
Definition bump_edge (g : SkillGraph) (u v : string) : SkillGraph :=
  match edges g !! (u, v) with
  | Some w => set_weight g u v (w + 1)
  | None => set_weight g u v 1
  end.

(** [for i in range(len(skills)): for j in range(i + 1, len(skills)): ...] *)
Fixpoint bump_pairs (skills : list string) (g : SkillGraph) : SkillGraph :=
  match skills with
  | [] => g
  | s :: rest => bump_pairs rest (foldl (λ g t, bump_edge g s t) g rest)
  end.

(** [list(profile.required_skills.keys())].  The skills of a profile are
    kept as a map without an order of insertion; the graph that the loops
    build does not depend on the order (lemma [bump_pairs_weight]). *)
Definition skill_keys (p : JobProfile) : list string := elements (get_skill_ids p).

(** The first loop of [_build_skill_graph] for one profile: every skill
    becomes a node, with the attributes of this profile's Skill. *)
Definition add_skill_nodes (g : SkillGraph) (p : JobProfile) : SkillGraph :=
  foldl (λ g kv, add_node g kv.1 kv.2) g (map_to_list (required_skills p)).

(** The first loop of [_update_skill_graph]: only unseen skills become
    nodes. *)
Definition add_new_skill_nodes (g : SkillGraph) (p : JobProfile) : SkillGraph :=
  foldl (λ g kv, if has_node g kv.1 then g else add_node g kv.1 kv.2) g
    (map_to_list (required_skills p)).

Definition _build_skill_graph (job_profiles : catalog) : SkillGraph :=
  let g := foldl (λ g entry, add_skill_nodes g entry.2)
             (mkSkillGraph ∅ ∅) job_profiles in
  foldl (λ g entry, bump_pairs (skill_keys entry.2) g) g job_profiles.

Definition _update_skill_graph (g : SkillGraph) (profile : JobProfile) : SkillGraph :=
  bump_pairs (skill_keys profile) (add_new_skill_nodes g profile).

Record SkillMatcher := mkSkillMatcher {
  job_profiles : catalog;
  skill_graph : SkillGraph
}.

(** [SkillMatcher(job_profiles)] *)
Definition init (profiles : catalog) : SkillMatcher :=
  mkSkillMatcher profiles (_build_skill_graph profiles).

(** [self.job_profiles[profile.id] = profile]: a known id keeps its place *)
Fixpoint catalog_set (c : catalog) (k : string) (p : JobProfile) : catalog :=
  match c with
  | [] => [(k, p)]
  | (k', p') :: c' =>
      if decide (k' = k) then (k', p) :: c' else (k', p') :: catalog_set c' k p
  end.

Definition add_job_profile (self : SkillMatcher) (profile : JobProfile) : SkillMatcher :=
  mkSkillMatcher (catalog_set (job_profiles self) (id profile) profile)
    (_update_skill_graph (skill_graph self) profile).

(** The weight of an edge, 0 when there is none. *)
Definition weight (g : SkillGraph) (u v : string) : Z := default 0%Z (edges g !! (u, v)).

(** How many profiles of the catalogue require both skills. *)
Definition co_occurrences (c : catalog) (u v : string) : Z :=
  Z.of_nat (length (List.filter
    (λ entry, bool_decide (u ∈ get_skill_ids entry.2 ∧ v ∈ get_skill_ids entry.2)) c)).

(** Whether a course lists a skill that is missing. *)
Definition covers_missing (missing : gset string) (course : Course) : bool :=
  match c_skills_covered course with
  | None => false
  | Some skills => bool_decide ((list_to_set skills ∩ missing : gset string) ≠ ∅)
  end.

(** The Jaccard index of two skill sets, as [find_similar_jobs] computes
    it. *)
Definition jaccard (a b : gset string) : Q :=
  if (0 <? len (a ∪ b))%Z then inject_Z (len (a ∩ b)) / inject_Z (len (a ∪ b)) else 0.

(** Two graphs with the same edges, weights and node names (the attributes
    of the nodes may differ). *)
Definition same_shape (g1 g2 : SkillGraph) : Prop :=
  edges g1 = edges g2 ∧ dom (nodes g1) = dom (nodes g2).

(** The graph of a matcher is the one a rebuild from its catalogue gives,
    up to the attributes of the nodes. *)
Definition graph_current (m : SkillMatcher) : Prop :=
  same_shape (skill_graph m) (_build_skill_graph (job_profiles m)).

(** What the loops keep true of the graph: an edge is stored under both
    orders of its ends with one weight, the weight is positive, and no
    edge joins a skill to itself. *)
Definition graph_ok (g : SkillGraph) : Prop :=
  (∀ u v, edges g !! (u, v) = edges g !! (v, u))
  ∧ (∀ u v w, edges g !! (u, v) = Some w → (0 < w)%Z ∧ u ≠ v).

(** The matchers that the two public operations produce. *)
Inductive reachable : SkillMatcher → Prop :=
  | reach_init (profiles : catalog) : reachable (init profiles)
  | reach_add (m : SkillMatcher) (profile : JobProfile) :
      reachable m → reachable (add_job_profile m profile).

(** Both skills are among those that the profile requires. *)
Definition requires_both (u v : string) (p : JobProfile) : Prop :=
  u ∈ get_skill_ids p ∧ v ∈ get_skill_ids p.

End skill_matcher.

(** ** trend_detector.py *)

Module trend_detector.

Local Open Scope R_scope.

Inductive TrendDirection := INCREASING | DECREASING | STABLE | VOLATILE.

Record TrendResult := mkTrendResult {
  direction : TrendDirection;
  magnitude : R;
  confidence : R;
  start_value : R;
  end_value : R;
  (** the first and the last timestamp; the code keeps the first ten
      characters of their text *)
  period : Z * Z;
  metadata : option (gmap string string)
}.

Record TrendDetector := mkTrendDetector {
  min_periods : Z;
  threshold : R
}.

(** What a call does: it returns, or an exception leaves it. *)
Inductive exn := IndexError | TypeError | ValueError | LinAlgError.

Inductive outcome (A : Type) :=
  | Ok (a : A)
  | Raise (e : exn).
Arguments Ok {A} a.
Arguments Raise {A} e.

(** A float of numpy: a real number, or NaN. *)
Inductive npfloat := NaN | Fin (x : R).

(** A date cell as the caller stored it (text, of dtype object) and as
    [pd.to_datetime] leaves it; [t] is the instant it denotes. *)
Inductive date_cell := RawDate (t : Z) | Timestamp (t : Z).

(** A row of the table.  The columns that [value_col], [date_col] and
    [group_cols] name are the fields [value], [date] and [group]; the three
    columns that [detect_shocks] adds are absent ([None]) until assigned. *)
Record Row := mkRow {
  group : list string;
  date : date_cell;
  value : R;
  z_score : option npfloat;
  shock_magnitude : option npfloat;
  shock_direction : option string
}.

Abbreviation DataFrame := (list Row).

(** *** Comparisons and numpy reductions *)

Definition Rltb (a b : R) : bool := if Rlt_dec a b then true else false.
Definition Rleb (a b : R) : bool := if Rle_dec a b then true else false.
Definition Reqb (a b : R) : bool := if Req_dec_T a b then true else false.

Definition np_sum (l : list R) : R := foldr Rplus 0 l.

Definition np_mean (l : list R) : R := np_sum l / INR (length l).

(** [np.std(values, ddof=1)]: with a single value the divisor n - 1 is 0 and
    numpy returns NaN (0/0). *)
Definition np_std (l : list R) : npfloat :=
  if (length l <=? 1)%nat then NaN
  else
    let mean := np_mean l in
    Fin (sqrt (np_sum (map (λ v, (v - mean) * (v - mean)) l) / (INR (length l) - 1))).

Definition np_arange (n : nat) : list R := map INR (seq 0 n).

(** [np.polyfit(x, y, 1)]: the least-squares line, as (slope, intercept).
    numpy refuses an empty [x]; with one observation the column of x values
    is all zero, the scaling of the columns divides 0 by 0 and the solver
    returns no coefficients. *)
Definition np_polyfit (x y : list R) : outcome (R * R) :=
  match x with
  | [] => Raise TypeError
  | [_] => Raise LinAlgError
  | _ =>
      let n := INR (length x) in
      let sx := np_sum x in
      let sy := np_sum y in
      let sxx := np_sum (map (λ a, a * a) x) in
      let sxy := np_sum (zip_with Rmult x y) in
      let slope := (n * sxy - sx * sy) / (n * sxx - sx * sx) in
      Ok (slope, (sy - slope * sx) / n)
  end.

(** *** TrendDetector._analyze_series *)

Definition pct_change_of (start_val end_val : R) : R :=
  if Reqb start_val 0 then 0 else (end_val - start_val) / start_val.

Definition direction_of (self : TrendDetector) (pct_change : R) : TrendDirection :=
  if Rltb (Rabs pct_change) (threshold self) then STABLE
  else if Rltb 0 pct_change then INCREASING
  else DECREASING.

Definition _analyze_series (self : TrendDetector) (values : list R) (dates : list Z)
    : outcome (option TrendResult) :=
  if (Z.of_nat (length values) <? min_periods self)%Z then Ok None
  else
    match values, dates with
    | start_val :: _, first_date :: _ =>
        let end_val := List.last values start_val in
        let period := (first_date, List.last dates first_date) in
        let x := np_arange (length values) in
        match np_polyfit x values with
        | Raise e => Raise e
        | Ok (slope, intercept) =>
            let y_hat := map (λ xi, intercept + slope * xi) x in
            let ss_res :=
              np_sum (zip_with (λ v y, (v - y) * (v - y)) values y_hat) in
            let mean := np_mean values in
            let ss_tot := np_sum (map (λ v, (v - mean) * (v - mean)) values) in
            let r_squared := if Reqb ss_tot 0 then 0 else 1 - ss_res / ss_tot in
            let pct_change := pct_change_of start_val end_val in
            Ok (Some {| direction := direction_of self pct_change;
                        magnitude := Rabs pct_change;
                        confidence := r_squared;
                        start_value := start_val;
                        end_value := end_val;
                        period := period;
                        metadata := None |})
        end
    | _, _ => Raise IndexError
    end.

(** *** Tables: the pandas operations the detector uses *)

Definition timestamp (c : date_cell) : Z :=
  match c with RawDate t => t | Timestamp t => t end.

Definition to_datetime (c : date_cell) : date_cell := Timestamp (timestamp c).

(** [df[date_col] = pd.to_datetime(df[date_col])] *)
Definition set_date (df : DataFrame) : DataFrame :=
  map (λ r, mkRow (group r) (to_datetime (date r)) (value r)
              (z_score r) (shock_magnitude r) (shock_direction r)) df.

Definition values_of (df : DataFrame) : list R := map value df.
Definition dates_of (df : DataFrame) : list Z := map (λ r, timestamp (date r)) df.

(** The order of group keys: tuples of strings, compared left to right. *)
Fixpoint group_lt (a b : list string) : bool :=
  match a, b with
  | [], [] => false
  | [], _ :: _ => true
  | _ :: _, [] => false
  | x :: a', y :: b' => if String.eqb x y then group_lt a' b' else String.ltb x y
  end.

(** [df.sort_values(by=[*group_cols, date_col] if group_cols else date_col)] *)
Definition row_lt (group_cols : list string) (r1 r2 : Row) : bool :=
  match group_cols with
  | [] => (timestamp (date r1) <? timestamp (date r2))%Z
  | _ :: _ =>
      if decide (group r1 = group r2)
      then (timestamp (date r1) <? timestamp (date r2))%Z
      else group_lt (group r1) (group r2)
  end.

Definition sort_values (group_cols : list string) (df : DataFrame) : DataFrame :=
  sorted (λ x y, negb (row_lt group_cols y x)) df.

(** [df.groupby(group_cols)]: the groups in the order of their keys, each
    with its rows in the order of the table. *)
Definition groupby (df : DataFrame) : list (list string * DataFrame) :=
  map (λ k, (k, List.filter (λ r, bool_decide (group r = k)) df))
      (sorted (λ a b, negb (group_lt b a)) (remove_dups (map group df))).

(** [','.join(str(g) for g in group_name)]; with one grouping column the
    key is the text of its value. *)
Definition group_key (group_name : list string) : string :=
  String.concat "," group_name.

(** *** TrendDetector.detect_trends *)

(** The loop over the groups. *)
Fixpoint trends_of_groups (self : TrendDetector) (grouped : list (list string * DataFrame))
    (results : gmap string TrendResult) : outcome (gmap string TrendResult) :=
  match grouped with
  | [] => Ok results
  | (group_name, group_df) :: rest =>
      if (Z.of_nat (length group_df) <? min_periods self)%Z
      then trends_of_groups self rest results
      else
        match _analyze_series self (values_of group_df) (dates_of group_df) with
        | Raise e => Raise e
        | Ok None => trends_of_groups self rest results
        | Ok (Some result) =>
            trends_of_groups self rest (<[group_key group_name := result]> results)
        end
  end.

(** The function on the contents of the table ([detect_trends_on] below
    runs it on the table object itself). *)
Definition detect_trends (self : TrendDetector) (df : DataFrame)
    (group_cols : list string) : outcome (gmap string TrendResult) :=
  if bool_decide (df = []) || (Z.of_nat (length df) <? min_periods self)%Z then Ok ∅
  else
    let df := sort_values group_cols (set_date df) in
    match group_cols with
    | [] =>
        match _analyze_series self (values_of df) (dates_of df) with
        | Raise e => Raise e
        | Ok None => Ok ∅
        | Ok (Some result) => Ok {[ "overall" := result ]}
        end
    | _ :: _ => trends_of_groups self (groupby df) ∅
    end.

(** *** TrendDetector.detect_shocks *)

Definition np_abs (z : npfloat) : npfloat :=
  match z with NaN => NaN | Fin x => Fin (Rabs x) end.

(** [z >= t] and [z > t]: both are False for NaN *)
Definition np_ge (z : npfloat) (t : R) : bool :=
  match z with NaN => false | Fin x => Rleb t x end.
Definition np_gt (z : npfloat) (t : R) : bool :=
  match z with NaN => false | Fin x => Rltb t x end.

(** The inner function [calculate_zscores(group)].  When [std] is NaN the
    test [std != 0] holds and every quotient is NaN. *)
Definition calculate_zscores (group_df : DataFrame) : list npfloat :=
  let values := values_of group_df in
  let mean := np_mean values in
  match np_std values with
  | NaN => map (λ _, NaN) values
  | Fin std =>
      if Reqb std 0 then map (λ _, Fin 0) values
      else map (λ v, Fin ((v - mean) / std)) values
  end.

(** [df.groupby(group_cols, group_keys=False).apply(calculate_zscores).values]:
    [calculate_zscores] returns an array, so [apply] yields one array per
    group (a Series of arrays indexed by the group keys) and [.values] has
    one entry per group, in the order of the keys. *)
Definition grouped_zscores (df : DataFrame) : list (list npfloat) :=
  map (λ g, calculate_zscores g.2) (groupby df).

(** A cell that holds a one-element array behaves under [abs], [>=] and
    [>] as its element does.  Arrays of another length never reach a cell:
    the assignment in [set_z_score] succeeds only when there are as many
    groups as rows, and then every group has one row (lemma
    [grouped_arrays_single]). *)
Definition array_cell (a : list npfloat) : npfloat :=
  match a with [z] => z | _ => NaN end.

(** [df['z_score'] = zs]: pandas raises ValueError unless there is one
    entry per row. *)
Definition set_z_score (df : DataFrame) (zs : list npfloat) : outcome DataFrame :=
  if (length zs =? length df)%nat
  then Ok (zip_with (λ r z, mkRow (group r) (date r) (value r)
                              (Some z) (shock_magnitude r) (shock_direction r)) df zs)
  else Raise ValueError.

(** The right-hand side of the assignment to the column [z_score]. *)
Definition zscore_column (df : DataFrame) (group_cols : list string) : list npfloat :=
  match group_cols with
  | [] => calculate_zscores df
  | _ :: _ => map array_cell (grouped_zscores df)
  end.

(** [df['z_score']] of a row, once the column is assigned *)
Definition z_of (r : Row) : npfloat := default NaN (z_score r).

(** [abs(df['z_score']) >= z_threshold] *)
Definition shock_mask (z_threshold : R) (r : Row) : bool :=
  np_ge (np_abs (z_of r)) z_threshold.

(** [shock_events['shock_magnitude'] = shock_events['z_score'].abs()] *)
Definition set_shock_magnitude (shock_events : DataFrame) : DataFrame :=
  map (λ r, mkRow (group r) (date r) (value r) (z_score r)
              (Some (np_abs (z_of r))) (shock_direction r)) shock_events.

(** [shock_events['shock_direction'] =
     np.where(shock_events['z_score'] > 0, 'positive', 'negative')] *)
Definition set_shock_direction (shock_events : DataFrame) : DataFrame :=
  map (λ r, mkRow (group r) (date r) (value r) (z_score r) (shock_magnitude r)
              (Some (if np_gt (z_of r) 0 then "positive" else "negative")))
      shock_events.

(** [sort_values(by=['z_score'], ascending=False)]: the largest z first,
    NaN last. *)
Definition z_before (a b : npfloat) : bool :=
  match a, b with
  | _, NaN => true
  | NaN, Fin _ => false
  | Fin x, Fin y => Rleb y x
  end.

Definition sort_by_z_score (df : DataFrame) : DataFrame :=
  sorted (λ r1 r2, z_before (z_of r1) (z_of r2)) df.

(** The function on the contents of the table ([detect_shocks_on] below
    runs it on the table object itself). *)
Definition detect_shocks (df : DataFrame) (group_cols : list string)
    (z_threshold : R) : outcome DataFrame :=
  if bool_decide (df = []) then Ok []
  else
    let df := set_date df in
    match set_z_score df (zscore_column df group_cols) with
    | Raise e => Raise e
    | Ok df =>
        let shock_events := List.filter (shock_mask z_threshold) df in
        let shock_events := set_shock_magnitude shock_events in
        let shock_events := set_shock_direction shock_events in
        Ok (sort_by_z_score shock_events)
    end.

(** *** The table objects

    A DataFrame is an object: the caller and the detector hold references
    to it, and a column assignment changes the object in place.  The heap
    maps references to the contents of the tables; a computation threads
    it, and an exception leaves it as it is at the raise. *)

Definition M (A : Type) : Type := gmap positive DataFrame → outcome A * gmap positive DataFrame.

Definition ret {A} (a : A) : M A := λ h, (Ok a, h).

Definition bind {A B} (m : M A) (k : A → M B) : M B :=
  λ h, match m h with
       | (Ok a, h') => k a h'
       | (Raise e, h') => (Raise e, h')
       end.

Notation "'let*' x := m 'in' k" := (bind m (λ x, k))
  (at level 10, x name, m at level 100, k at level 200).
Notation "m ;; k" := (bind m (λ _, k))
  (at level 100, k at level 200, right associativity).

Definition lift {A} (o : outcome A) : M A := λ h, (o, h).

(** A new table object: [pd.DataFrame(...)], [df.copy()], [df[mask]],
    [df.sort_values(...)] all return one. *)
Definition new_frame (rows : DataFrame) : M positive :=
  λ h, let l := fresh (dom h) in (Ok l, <[l := rows]> h).

Definition rows_of (df : positive) : M DataFrame :=
  λ h, (Ok (default [] (h !! df)), h).

(** In-place change of a table object, as a column assignment makes. *)
Definition assign (df : positive) (rows : DataFrame) : M unit :=
  λ h, (Ok tt, <[df := rows]> h).

Definition copy (df : positive) : M positive :=
  let* rows := rows_of df in new_frame rows.

Definition detect_trends_on (self : TrendDetector) (df : positive)
    (group_cols : list string) : M (gmap string TrendResult) :=
  let* rows := rows_of df in
  if bool_decide (rows = []) || (Z.of_nat (length rows) <? min_periods self)%Z
  then ret ∅
  else
    let* df := copy df in
    let* rows := rows_of df in
    assign df (set_date rows);;
    let* rows := rows_of df in
    let* df := new_frame (sort_values group_cols rows) in
    let* rows := rows_of df in
    match group_cols with
    | [] =>
        let* result := lift (_analyze_series self (values_of rows) (dates_of rows)) in
        match result with
        | None => ret ∅
        | Some result => ret {[ "overall" := result ]}
        end
    | _ :: _ => lift (trends_of_groups self (groupby rows) ∅)
    end.

Definition detect_shocks_on (df : positive) (group_cols : list string)
    (z_threshold : R) : M positive :=
  let* rows := rows_of df in
  if bool_decide (rows = []) then new_frame []
  else
    let* df := copy df in
    let* rows := rows_of df in
    assign df (set_date rows);;
    let* rows := rows_of df in
    let* with_z := lift (set_z_score rows (zscore_column rows group_cols)) in
    assign df with_z;;
    let* rows := rows_of df in
    let* shock_events := new_frame (List.filter (shock_mask z_threshold) rows) in
    let* rows := rows_of shock_events in
    assign shock_events (set_shock_magnitude rows);;
    let* rows := rows_of shock_events in
    assign shock_events (set_shock_direction rows);;
    let* rows := rows_of shock_events in
    new_frame (sort_by_z_score rows).

(** *** Tables of the examples *)

(** A row as a caller provides it: the date still as text, no shock
    columns. *)
Definition plain_row (g : string) (t : Z) (v : R) : Row :=
  mkRow [g] (RawDate t) v None None None.

(** Four monthly observations of 3.0 in one group. *)
Definition flat_table : DataFrame :=
  [plain_row "A" 1 3; plain_row "A" 2 3; plain_row "A" 3 3; plain_row "A" 4 3].

(** The rising series 4.0, 4.5, 5.0, 6.0. *)
Definition rising_values : list R := [4; 9 / 2; 5; 6].

(** Observations 0.0, 3.0 and 6.0 in one group: mean 3, sample standard
    deviation 3, z-scores -1, 0 and 1. *)
Definition step_table : DataFrame :=
  [plain_row "A" 1 0; plain_row "A" 2 3; plain_row "A" 3 6].

(** *** Predicates of the statements *)

(** The rows of the table that form the group of [r]: the whole table when
    there is no grouping. *)
Definition group_rows (df : DataFrame) (group_cols : list string) (r : Row) : DataFrame :=
  match group_cols with
  | [] => df
  | _ :: _ => List.filter (λ r', bool_decide (group r' = group r)) df
  end.

(** Descending order of the signed z-score. *)
Definition z_descending (r1 r2 : Row) : Prop :=
  ∃ z1 z2, z_score r1 = Some (Fin z1) ∧ z_score r2 = Some (Fin z2) ∧ z2 <= z1.

(** The row with its two shock columns, as the two assignments to
    [shock_events] leave it. *)
Definition annotate (r : Row) : Row :=
  mkRow (group r) (date r) (value r) (z_score r)
    (Some (np_abs (z_of r)))
    (Some (if np_gt (z_of r) 0 then "positive" else "negative")).

End trend_detector.

(** ** geocode_util.py *)

Module geocode_util.

(** A value of the raw answer of the service: a text, or the dict of the
    address components. *)
Inductive raw_value := Text (s : string) | Components (d : gmap string string).

(** [geopy.location.Location]: what the service returns for a query it
    can place. *)
Record Location := mkLocation {
  loc_latitude : Q;
  loc_longitude : Q;
  loc_raw : gmap string raw_value
}.

Record GeoPoint := mkGeoPoint {
  latitude : Q;
  longitude : Q;
  address : option raw_value;
  raw : option (gmap string raw_value)
}.

(** What [self.geocoder.geocode(query)] does: it returns a location or
    None, or it raises GeocoderTimedOut or another GeocoderServiceError,
    or it raises some other Exception. *)
Inductive reply :=
  | Found (location : Location)
  | NotFound
  | ServiceTrouble
  | OtherError.

Inductive message := FailedAfter (attempts : Z) | UnexpectedError.

(** What the caller can observe of a call: the requests to the service,
    the pauses and the printed lines. *)
Inductive event :=
  | Request (query : string)
  | Sleep (seconds : Z)
  | Print (text : message).

(** The world: the number of requests the service has received, and the
    events so far, the earliest first.  The service is a function
    [geocoder]: its reply to a query that arrives as request number n. *)
Record World := mkWorld {
  requests : nat;
  events : list event
}.

Definition emit (e : event) (w : World) : World :=
  mkWorld (requests w) (events w ++ [e]).

Definition geocode (geocoder : string → nat → reply) (query : string) (w : World)
    : reply * World :=
  (geocoder query (requests w),
   mkWorld (S (requests w)) (events w ++ [Request query])).

Definition max_retries : Z := 3.
Definition retry_delay : Z := 2.

(** [range(n)] *)
Definition range (n : Z) : list Z := map Z.of_nat (seq 0 (Z.to_nat n)).

(** The GeoPoint of a location; a Location of geopy always has the
    attribute [raw]. *)
Definition point_of (location : Location) : GeoPoint :=
  mkGeoPoint (loc_latitude location) (loc_longitude location)
    (Some (default (Components ∅) (loc_raw location !! "address")))
    (Some (loc_raw location)).

(** The loop [for attempt in range(max_retries)]; when the loop ends the
    function returns None. *)
Fixpoint attempts_loop (geocoder : string → nat → reply) (query : string)
    (attempts : list Z) (w : World) : option GeoPoint * World :=
  match attempts with
  | [] => (None, w)
  | attempt :: rest =>
      match geocode geocoder query w with
      | (Found location, w) => (Some (point_of location), w)
      | (NotFound, w) => (None, w)
      | (ServiceTrouble, w) =>
          if (attempt =? max_retries - 1)%Z
          then (None, emit (Print (FailedAfter max_retries)) w)
          else attempts_loop geocoder query rest
                 (emit (Sleep (retry_delay * (attempt + 1))) w)
      | (OtherError, w) => (None, emit (Print UnexpectedError) w)
      end
  end.

Definition _geocode_with_retry (geocoder : string → nat → reply) (query : string)
    (w : World) : option GeoPoint * World :=
  attempts_loop geocoder query (range max_retries) w.

(** *** Measures of the statements *)

Definition request_count (es : list event) : nat :=
  length (List.filter (λ e, match e with Request _ => true | _ => false end) es).

Definition seconds_slept (es : list event) : Z :=
  foldr (λ e acc, match e with Sleep s => s + acc | _ => acc end)%Z 0%Z es.

End geocode_util.

(** ** trend_detector.py in machine arithmetic

    The numbers that the detector computes, as the program computes them:
    a value column is a float64 or an int64 column, numpy works in
    binary64 with round-to-nearest-even, and the difference of two int64
    scalars wraps around.  The exact model above serves the statements
    about rows, groups, keys and exceptions; the statements about the
    computed numbers (change, direction, confidence, z-scores) are about
    the definitions of this module.  The tables, the dates and the
    exceptions are those of [trend_detector]. *)

Module trend_detector_ieee.
Import PrimFloat.
Export trend_detector(TrendDirection, INCREASING, DECREASING, STABLE, VOLATILE,
                      exn, IndexError, TypeError, ValueError, LinAlgError,
                      outcome, Ok, Raise, date_cell, RawDate, Timestamp,
                      timestamp, to_datetime, group_lt, group_key).

(** *** Numbers *)

(** The float64 nearest to an integer (ties to even): [float(n)],
    [arr.astype(float)]. *)
Definition float_of_Z (z : Z) : float :=
  FloatOps.SF2Prim
    (SpecFloat.binary_normalize FloatOps.prec FloatOps.emax z 0 false).

(** The int64 that a result of int64 arithmetic wraps to. *)
Definition wrap_int64 (z : Z) : Z := ((z + 2 ^ 63) mod 2 ^ 64 - 2 ^ 63)%Z.

(** What the detector asks of the dtype of its value column: the
    conversion to float64, the difference of two scalars, [v != 0], and
    the sum of a column in float64 ([np.add.reduce(values, dtype=float64)],
    the sum inside [np.mean] and [np.std]). *)
Class Dtype (V : Type) := {
  as_float : V → float;
  subtract : V → V → V;
  not_zero : V → bool;
  sum_as_float : list V → float
}.

Record TrendResult := mkTrendResult {
  direction : TrendDirection;
  (** [abs(pct_change)]; the int 0 of a zero start value is kept as 0.0 *)
  magnitude : float;
  confidence : float;
  start_value : float;
  end_value : float;
  period : Z * Z;
  metadata : option (gmap string string)
}.

Record TrendDetector := mkTrendDetector {
  min_periods : Z;
  threshold : float
}.

Record Row (V : Type) := mkRow {
  group : list string;
  date : date_cell;
  value : V;
  z_score : option float;
  shock_magnitude : option float;
  shock_direction : option string
}.
Arguments mkRow {V} _ _ _ _ _ _.
Arguments group {V} _.
Arguments date {V} _.
Arguments value {V} _.
Arguments z_score {V} _.
Arguments shock_magnitude {V} _.
Arguments shock_direction {V} _.

Abbreviation DataFrame V := (list (Row V)).

(** *** numpy reductions *)

(** The loop [res += a[i]]. *)
Definition sum_loop (res : float) (a : list float) : float := foldl add res a.

(** The eight accumulators of a block: [r[j] += a[i + j]] for each further
    run of eight entries. *)
Fixpoint add_blocks (blocks : nat) (r a : list float) : list float :=
  match blocks with
  | O => r
  | S blocks' => add_blocks blocks' (zip_with add r (take 8 a)) (drop 8 a)
  end.

(** A block of 8 to 128 entries: eight accumulators, added up as a tree,
    then the entries after the last full run of eight. *)
Definition block_sum (a : list float) : float :=
  let full := (length a / 8)%nat in
  match add_blocks (full - 1) (take 8 a) (drop 8 a) with
  | [r0; r1; r2; r3; r4; r5; r6; r7] =>
      sum_loop (((r0 + r1) + (r2 + r3)) + ((r4 + r5) + (r6 + r7)))%float
        (drop (8 * full) a)
  | _ => 0%float
  end.

(** numpy's pairwise summation: fewer than 8 entries are added from left
    to right, up to 128 by [block_sum], more in two halves, the first of a
    length that is a multiple of 8.  [fuel] bounds the halvings. *)
Fixpoint pairwise_sum (fuel : nat) (a : list float) : float :=
  let n := length a in
  if (n <? 8)%nat then sum_loop 0%float a
  else if (n <=? 128)%nat then block_sum a
  else
    match fuel with
    | O => 0%float
    | S fuel' =>
        let n2 := (n / 2 - (n / 2) mod 8)%nat in
        (pairwise_sum fuel' (take n2 a) + pairwise_sum fuel' (drop n2 a))%float
    end.

(** [np.sum(a)] of a float64 array: the pairwise sum, added to the
    identity of the reduction.  (The sign of a sum that is zero differs
    between versions of numpy; nothing below depends on it.) *)
Definition np_sum (a : list float) : float :=
  (0 + pairwise_sum (length a) a)%float.

(** The size of the buffer in which numpy converts a column to another
    dtype ([np.getbufsize()]). *)
Definition bufsize : nat := Z.to_nat 8192.

(** The sum of a column that has to be converted to float64: the values
    are converted one buffer at a time, and the pairwise sum of each
    buffer is added to the running total.  [fuel] bounds the number of
    buffers. *)
Fixpoint buffered_sum (fuel : nat) (res : float) (a : list float) : float :=
  match fuel, a with
  | S fuel', _ :: _ =>
      let buffer := take bufsize a in
      buffered_sum fuel' (res + pairwise_sum (length buffer) buffer)%float
        (drop bufsize a)
  | _, _ => res
  end.

#[export] Instance float64 : Dtype float := {|
  as_float x := x;
  subtract := sub;
  not_zero x := negb (x =? 0)%float;
  sum_as_float := np_sum
|}.

#[export] Instance int64 : Dtype Z := {|
  as_float := float_of_Z;
  subtract a b := wrap_int64 (a - b);
  not_zero z := negb (z =? 0)%Z;
  sum_as_float values := buffered_sum (length values) 0 (map float_of_Z values)
|}.

(** [len(a)] as the float64 divisor of a mean *)
Definition count (n : nat) : float := float_of_Z (Z.of_nat n).

(** [np.mean(values)]: the sum in float64, divided by the length. *)
Definition np_mean {V} `{Dtype V} (values : list V) : float :=
  (sum_as_float values / count (length values))%float.

(** [(values - m) ** 2] *)
Definition squared_deviations {V} `{Dtype V} (values : list V) (m : float)
    : list float :=
  map (λ v, (as_float v - m) * (as_float v - m))%float values.

(** [np.std(values, ddof=1)]: the square root of the sum of the squared
    deviations from the mean, divided by [len(values) - 1]; with a single
    value the divisor is 0. *)
Definition np_std {V} `{Dtype V} (values : list V) : float :=
  sqrt (np_sum (squared_deviations values (np_mean values))
        / count (length values - 1)).

(** [np.arange(n)], as [np.polyfit] and [slope * x] read it: in float64 *)
Definition np_arange (n : nat) : list float := map count (seq 0 n).

(** [np.polyfit(x, y, 1)].  numpy refuses an empty [x]; with one
    observation the scaled column of x values is 0/0 and the solver
    raises.  From two observations on, the coefficients are those that
    LAPACK's least-squares solver returns for the float64 data, or the
    exception it ends with: [lstsq] stands for it, and nothing is assumed
    of it. *)
Definition np_polyfit (lstsq : list float → list float → outcome (float * float))
    (x y : list float) : outcome (float * float) :=
  match x with
  | [] => Raise TypeError
  | [_] => Raise LinAlgError
  | _ => lstsq x y
  end.

(** *** TrendDetector._analyze_series *)

(** [(end_val - start_val) / start_val if start_val != 0 else 0]: the
    difference is taken in the dtype of the column, the quotient in
    float64. *)
Definition pct_change_of {V} `{Dtype V} (start_val end_val : V) : float :=
  if not_zero start_val
  then (as_float (subtract end_val start_val) / as_float start_val)%float
  else 0%float.

Definition direction_of (self : TrendDetector) (pct_change : float) : TrendDirection :=
  if (abs pct_change <? threshold self)%float then STABLE
  else if (0 <? pct_change)%float then INCREASING
  else DECREASING.

(** [ss_res] and [ss_tot] of the function *)
Definition ss_res_of {V} `{Dtype V} (values : list V) (slope intercept : float)
    : float :=
  let y_hat := map (λ xi, intercept + slope * xi)%float (np_arange (length values)) in
  np_sum (zip_with (λ v y, (as_float v - y) * (as_float v - y))%float values y_hat).

Definition ss_tot_of {V} `{Dtype V} (values : list V) : float :=
  np_sum (squared_deviations values (np_mean values)).

(** [1 - (ss_res / ss_tot) if ss_tot != 0 else 0] *)
Definition r_squared_of (ss_res ss_tot : float) : float :=
  if negb (ss_tot =? 0)%float then (1 - ss_res / ss_tot)%float else 0%float.

Definition _analyze_series {V} `{Dtype V}
    (lstsq : list float → list float → outcome (float * float))
    (self : TrendDetector) (values : list V) (dates : list Z)
    : outcome (option TrendResult) :=
  if (Z.of_nat (length values) <? min_periods self)%Z then Ok None
  else
    match values, dates with
    | start_val :: _, first_date :: _ =>
        let end_val := List.last values start_val in
        let period := (first_date, List.last dates first_date) in
        let x := np_arange (length values) in
        match np_polyfit lstsq x (map as_float values) with
        | Raise e => Raise e
        | Ok (slope, intercept) =>
            let ss_res := ss_res_of values slope intercept in
            let ss_tot := ss_tot_of values in
            let r_squared := r_squared_of ss_res ss_tot in
            let pct_change := pct_change_of start_val end_val in
            Ok (Some {| direction := direction_of self pct_change;
                        magnitude := abs pct_change;
                        confidence := r_squared;
                        start_value := as_float start_val;
                        end_value := as_float end_val;
                        period := period;
                        metadata := None |})
        end
    | _, _ => Raise IndexError
    end.

(** *** Tables *)

Definition set_date {V} (df : DataFrame V) : DataFrame V :=
  map (λ r, mkRow (group r) (to_datetime (date r)) (value r)
              (z_score r) (shock_magnitude r) (shock_direction r)) df.

Definition values_of {V} (df : DataFrame V) : list V := map value df.
Definition dates_of {V} (df : DataFrame V) : list Z :=
  map (λ r, timestamp (date r)) df.

Definition row_lt {V} (group_cols : list string) (r1 r2 : Row V) : bool :=
  match group_cols with
  | [] => (timestamp (date r1) <? timestamp (date r2))%Z
  | _ :: _ =>
      if decide (group r1 = group r2)
      then (timestamp (date r1) <? timestamp (date r2))%Z
      else group_lt (group r1) (group r2)
  end.

(** [df.sort_values(by=[*group_cols, date_col])].  (pandas does not fix
    the order of rows with equal keys; no statement about this module
    depends on it.) *)
Definition sort_values {V} (group_cols : list string) (df : DataFrame V)
    : DataFrame V :=
  sorted (λ x y, negb (row_lt group_cols y x)) df.

Definition groupby {V} (df : DataFrame V) : list (list string * DataFrame V) :=
  map (λ k, (k, List.filter (λ r, bool_decide (group r = k)) df))
      (sorted (λ a b, negb (group_lt b a)) (remove_dups (map group df))).

(** *** TrendDetector.detect_trends *)

Fixpoint trends_of_groups {V} `{Dtype V}
    (lstsq : list float → list float → outcome (float * float))
    (self : TrendDetector) (grouped : list (list string * DataFrame V))
    (results : gmap string TrendResult) : outcome (gmap string TrendResult) :=
  match grouped with
  | [] => Ok results
  | (group_name, group_df) :: rest =>
      if (Z.of_nat (length group_df) <? min_periods self)%Z
      then trends_of_groups lstsq self rest results
      else
        match _analyze_series lstsq self (values_of group_df) (dates_of group_df) with
        | Raise e => Raise e
        | Ok None => trends_of_groups lstsq self rest results
        | Ok (Some result) =>
            trends_of_groups lstsq self rest
              (<[group_key group_name := result]> results)
        end
  end.

Definition detect_trends {V} `{Dtype V}
    (lstsq : list float → list float → outcome (float * float))
    (self : TrendDetector) (df : DataFrame V) (group_cols : list string)
    : outcome (gmap string TrendResult) :=
  if bool_decide (df = []) || (Z.of_nat (length df) <? min_periods self)%Z then Ok ∅
  else
    let df := sort_values group_cols (set_date df) in
    match group_cols with
    | [] =>
        match _analyze_series lstsq self (values_of df) (dates_of df) with
        | Raise e => Raise e
        | Ok None => Ok ∅
        | Ok (Some result) => Ok {[ "overall" := result ]}
        end
    | _ :: _ => trends_of_groups lstsq self (groupby df) ∅
    end.

(** *** TrendDetector.detect_shocks *)

(** [calculate_zscores(group)]: [np.zeros_like(values)] when the computed
    standard deviation equals zero (the zeros of an int64 column are kept
    as 0.0); a standard deviation that is NaN passes [std != 0]. *)
Definition calculate_zscores {V} `{Dtype V} (group_df : DataFrame V) : list float :=
  let values := values_of group_df in
  let mean := np_mean values in
  let std := np_std values in
  if negb (std =? 0)%float
  then map (λ v, (as_float v - mean) / std)%float values
  else map (λ _, 0%float) values.

Definition grouped_zscores {V} `{Dtype V} (df : DataFrame V) : list (list float) :=
  map (λ g, calculate_zscores g.2) (groupby df).

Definition array_cell (a : list float) : float :=
  match a with [z] => z | _ => nan end.

Definition set_z_score {V} (df : DataFrame V) (zs : list float)
    : outcome (DataFrame V) :=
  if (length zs =? length df)%nat
  then Ok (zip_with (λ r z, mkRow (group r) (date r) (value r)
                              (Some z) (shock_magnitude r) (shock_direction r)) df zs)
  else Raise ValueError.

Definition zscore_column {V} `{Dtype V} (df : DataFrame V) (group_cols : list string)
    : list float :=
  match group_cols with
  | [] => calculate_zscores df
  | _ :: _ => map array_cell (grouped_zscores df)
  end.

Definition z_of {V} (r : Row V) : float := default nan (z_score r).

(** [abs(df['z_score']) >= z_threshold]: False for NaN *)
Definition shock_mask {V} (z_threshold : float) (r : Row V) : bool :=
  (z_threshold <=? abs (z_of r))%float.

(** The two columns that are added to [shock_events]. *)
Definition annotate {V} (r : Row V) : Row V :=
  mkRow (group r) (date r) (value r) (z_score r)
    (Some (abs (z_of r)))
    (Some (if (0 <? z_of r)%float then "positive" else "negative")).

(** [sort_values(by=['z_score'], ascending=False)]: the largest z first,
    NaN last.  (The order of rows with equal z-scores is not fixed by
    pandas; no statement depends on it.) *)
Definition z_before (a b : float) : bool :=
  if is_nan b then true
  else if is_nan a then false
  else (b <=? a)%float.

Definition sort_by_z_score {V} (df : DataFrame V) : DataFrame V :=
  sorted (λ r1 r2, z_before (z_of r1) (z_of r2)) df.

Definition detect_shocks {V} `{Dtype V} (df : DataFrame V) (group_cols : list string)
    (z_threshold : float) : outcome (DataFrame V) :=
  if bool_decide (df = []) then Ok []
  else
    let df := set_date df in
    match set_z_score df (zscore_column df group_cols) with
    | Raise e => Raise e
    | Ok df =>
        let shock_events := List.filter (shock_mask z_threshold) df in
        Ok (sort_by_z_score (map annotate shock_events))
    end.

(** *** Tables of the examples *)

Definition plain_row {V} (g : string) (t : Z) (v : V) : Row V :=
  mkRow [g] (RawDate t) v None None None.

(** n monthly observations of one value in one group *)
Definition constant_table {V} (n : nat) (v : V) : DataFrame V :=
  map (λ i, plain_row "A" (Z.of_nat i) v) (seq 1 n).

(** 0.1 as a float64 *)
Definition tenth : float := 0x1.999999999999ap-4%float.

(** The observations 0.0, 0.1, 0.2 of one group. *)
Definition tenths_table : DataFrame float :=
  [ plain_row "A" 1 0%float; plain_row "A" 2 tenth;
    plain_row "A" 3 0x1.999999999999ap-3%float ].

(** The rising series 4.0, 4.5, 5.0, 6.0. *)
Definition rising_values : list float := [4; 0x1.2p+2; 5; 6]%float.

(** A solver that returns this fit, whatever the data. *)
Definition solver_returning (fit : float * float)
    : list float → list float → outcome (float * float) :=
  λ _ _, Ok fit.

(** The rows of the table that an entry of the [detect_trends] result
    with this key can come from: all rows without grouping, else the rows
    of the groups with this key. *)
Definition series_rows {V} (df : DataFrame V) (group_cols : list string)
    (key : string) : DataFrame V :=
  match group_cols with
  | [] => df
  | _ :: _ => List.filter (λ r, bool_decide (group_key (group r) = key)) df
  end.

(** The z-score that the ungrouped call gives to a value of the table. *)
Definition machine_z {V} `{Dtype V} (df : DataFrame V) (v : V) : float :=
  if negb (np_std (values_of df) =? 0)%float
  then ((as_float v - np_mean (values_of df)) / np_std (values_of df))%float
  else 0%float.

End trend_detector_ieee.

(** * Properties *)

(** ** The stable sort *)

Section sorting.
Context {A : Type} (before : A → A → bool).

Lemma insert_sorted_perm (x : A) (l : list A) :
  insert_sorted before x l ≡ₚ x :: l.
Proof.
  induction l as [|y l IH]; simpl; [done|].
  destruct (before x y); [done|].
  rewrite IH. apply Permutation_swap.
Qed.

Lemma sorted_perm (l : list A) : sorted before l ≡ₚ l.
Proof.
  induction l as [|x l IH]; simpl; [done|].
  rewrite insert_sorted_perm. by f_equiv.
Qed.

Lemma elem_of_sorted (x : A) (l : list A) : x ∈ sorted before l ↔ x ∈ l.
Proof. by rewrite sorted_perm. Qed.

Hypothesis before_total : ∀ x y, before x y = false → before y x = true.
Hypothesis before_trans :
  ∀ x y z, before x y = true → before y z = true → before x z = true.

Lemma insert_sorted_strongly (x : A) (l : list A) :
  StronglySorted (λ a b, before a b = true) l →
  StronglySorted (λ a b, before a b = true) (insert_sorted before x l).
Proof.
  induction 1 as [|y l Hl IH Hy]; simpl.
  - repeat constructor.
  - destruct (before x y) eqn:Hxy.
    + constructor; [by constructor|].
      constructor; [done|].
      eapply Forall_impl; [exact Hy|]. intros z Hz. by eapply before_trans.
    + constructor; [done|].
      rewrite insert_sorted_perm. constructor; [by apply before_total|done].
Qed.

Lemma sorted_strongly (l : list A) :
  StronglySorted (λ a b, before a b = true) (sorted before l).
Proof.
  induction l as [|x l IH]; simpl; [constructor|].
  by apply insert_sorted_strongly.
Qed.
End sorting.

Lemma StronglySorted_impl {A} (R1 R2 : A → A → Prop) (l : list A) :
  (∀ a b, R1 a b → R2 a b) → StronglySorted R1 l → StronglySorted R2 l.
Proof.
  intros HR. induction 1 as [|x l Hl IH Hx]; constructor; [done|].
  eapply Forall_impl; [exact Hx|]. intros y. apply HR.
Qed.

(** A dict holds one value for a key. *)
Lemma NoDup_fst_functional {K V} (l : list (K * V)) (k : K) (v1 v2 : V) :
  NoDup l.*1 → (k, v1) ∈ l → (k, v2) ∈ l → v1 = v2.
Proof.
  induction l as [|[k' v'] l IH]; csimpl; [by intros _ ?%elem_of_nil|].
  rewrite NoDup_cons, !elem_of_cons. intros [Hk Hnd] [H1|H1] [H2|H2].
  - congruence.
  - injection H1 as -> ->. destruct Hk. apply list_elem_of_fmap. by exists (k', v2).
  - injection H2 as -> ->. destruct Hk. apply list_elem_of_fmap. by exists (k', v1).
  - by apply IH.
Qed.

Lemma slice_to_subseteq {A} (n : Z) (l : list A) : slice_to n l ⊆ l.
Proof.
  unfold slice_to. intros x Hx.
  destruct (0 <=? n)%Z; eapply subseteq_take; exact Hx.
Qed.

(** ** skill_matcher.py *)

Section skill_matcher_facts.
Import skill_matcher.
Local Open Scope Q_scope.

Lemma Qltb_lt (a b : Q) : Qltb a b = true ↔ a < b.
Proof.
  unfold Qltb. rewrite negb_true_iff, <- not_true_iff_false, Qle_bool_iff.
  split; [apply Qnot_le_lt | apply Qlt_not_le].
Qed.

Lemma Qltb_ge (a b : Q) : Qltb a b = false ↔ b <= a.
Proof. unfold Qltb. by rewrite negb_false_iff, Qle_bool_iff. Qed.

Lemma py_min_Qmin (a b : Q) : py_min a b == Qmin a b.
Proof.
  unfold py_min. destruct (Qltb b a) eqn:H.
  - apply Qltb_lt in H. symmetry. apply Q.min_r. by apply Qlt_le_weak.
  - apply Qltb_ge in H. symmetry. by apply Q.min_l.
Qed.

Lemma len_nonneg (s : gset string) : (0 <= len s)%Z.
Proof. unfold len. lia. Qed.

Lemma len_pos (s : gset string) : s ≠ ∅ → (0 < len s)%Z.
Proof.
  intros Hs. unfold len.
  assert (size s ≠ 0%nat) by (rewrite size_non_empty_iff; by intros ?%leibniz_equiv).
  lia.
Qed.

Lemma len_difference_le (s t : gset string) : (len (t ∖ s) <= len t)%Z.
Proof.
  unfold len. apply Nat2Z.inj_le, subseteq_size, subseteq_difference_l. done.
Qed.

(** The gap is a fraction of the target's skills: it lies in [0, 1]. *)
Lemma skill_gap_range (a b : string) (s t : gset string) :
  0 <= skill_gap (_create_transition_path a b s t) <= 1.
Proof.
  simpl. destruct (decide (t = ∅)) as [->|Ht]; [done|].
  pose proof (len_pos t Ht) as Hpos.
  pose proof (len_nonneg (t ∖ s)) as Hnn.
  pose proof (len_difference_le s t) as Hle.
  rewrite (Zlt_Qlt 0) in Hpos. rewrite (Zle_Qle 0) in Hnn. rewrite Zle_Qle in Hle.
  split.
  - apply Qle_shift_div_l; [done|]. by rewrite Qmult_0_l.
  - apply Qle_shift_div_r; [done|]. by rewrite Qmult_1_l.
Qed.

Lemma difficulty_is_gap (a b : string) (s t : gset string) :
  transition_difficulty (_create_transition_path a b s t)
  == skill_gap (_create_transition_path a b s t).
Proof.
  pose proof (skill_gap_range a b s t) as [_ Hle].
  change (transition_difficulty (_create_transition_path a b s t))
    with (py_min 1 (skill_gap (_create_transition_path a b s t))).
  rewrite py_min_Qmin. by apply Q.min_r.
Qed.
End skill_matcher_facts.

Section catalog_facts.
Import skill_matcher.
Local Open Scope Q_scope.

Lemma elem_of_concat_map {A B} (f : A → list B) (l : list A) (y : B) :
  y ∈ concat (map f l) ↔ ∃ x, x ∈ l ∧ y ∈ f x.
Proof.
  rewrite list_elem_of_In, in_concat. split.
  - intros (ys & Hys & Hy). apply in_map_iff in Hys as (x & <- & Hx).
    exists x. by rewrite !list_elem_of_In.
  - intros (x & Hx & Hy). exists (f x). rewrite in_map_iff, <- list_elem_of_In.
    split; [|done]. exists x. by rewrite <- list_elem_of_In.
Qed.

Lemma elem_of_bool_filter {A} (f : A → bool) (l : list A) (x : A) :
  x ∈ List.filter f l ↔ x ∈ l ∧ f x = true.
Proof. by rewrite !list_elem_of_In, filter_In. Qed.

Lemma elem_of_similar_step (src : string) (ss : gset string) (mo : Q)
    (k : string) (p : JobProfile) (j : string) (sim : Q) :
  (j, sim) ∈ similar_step src ss mo (k, p) →
  j = k ∧ k ≠ src ∧ get_skill_ids p ≠ ∅.
Proof.
  simpl. destruct (decide (k = src)); [by intros ?%elem_of_nil|].
  destruct (decide (get_skill_ids p = ∅)); [by intros ?%elem_of_nil|].
  destruct (Qgeb _ _); [|by intros ?%elem_of_nil].
  intros [=]%list_elem_of_singleton. by subst.
Qed.

(** Whatever is returned was a candidate with at least one skill. *)
Lemma elem_of_find_similar_jobs (c : catalog) (src : string) (top_n : Z) (mo : Q)
    (j : string) (sim : Q) :
  (j, sim) ∈ find_similar_jobs c src top_n mo →
  ∃ p, (j, p) ∈ c ∧ j ≠ src ∧ get_skill_ids p ≠ ∅.
Proof.
  unfold find_similar_jobs. destruct (catalog_get c src); [|by intros ?%elem_of_nil].
  intros Hin%slice_to_subseteq. rewrite elem_of_sorted in Hin.
  apply elem_of_concat_map in Hin as ([k p] & Hkp & Hstep).
  apply elem_of_similar_step in Hstep as (-> & ? & ?). by exists p.
Qed.
End catalog_facts.

(** ** The deduplication dict *)

Section path_dict_facts.
Import skill_matcher.
Local Open Scope Q_scope.

Lemma dict_get_None (d : path_dict) (k : gset string) :
  dict_get d k = None ↔ k ∉ d.*1.
Proof.
  induction d as [|[k' v'] d IH]; csimpl.
  - split; [intros _; apply not_elem_of_nil|done].
  - rewrite not_elem_of_cons. destruct (decide (k' = k)) as [Heq|Hne].
  + split; [done|]. by intros [? _].
  + rewrite IH. split; [done|]. by intros [_ ?].
Qed.

Lemma dict_get_Some (d : path_dict) (k : gset string) (v : TransitionPath) :
  dict_get d k = Some v → (k, v) ∈ d.
Proof.
  induction d as [|[k' v'] d IH]; csimpl; [done|].
  destruct (decide (k' = k)) as [->|].
  - intros [= ->]. left.
  - intros ?. right. auto.
Qed.

Lemma dict_set_fresh (d : path_dict) (k : gset string) (v : TransitionPath) :
  k ∉ d.*1 → dict_set d k v = (d ++ [(k, v)])%list.
Proof.
  induction d as [|[k' v'] d IH]; csimpl; [done|].
  rewrite not_elem_of_cons. intros [? ?].
  destruct (decide (k' = k)); [congruence|]. by rewrite IH.
Qed.

Lemma dict_set_keys (d : path_dict) (k : gset string) (v : TransitionPath) :
  k ∈ d.*1 → (dict_set d k v).*1 = d.*1.
Proof.
  induction d as [|[k' v'] d IH]; csimpl; [by intros ?%elem_of_nil|].
  destruct (decide (k' = k)); [done|].
  rewrite elem_of_cons. intros [?|?]; [congruence|]. csimpl. f_equal. by apply IH.
Qed.

Lemma dict_get_set (d : path_dict) (k k' : gset string) (v : TransitionPath) :
  dict_get (dict_set d k v) k' = if decide (k = k') then Some v else dict_get d k'.
Proof.
  induction d as [|[k0 v0] d IH]; csimpl.
  - by destruct (decide (k = k')).
  - destruct (decide (k0 = k)) as [->|]; csimpl.
    + by destruct (decide (k = k')).
    + rewrite IH. destruct (decide (k0 = k')), (decide (k = k')); congruence.
Qed.

Lemma elem_of_dict_set (d : path_dict) (k : gset string) (v : TransitionPath)
    (kv : gset string * TransitionPath) :
  kv ∈ dict_set d k v → kv = (k, v) ∨ kv ∈ d.
Proof.
  induction d as [|[k0 v0] d IH]; csimpl.
  - intros ->%list_elem_of_singleton. by left.
  - destruct (decide (k0 = k)) as [->|].
    + rewrite !elem_of_cons. intros [->|Hin]; [by left|right; by right].
    + rewrite !elem_of_cons. intros [->|Hin]; [right; by left|].
      destruct (IH Hin) as [->|?]; [by left|right; by right].
Qed.

Lemma dict_set_NoDup (d : path_dict) (k : gset string) (v : TransitionPath) :
  NoDup d.*1 → NoDup (dict_set d k v).*1.
Proof.
  intros Hd. destruct (decide (k ∈ d.*1)) as [Hin|Hnin].
  - by rewrite dict_set_keys.
  - rewrite dict_set_fresh, fmap_app by done. simpl.
    apply NoDup_app. split_and!; [done| |apply NoDup_singleton].
    intros x Hx ->%list_elem_of_singleton. done.
Qed.

Lemma dict_set_inv (seen : list TransitionPath) (d : path_dict)
    (path : TransitionPath) :
  dict_inv seen d →
  (∀ kept, dict_get d (missing_skills path) = Some kept →
           transition_difficulty path <= transition_difficulty kept) →
  dict_inv (seen ++ [path])%list (dict_set d (missing_skills path) path).
Proof.
  intros (Hnd & Hval & Hseen) Hkept. split_and!.
  - by apply dict_set_NoDup.
  - intros k v [[= -> ->]|Hin]%elem_of_dict_set.
    + split; [done|]. apply elem_of_app. right. left.
    + destruct (Hval k v Hin) as [? ?]. split; [done|].
      apply elem_of_app. by left.
  - intros p [Hp| ->%list_elem_of_singleton]%elem_of_app; rewrite dict_get_set.
    + destruct (Hseen p Hp) as (v & Hget & Hle).
      destruct (decide (missing_skills path = missing_skills p)) as [Heq|]; [|by exists v].
      exists path. split; [done|]. rewrite <- Heq in Hget.
      eapply Qle_trans; [by apply Hkept|done].
    + rewrite decide_True by done. exists path. split; [done|]. apply Qle_refl.
Qed.

Lemma unique_step_inv (seen : list TransitionPath) (d : path_dict)
    (path : TransitionPath) :
  dict_inv seen d → dict_inv (seen ++ [path])%list (unique_step d path).
Proof.
  intros Hinv. unfold unique_step.
  destruct (dict_get d (missing_skills path)) as [kept|] eqn:Hget.
  - destruct (Qltb _ _) eqn:Hlt.
    + apply dict_set_inv; [done|]. intros kept' Hget'.
      rewrite Hget in Hget'. injection Hget' as <-.
      apply Qltb_lt in Hlt. by apply Qlt_le_weak.
    + apply Qltb_ge in Hlt. destruct Hinv as (Hnd & Hval & Hseen). split_and!.
      * done.
      * intros k v Hin. destruct (Hval k v Hin) as [? ?]. split; [done|].
        apply elem_of_app. by left.
      * intros p [Hp| ->%list_elem_of_singleton]%elem_of_app; [by apply Hseen|].
        by exists kept.
  - apply dict_set_inv; [done|]. intros kept Hget'.
    rewrite Hget in Hget'. discriminate.
Qed.

Lemma foldl_unique_step_inv (paths seen : list TransitionPath) (d : path_dict) :
  dict_inv seen d → dict_inv (seen ++ paths)%list (foldl unique_step d paths).
Proof.
  revert seen d. induction paths as [|path paths IH]; intros seen d Hinv; simpl.
  - by rewrite app_nil_r.
  - rewrite cons_middle, app_assoc. by apply IH, unique_step_inv.
Qed.

Lemma unique_paths_inv (paths : list TransitionPath) :
  dict_inv paths (unique_paths paths).
Proof.
  apply (foldl_unique_step_inv paths [] []). split_and!.
  - constructor.
  - by intros k v ?%elem_of_nil.
  - by intros p ?%elem_of_nil.
Qed.

(** The values of the dict, read off the invariant. *)
Lemma dict_values_missing (seen : list TransitionPath) (d : path_dict) :
  dict_inv seen d → missing_skills <$> dict_values d = d.*1.
Proof.
  intros (_ & Hval & _). unfold dict_values.
  induction d as [|[k v] d IH]; csimpl; [done|].
  destruct (Hval k v) as [-> _]; [left|]. f_equal. apply IH.
  intros k' v' Hin. apply Hval. by right.
Qed.

Lemma elem_of_dict_values (d : path_dict) (v : TransitionPath) :
  v ∈ dict_values d ↔ ∃ k, (k, v) ∈ d.
Proof.
  unfold dict_values. rewrite list_elem_of_fmap. split.
  - intros ([k v'] & -> & Hin). by exists k.
  - intros (k & Hin). by exists (k, v).
Qed.
End path_dict_facts.

(** ** The order of the result *)

Section path_order.
Import skill_matcher.
Local Open Scope Q_scope.

Lemma path_le_total (x y : TransitionPath) : path_le x y ∨ path_le y x.
Proof.
  unfold path_le.
  destruct (Q_dec (transition_difficulty x) (transition_difficulty y))
    as [[Hlt|Hgt]|Heq]; [by left; left|by right; left|].
  destruct (Z.le_ge_cases (common_skills_count x) (common_skills_count y)).
  - right. right. split; [by symmetry|done].
  - left. by right.
Qed.

Lemma path_le_trans (x y z : TransitionPath) :
  path_le x y → path_le y z → path_le x z.
Proof.
  unfold path_le. intros [Hxy|[Hxy Hc1]] [Hyz|[Hyz Hc2]].
  - left. lra.
  - left. lra.
  - left. lra.
  - right. split; [lra|lia].
Qed.

Lemma sort_key_before (x y : TransitionPath) :
  negb (key_lt (sort_key y) (sort_key x)) = true ↔ path_le x y.
Proof.
  unfold key_lt, sort_key, path_le; simpl. rewrite negb_true_iff.
  destruct (Qeq_bool _ _) eqn:Heq.
  - apply Qeq_bool_iff in Heq. rewrite Z.ltb_ge. split.
    + intros Hc. right. split; [by symmetry|lia].
    + intros [Hlt|[_ Hc]]; [lra|lia].
  - apply Qeq_bool_neq in Heq. rewrite Qltb_ge. split.
    + intros Hle. left. apply Qle_lt_or_eq in Hle as [?|Heq']; [done|].
      destruct Heq. by symmetry.
    + intros [Hlt|[Heq' _]]; [lra|]. destruct Heq. by symmetry.
Qed.

Lemma path_sort_sorted (l : list TransitionPath) :
  StronglySorted path_le
    (sorted (λ x y, negb (key_lt (sort_key y) (sort_key x))) l).
Proof.
  eapply (StronglySorted_impl (λ a b, negb (key_lt (sort_key b) (sort_key a)) = true)).
  { intros a b. apply sort_key_before. }
  apply sorted_strongly.
  - intros x y Hxy. apply sort_key_before.
    destruct (path_le_total x y) as [H|H]; [|done].
    apply sort_key_before in H. congruence.
  - intros x y z. rewrite !sort_key_before. apply path_le_trans.
Qed.
End path_order.

Section deduplication.
Import skill_matcher.
Local Open Scope Q_scope.

Abbreviation path_sort := (sorted (λ x y, negb (key_lt (sort_key y) (sort_key x)))).

Lemma elem_of_deduplicated (paths : list TransitionPath) (r : TransitionPath) :
  r ∈ path_sort (dict_values (unique_paths paths)) → r ∈ paths.
Proof.
  rewrite elem_of_sorted, elem_of_dict_values. intros (k & Hin).
  destruct (unique_paths_inv paths) as (_ & Hval & _).
  by destruct (Hval k r Hin).
Qed.

Lemma deduplicated_NoDup (paths : list TransitionPath) :
  NoDup (missing_skills <$> path_sort (dict_values (unique_paths paths))).
Proof.
  rewrite sorted_perm.
  rewrite (dict_values_missing paths) by apply unique_paths_inv.
  by destruct (unique_paths_inv paths) as (? & _ & _).
Qed.

Lemma deduplicated_keeps_key (paths : list TransitionPath) (p : TransitionPath) :
  p ∈ paths →
  ∃ r, r ∈ path_sort (dict_values (unique_paths paths))
       ∧ missing_skills r = missing_skills p.
Proof.
  intros Hp. destruct (unique_paths_inv paths) as (_ & Hval & Hseen).
  destruct (Hseen p Hp) as (v & Hget%dict_get_Some & _).
  exists v. split; [|by destruct (Hval _ _ Hget)].
  rewrite elem_of_sorted, elem_of_dict_values. by eexists.
Qed.

Lemma deduplicated_keeps_easiest (paths : list TransitionPath)
    (p r : TransitionPath) :
  p ∈ paths →
  r ∈ path_sort (dict_values (unique_paths paths)) →
  missing_skills r = missing_skills p →
  transition_difficulty r <= transition_difficulty p.
Proof.
  intros Hp Hr Hkey. destruct (unique_paths_inv paths) as (Hnd & Hval & Hseen).
  destruct (Hseen p Hp) as (v & Hget%dict_get_Some & Hle).
  rewrite elem_of_sorted, elem_of_dict_values in Hr. destruct Hr as (k & Hin).
  destruct (Hval k r Hin) as [Hk _]. rewrite Hkey in Hk. subst k.
  by rewrite (NoDup_fst_functional _ _ _ _ Hnd Hin Hget).
Qed.

Lemma all_paths_feasible (c : catalog) (src tgt : string) (ss ts : gset string)
    (p : TransitionPath) :
  p ∈ all_paths c src tgt ss ts → transition_difficulty p < 1.
Proof.
  unfold all_paths. rewrite elem_of_bool_filter. intros [_ Hlt]. by apply Qltb_lt.
Qed.
End deduplication.

Section skill_matcher_claims.
Import skill_matcher.
Local Open Scope Q_scope.

(** C7.  For every pair of skill sets, [_create_transition_path] overlaps
    on the intersection, misses target minus source, has skill_gap =
    |target − source| / |target| (1.0 for an empty target) and
    transition_difficulty = min(1.0, skill_gap).  For Job A {python, sql}
    and Job B {sql, excel}: [find_similar_jobs] gives B the similarity 1/3,
    missing_skills(A→B) = {excel}, skill_gap = 1/2, difficulty = 0.5. *)
Theorem create_transition_path_gap (a b : string) (s t : gset string) :
  let p := _create_transition_path a b s t in
  let ab :=
    _create_transition_path "A" "B" (get_skill_ids job_A) (get_skill_ids job_B) in
  skill_overlap p = s ∩ t ∧
  missing_skills p = t ∖ s ∧
  (t ≠ ∅ → skill_gap p == inject_Z (len (t ∖ s)) / inject_Z (len t)) ∧
  (t = ∅ → skill_gap p == 1) ∧
  transition_difficulty p == Qmin 1 (skill_gap p) ∧
  find_similar_jobs scenario "A" 5 (3 # 10) = [("B", 1 # 3)] ∧
  missing_skills ab = {["excel"]} ∧
  skill_gap ab == 1 # 2 ∧
  transition_difficulty ab == 5 # 10.
Proof.
  intros p ab. split_and!.
  - done.
  - done.
  - intros Ht. subst p. simpl. by destruct (decide (t = ∅)).
  - intros Ht. subst p. simpl. by destruct (decide (t = ∅)).
  - apply py_min_Qmin.
  - by vm_compute.
  - by vm_compute.
  - by vm_compute.
  - by vm_compute.
Qed.

Lemma create_transition_path_gap_witness :
  get_skill_ids job_B ≠ ∅ ∧
  skill_gap (_create_transition_path "A" "B" (get_skill_ids job_A) (get_skill_ids job_B))
  == inject_Z (len (get_skill_ids job_B ∖ get_skill_ids job_A))
     / inject_Z (len (get_skill_ids job_B)).
Proof.
  assert (get_skill_ids job_B ≠ ∅) as Hne by (by vm_compute).
  split; [exact Hne|].
  exact (proj1 (proj2 (proj2
    (create_transition_path_gap "A" "B" (get_skill_ids job_A) (get_skill_ids job_B))))
    Hne).
Defined.

(** C2.  Any two positive values of [max_hops] give the same list: only
    single intermediate jobs are searched. *)
Theorem max_hops_beyond_one (c : catalog) (source_job_id target_job_id : string)
    (a b : Z) :
  (0 < a)%Z → (0 < b)%Z →
  find_transition_paths c source_job_id target_job_id a
  = find_transition_paths c source_job_id target_job_id b.
Proof.
  intros Ha Hb. unfold find_transition_paths.
  destruct (catalog_get c source_job_id); [|done].
  destruct (catalog_get c target_job_id); [|done].
  by rewrite !(proj2 (Z.leb_gt _ _)).
Qed.

Lemma max_hops_beyond_one_witness :
  (0 < 1)%Z ∧ (0 < 7)%Z ∧
  find_transition_paths scenario "A" "B" 1 = find_transition_paths scenario "A" "B" 7.
Proof.
  assert (0 < 1)%Z as H1 by lia. assert (0 < 7)%Z as H7 by lia.
  exact (conj H1 (conj H7 (max_hops_beyond_one scenario "A" "B" 1 7 H1 H7))).
Defined.
(** C1.  Every path that [find_transition_paths] returns has
    transition_difficulty < 1.0; no two returned paths have the same
    missing_skills set; of the candidate paths that share a missing_skills
    set one is returned, and it is not more difficult than any of them;
    the result is in ascending order of difficulty, and of descending
    common_skills_count among equal difficulties. *)
Theorem find_transition_paths_result (c : catalog)
    (source_job_id target_job_id : string) (max_hops : Z) :
  let result := find_transition_paths c source_job_id target_job_id max_hops in
  (∀ p, p ∈ result → transition_difficulty p < 1)
  ∧ NoDup (missing_skills <$> result)
  ∧ (∀ source target,
       catalog_get c source_job_id = Some source →
       catalog_get c target_job_id = Some target →
       (0 < max_hops)%Z →
       let candidates :=
         all_paths c source_job_id target_job_id
           (get_skill_ids source) (get_skill_ids target) in
       (∀ r, r ∈ result → r ∈ candidates)
       ∧ (∀ p, p ∈ candidates →
            (∃ r, r ∈ result ∧ missing_skills r = missing_skills p)
            ∧ (∀ r, r ∈ result → missing_skills r = missing_skills p →
                 transition_difficulty r <= transition_difficulty p)))
  ∧ StronglySorted path_le result.
Proof.
  unfold find_transition_paths.
  destruct (catalog_get c source_job_id) as [source|];
    [destruct (catalog_get c target_job_id) as [target|]|].
  2,3: by (split_and!; [by intros p ?%elem_of_nil|constructor|done|constructor]).
  destruct (max_hops <=? 0)%Z eqn:Hhops.
  - apply Z.leb_le in Hhops. destruct (Qltb _ 1) eqn:Hlt.
    + split_and!.
      * intros p ->%list_elem_of_singleton. by apply Qltb_lt.
      * apply NoDup_singleton.
      * intros; lia.
      * repeat constructor.
    + split_and!; [by intros p ?%elem_of_nil|constructor|intros; lia|constructor].
  - split_and!.
    + intros p Hp%elem_of_deduplicated. by eapply all_paths_feasible.
    + apply deduplicated_NoDup.
    + intros source' target' [= <-] [= <-] _. simpl. split.
      * intros r. apply elem_of_deduplicated.
      * intros p Hp. split; [by apply deduplicated_keeps_key|].
        intros r. by apply deduplicated_keeps_easiest.
    + apply path_sort_sorted.
Qed.

Lemma find_transition_paths_result_witness :
  catalog_get wide_scenario "A" = Some job_A
  ∧ catalog_get wide_scenario "B" = Some job_B
  ∧ (0 < 2)%Z
  ∧ ∀ r, r ∈ find_transition_paths wide_scenario "A" "B" 2 →
         r ∈ all_paths wide_scenario "A" "B" (get_skill_ids job_A) (get_skill_ids job_B).
Proof.
  assert (catalog_get wide_scenario "A" = Some job_A) as HA by reflexivity.
  assert (catalog_get wide_scenario "B" = Some job_B) as HB by reflexivity.
  assert (0 < 2)%Z as Hhops by lia.
  split_and!; [done..|].
  exact (proj1 (proj1 (proj2 (proj2
    (find_transition_paths_result wide_scenario "A" "B" 2))) job_A job_B HA HB Hhops)).
Defined.

(** C10.  [find_similar_jobs] never returns a candidate job whose
    required-skill set is empty, whatever [min_skill_overlap] is: such a
    candidate is skipped before its similarity is computed. *)
Theorem find_similar_jobs_skips_empty (c : catalog) (source_job_id : string)
    (top_n : Z) (min_skill_overlap : Q) (job_id : string) (profile : JobProfile) :
  catalog_wf c →
  (job_id, profile) ∈ c →
  get_skill_ids profile = ∅ →
  job_id ∉ (find_similar_jobs c source_job_id top_n min_skill_overlap).*1.
Proof.
  intros Hwf Hin Hempty ([j sim] & -> & Hres)%list_elem_of_fmap. simpl in *.
  apply elem_of_find_similar_jobs in Hres as (p & Hp & _ & Hskills).
  by rewrite (NoDup_fst_functional _ _ _ _ Hwf Hp Hin) in Hskills.
Qed.

Lemma find_similar_jobs_skips_empty_witness :
  catalog_wf wide_scenario
  ∧ ("E", job_E) ∈ wide_scenario
  ∧ get_skill_ids job_E = ∅
  ∧ "E" ∉ (find_similar_jobs wide_scenario "A" 5 0).*1.
Proof.
  assert (catalog_wf wide_scenario) as Hwf by (unfold catalog_wf; compute_done).
  assert (("E", job_E) ∈ wide_scenario) as Hin
    by (apply list_elem_of_In; simpl; tauto).
  assert (get_skill_ids job_E = ∅) as Hempty by reflexivity.
  split_and!; [done..|].
  exact (find_similar_jobs_skips_empty wide_scenario "A" 5 0 "E" job_E Hwf Hin Hempty).
Defined.
End skill_matcher_claims.

(** ** trend_detector.py: numbers *)

Section numpy_facts.
Import trend_detector.
Local Open Scope R_scope.

Lemma Rltb_lt (a b : R) : Rltb a b = true ↔ a < b.
Proof. unfold Rltb. destruct (Rlt_dec a b); split; (done || discriminate). Qed.

Lemma Rltb_ge (a b : R) : Rltb a b = false ↔ b <= a.
Proof.
  unfold Rltb. destruct (Rlt_dec a b); split; intros;
    first [done | lra | exfalso; lra].
Qed.

Lemma Rleb_le (a b : R) : Rleb a b = true ↔ a <= b.
Proof. unfold Rleb. destruct (Rle_dec a b); split; (done || discriminate). Qed.

Lemma Rleb_gt (a b : R) : Rleb a b = false ↔ b < a.
Proof.
  unfold Rleb. destruct (Rle_dec a b); split; intros;
    first [done | lra | exfalso; lra].
Qed.

Lemma Reqb_neq (a b : R) : Reqb a b = false ↔ a ≠ b.
Proof. unfold Reqb. destruct (Req_dec_T a b); split; (done || discriminate). Qed.

Lemma np_polyfit_two (x1 x2 : R) (x y : list R) :
  ∃ slope intercept, np_polyfit (x1 :: x2 :: x) y = Ok (slope, intercept).
Proof. simpl. eauto. Qed.
End numpy_facts.

(** ** trend_detector.py: [_analyze_series] *)

Section analyze_series_facts.
Import trend_detector.
Local Open Scope R_scope.

(** With two observations or more, and [min_periods] of them, a result is
    produced. *)
Lemma analyze_series_returns (self : TrendDetector) (values : list R)
    (dates : list Z) :
  (2 <= length values)%nat →
  length dates = length values →
  (min_periods self <= Z.of_nat (length values))%Z →
  ∃ r, _analyze_series self values dates = Ok (Some r).
Proof.
  intros H2 Hdates Hmin. unfold _analyze_series.
  rewrite (proj2 (Z.ltb_ge _ _)) by done.
  destruct values as [|v1 [|v2 values]]; simpl in H2; try lia.
  destruct dates as [|d1 dates]; [done|].
  change (np_arange (length (v1 :: v2 :: values)))
    with (INR 0 :: INR 1 :: map INR (seq 2 (length values))).
  destruct (np_polyfit_two (INR 0) (INR 1) (map INR (seq 2 (length values)))
              (v1 :: v2 :: values)) as (slope & intercept & ->).
  eauto.
Qed.

End analyze_series_facts.

(** ** trend_detector.py: [detect_trends] *)

Section detect_trends_facts.
Import trend_detector.
Local Open Scope R_scope.

Lemma elem_of_groupby (df : DataFrame) (k : list string) (g : DataFrame) :
  (k, g) ∈ groupby df → g = List.filter (λ r, bool_decide (group r = k)) df.
Proof.
  unfold groupby. rewrite list_elem_of_In, in_map_iff.
  by intros (k' & [= -> ->] & _).
Qed.

(** Where an entry of the result of the loop comes from. *)
Lemma trends_of_groups_lookup (self : TrendDetector)
    (grouped : list (list string * DataFrame))
    (init results : gmap string TrendResult) (key : string) (r : TrendResult) :
  trends_of_groups self grouped init = Ok results →
  results !! key = Some r →
  init !! key = Some r
  ∨ ∃ group_name group_df,
      (group_name, group_df) ∈ grouped
      ∧ key = group_key group_name
      ∧ (min_periods self <= Z.of_nat (length group_df))%Z
      ∧ _analyze_series self (values_of group_df) (dates_of group_df) = Ok (Some r).
Proof.
  revert init. induction grouped as [|[name g] grouped IH]; intros init; simpl.
  - intros [= ->]. by left.
  - assert (∀ init',
      trends_of_groups self grouped init' = Ok results →
      results !! key = Some r →
      (init' !! key = Some r → init !! key = Some r
         ∨ ∃ group_name group_df,
             (group_name, group_df) ∈ (name, g) :: grouped
             ∧ key = group_key group_name
             ∧ (min_periods self <= Z.of_nat (length group_df))%Z
             ∧ _analyze_series self (values_of group_df) (dates_of group_df)
               = Ok (Some r)) →
      init !! key = Some r
      ∨ ∃ group_name group_df,
          (group_name, group_df) ∈ (name, g) :: grouped
          ∧ key = group_key group_name
          ∧ (min_periods self <= Z.of_nat (length group_df))%Z
          ∧ _analyze_series self (values_of group_df) (dates_of group_df)
            = Ok (Some r)) as Hrest.
    { intros init' Hrun Hlook Hinit.
      destruct (IH init' Hrun Hlook) as [?|(k' & g' & Hin & ?)]; [by apply Hinit|].
      right. exists k', g'. split; [by right|done]. }
    destruct (Z.of_nat (length g) <? min_periods self)%Z eqn:Hlen.
    { intros Hrun Hlook. apply (Hrest init Hrun Hlook). by left. }
    apply Z.ltb_ge in Hlen.
    destruct (_analyze_series self (values_of g) (dates_of g))
      as [[result|]|] eqn:Han; [| |done].
    + intros Hrun Hlook. apply (Hrest _ Hrun Hlook).
      rewrite lookup_insert. case_decide as Hkey; [|by left].
      intros [= ->]. right. exists name, g. split; [left|done].
    + intros Hrun Hlook. apply (Hrest init Hrun Hlook). by left.
Qed.

Lemma trends_of_groups_small (self : TrendDetector)
    (grouped : list (list string * DataFrame)) (init : gmap string TrendResult) :
  (∀ group_name group_df, (group_name, group_df) ∈ grouped →
     (Z.of_nat (length group_df) < min_periods self)%Z) →
  trends_of_groups self grouped init = Ok init.
Proof.
  induction grouped as [|[name g] grouped IH]; intros Hsmall; simpl; [done|].
  rewrite (proj2 (Z.ltb_lt _ _)) by (apply (Hsmall name); left).
  apply IH. intros k' g' Hin. apply (Hsmall k'). by right.
Qed.

End detect_trends_facts.

Section detect_trends_claims.
Import trend_detector.
Local Open Scope R_scope.

Lemma sort_values_length (group_cols : list string) (df : DataFrame) :
  length (sort_values group_cols df) = length df.
Proof. unfold sort_values. by rewrite sorted_perm. Qed.

Lemma set_date_length (df : DataFrame) : length (set_date df) = length df.
Proof. unfold set_date. by rewrite length_map. Qed.

(** C8.  A table that is empty or has fewer than [min_periods] rows gives
    the empty mapping, and no exception; with grouping, every entry of
    the result is the analysis of a group with at least [min_periods]
    rows, and when every group has fewer the result is empty. *)
Theorem detect_trends_insufficient_data (self : TrendDetector) (df : DataFrame)
    (group_cols : list string) :
  (df = [] ∨ (Z.of_nat (length df) < min_periods self)%Z →
   detect_trends self df group_cols = Ok ∅)
  ∧ (group_cols ≠ [] →
     ∀ results key r,
       detect_trends self df group_cols = Ok results →
       results !! key = Some r →
       ∃ group_name group_df,
         (group_name, group_df) ∈ groupby (sort_values group_cols (set_date df))
         ∧ key = group_key group_name
         ∧ (min_periods self <= Z.of_nat (length group_df))%Z
         ∧ _analyze_series self (values_of group_df) (dates_of group_df)
           = Ok (Some r))
  ∧ (group_cols ≠ [] →
     (∀ group_name group_df,
        (group_name, group_df) ∈ groupby (sort_values group_cols (set_date df)) →
        (Z.of_nat (length group_df) < min_periods self)%Z) →
     detect_trends self df group_cols = Ok ∅).
Proof.
  split_and!.
  - intros Hshort. unfold detect_trends.
    destruct Hshort as [->|Hshort]; [done|].
    by rewrite (proj2 (Z.ltb_lt _ _) Hshort), orb_true_r.
  - intros Hcols results key r. unfold detect_trends.
    destruct (_ || _); [by intros [= <-]|].
    destruct group_cols as [|col cols]; [done|].
    intros Hrun Hlook.
    by destruct (trends_of_groups_lookup _ _ _ _ _ _ Hrun Hlook) as [?|?].
  - intros Hcols Hsmall. unfold detect_trends.
    destruct (_ || _); [done|].
    destruct group_cols as [|col cols]; [done|].
    by apply trends_of_groups_small.
Qed.

Lemma detect_trends_insufficient_data_witness :
  (flat_table = [] ∨ (Z.of_nat (length flat_table) < 5)%Z)
  ∧ detect_trends (mkTrendDetector 5 (1 / 10)) flat_table ["demographic"] = Ok ∅.
Proof.
  assert (flat_table = []
          ∨ (Z.of_nat (length flat_table)
             < min_periods (mkTrendDetector 5 (1 / 10)))%Z) as Hshort
    by (right; simpl; lia).
  split; [exact Hshort|].
  exact (proj1 (detect_trends_insufficient_data (mkTrendDetector 5 (1 / 10))
                  flat_table ["demographic"]) Hshort).
Defined.
End detect_trends_claims.

(** ** trend_detector.py: [detect_shocks] *)

Section detect_shocks_facts.
Import trend_detector.
Local Open Scope R_scope.

Lemma calculate_zscores_length (g : DataFrame) :
  length (calculate_zscores g) = length g.
Proof.
  unfold calculate_zscores, values_of.
  destruct (np_std _) as [|std]; [|destruct (Reqb std 0)];
    by rewrite !length_map.
Qed.

Lemma array_cell_nan (g : DataFrame) : array_cell (calculate_zscores g) = NaN.
Proof.
  destruct g as [|r [|r' g]]; [done|done|].
  pose proof (calculate_zscores_length (r :: r' :: g)) as Hlen.
  destruct (calculate_zscores (r :: r' :: g)) as [|z [|z' zs]]; done.
Qed.

Lemma grouped_column_nan (df : DataFrame) (col : string) (cols : list string) :
  Forall (λ z, z = NaN) (zscore_column df (col :: cols)).
Proof.
  unfold zscore_column, grouped_zscores. rewrite map_map.
  apply Forall_forall. intros z Hz.
  apply list_elem_of_In, in_map_iff in Hz as ([k g] & <- & _).
  apply array_cell_nan.
Qed.

Lemma set_z_score_rows (df dfz : DataFrame) (zs : list npfloat) :
  set_z_score df zs = Ok dfz →
  length zs = length df
  ∧ dfz = zip_with (λ r z, mkRow (group r) (date r) (value r) (Some z)
                              (shock_magnitude r) (shock_direction r)) df zs.
Proof.
  unfold set_z_score. destruct (length zs =? length df)%nat eqn:Hlen; [|done].
  apply Nat.eqb_eq in Hlen. by intros [= <-].
Qed.

(** The z-score of a row of the table with its new column: an entry of
    the column. *)
Lemma set_z_score_z_of (df dfz : DataFrame) (zs : list npfloat) (r : Row) :
  set_z_score df zs = Ok dfz → r ∈ dfz → z_of r ∈ zs.
Proof.
  intros [_ ->]%set_z_score_rows. revert zs.
  induction df as [|r0 df IH]; intros [|z zs]; simpl;
    try by intros ?%elem_of_nil.
  rewrite !elem_of_cons. intros [->|Hin]; [by left|]. right. by apply IH.
Qed.

Lemma bool_filter_none {A} (f : A → bool) (l : list A) :
  (∀ x, x ∈ l → f x = false) → List.filter f l = [].
Proof.
  induction l as [|x l IH]; intros Hf; simpl; [done|].
  rewrite (Hf x) by left. apply IH. intros y Hy. apply Hf. by right.
Qed.

(** When no entry of the z-score column passes the mask, nothing is
    emitted. *)
Lemma detect_shocks_none (df out : DataFrame) (group_cols : list string)
    (z_threshold : R) :
  (∀ z, z ∈ zscore_column (set_date df) group_cols →
        np_ge (np_abs z) z_threshold = false) →
  detect_shocks df group_cols z_threshold = Ok out → out = [].
Proof.
  intros Hcol. unfold detect_shocks.
  destruct (bool_decide (df = [])); [by intros [= <-]|].
  destruct (set_z_score _ _) as [dfz|] eqn:Hset; [|done].
  intros [= <-]. rewrite bool_filter_none; [done|].
  intros r Hr. unfold shock_mask. apply Hcol. by eapply set_z_score_z_of.
Qed.

(** With grouping nothing is ever emitted: when the assignment of the
    column succeeds its cells hold NaN. *)
Lemma detect_shocks_grouped (df out : DataFrame) (col : string)
    (cols : list string) (z_threshold : R) :
  detect_shocks df (col :: cols) z_threshold = Ok out → out = [].
Proof.
  apply detect_shocks_none. intros z Hz.
  pose proof (grouped_column_nan (set_date df) col cols) as Hnan.
  rewrite Forall_forall in Hnan. by rewrite (Hnan z Hz).
Qed.

(** With grouping the assignment of the column raises unless there are as
    many groups as rows. *)
Lemma detect_shocks_grouped_raises (df : DataFrame) (col : string)
    (cols : list string) (z_threshold : R) :
  df ≠ [] →
  length (groupby (set_date df)) ≠ length df →
  detect_shocks df (col :: cols) z_threshold = Raise ValueError.
Proof.
  intros Hne Hlen. unfold detect_shocks.
  rewrite bool_decide_eq_false_2 by done.
  unfold set_z_score, zscore_column, grouped_zscores.
  rewrite !length_map, set_date_length.
  by rewrite (proj2 (Nat.eqb_neq _ _)).
Qed.
Lemma annotate_rows (df : DataFrame) :
  set_shock_direction (set_shock_magnitude df) = map annotate df.
Proof.
  unfold set_shock_direction, set_shock_magnitude. rewrite map_map.
  apply map_ext. by intros [].
Qed.

Lemma set_z_score_some (df dfz : DataFrame) (zs : list npfloat) (r : Row) :
  set_z_score df zs = Ok dfz → r ∈ dfz → z_score r = Some (z_of r).
Proof.
  intros [_ ->]%set_z_score_rows. revert zs.
  induction df as [|r0 df IH]; intros [|z zs]; simpl;
    try by intros ?%elem_of_nil.
  rewrite !elem_of_cons. intros [->|Hin]; [done|]. by apply (IH zs).
Qed.

Lemma detect_shocks_ungrouped (df : DataFrame) (z_threshold : R) :
  df ≠ [] →
  ∃ dfz,
    set_z_score (set_date df) (calculate_zscores (set_date df)) = Ok dfz
    ∧ detect_shocks df [] z_threshold
      = Ok (sort_by_z_score (map annotate (List.filter (shock_mask z_threshold) dfz))).
Proof.
  intros Hne. unfold detect_shocks. rewrite bool_decide_eq_false_2 by done.
  unfold zscore_column, set_z_score.
  rewrite calculate_zscores_length, Nat.eqb_refl.
  eexists. split; [done|]. by rewrite annotate_rows.
Qed.

Lemma z_before_total (a b : npfloat) : z_before a b = false → z_before b a = true.
Proof.
  destruct a as [|x], b as [|y]; simpl; try done.
  rewrite Rleb_gt, Rleb_le. lra.
Qed.

Lemma z_before_trans (a b c : npfloat) :
  z_before a b = true → z_before b c = true → z_before a c = true.
Proof.
  destruct a as [|x], b as [|y], c as [|z]; simpl; try done.
  rewrite !Rleb_le. lra.
Qed.

Lemma sort_by_z_score_sorted (df : DataFrame) :
  StronglySorted (λ r1 r2, z_before (z_of r1) (z_of r2) = true) (sort_by_z_score df).
Proof.
  unfold sort_by_z_score. apply sorted_strongly.
  - intros x y. apply z_before_total.
  - intros x y z. apply z_before_trans.
Qed.

Lemma StronglySorted_impl_elem {A} (R1 R2 : A → A → Prop) (l : list A) :
  (∀ a b, a ∈ l → b ∈ l → R1 a b → R2 a b) →
  StronglySorted R1 l → StronglySorted R2 l.
Proof.
  intros HR Hl. induction Hl as [|x l Hl IH Hx]; constructor.
  - apply IH. intros a b Ha Hb. apply HR; by right.
  - rewrite Forall_forall in Hx |- *. intros y Hy.
    apply HR; [left| |by apply Hx].
    right. first [exact Hy | by apply list_elem_of_In].
Qed.

Lemma ungrouped_shocks (df : DataFrame) (z_threshold : R) :
  df ≠ [] →
  ∃ dfz out,
    set_z_score (set_date df) (calculate_zscores (set_date df)) = Ok dfz
    ∧ detect_shocks df [] z_threshold = Ok out
    ∧ out ≡ₚ map annotate (List.filter (shock_mask z_threshold) dfz)
    ∧ (∀ r, r ∈ out →
         ∃ z, z_score r = Some (Fin z)
              ∧ z_threshold <= Rabs z
              ∧ shock_magnitude r = Some (Fin (Rabs z))
              ∧ shock_direction r
                = Some (if Rltb 0 z then "positive" else "negative"))
    ∧ StronglySorted z_descending out.
Proof.
  intros Hne. destruct (detect_shocks_ungrouped df z_threshold Hne)
    as (dfz & Hset & Hrun).
  exists dfz, (sort_by_z_score (map annotate (List.filter (shock_mask z_threshold) dfz))).
  assert (∀ r, r ∈ sort_by_z_score
                     (map annotate (List.filter (shock_mask z_threshold) dfz)) →
            ∃ z, z_score r = Some (Fin z)
                 ∧ z_threshold <= Rabs z
                 ∧ shock_magnitude r = Some (Fin (Rabs z))
                 ∧ shock_direction r
                   = Some (if Rltb 0 z then "positive" else "negative")) as Hrows.
  { intros r. unfold sort_by_z_score. rewrite elem_of_sorted.
    intros (r0 & <- & [Hr0 Hmask]%list_elem_of_In%elem_of_bool_filter)%list_elem_of_In%in_map_iff.
    pose proof (set_z_score_some _ _ _ _ Hset Hr0) as Hz.
    unfold shock_mask in Hmask. destruct (z_of r0) as [|z] eqn:Hz0; [done|].
    exists z. simpl in Hmask. apply Rleb_le in Hmask.
    unfold annotate. simpl. rewrite Hz0. by split_and!. }
  split_and!; [done|done| |done|].
  - unfold sort_by_z_score. apply sorted_perm.
  - eapply StronglySorted_impl_elem; [|apply sort_by_z_score_sorted].
    intros a b (za & Ha & _)%Hrows (zb & Hb & _)%Hrows. unfold z_of.
    rewrite Ha, Hb. simpl. rewrite Rleb_le. intros Hle. by exists za, zb.
Qed.

Lemma sum_list_ones (l : list nat) :
  Forall (λ n, 1 ≤ n)%nat l → sum_list l = length l → Forall (λ n, n = 1%nat) l.
Proof.
  intros Hl. assert (∀ l : list nat, Forall (λ n, 1 ≤ n)%nat l → length l ≤ sum_list l)%nat
    as Hge.
  { clear. induction 1 as [|n l Hn _ IH]; simpl; lia. }
  induction Hl as [|n l Hn Hl IH]; simpl; [done|]. intros Hsum.
  pose proof (Hge l Hl). constructor; [lia|]. apply IH. lia.
Qed.

Lemma sum_list_indicator (ks : list (list string)) (k0 : list string) :
  NoDup ks → k0 ∈ ks →
  sum_list (map (λ k, if bool_decide (k0 = k) then 1 else 0)%nat ks) = 1%nat.
Proof.
  induction 1 as [|k ks Hk Hnd IH]; [by intros ?%elem_of_nil|].
  rewrite elem_of_cons. simpl. intros [->|Hin].
  - rewrite bool_decide_eq_true_2 by done.
    assert (sum_list (map (λ k0, if bool_decide (k = k0) then 1 else 0)%nat ks) = 0%nat)
      as ->; [|done].
    clear IH Hnd. induction ks as [|k' ks IH]; [done|]. simpl.
    apply not_elem_of_cons in Hk as [? ?].
    rewrite bool_decide_eq_false_2 by done. by apply IH.
  - rewrite bool_decide_eq_false_2 by (by intros ->). by apply IH.
Qed.

Lemma sum_list_map_plus {A} (a b : A → nat) (l : list A) :
  (sum_list (map a l) + sum_list (map b l))%nat
  = sum_list (map (λ x, a x + b x)%nat l).
Proof. induction l as [|x l IH]; simpl; lia. Qed.

(** The groups partition the rows. *)
Lemma group_sizes_sum (df : DataFrame) (ks : list (list string)) :
  NoDup ks → (∀ r, r ∈ df → group r ∈ ks) →
  sum_list (map (λ k, length (List.filter (λ r, bool_decide (group r = k)) df)) ks)
  = length df.
Proof.
  intros Hnd. induction df as [|r df IH]; intros Hks.
  - simpl. induction ks; [done|]. simpl. apply IHks. by inversion Hnd. by intros ? ?%elem_of_nil.
  - change (length (r :: df)) with (1 + length df)%nat.
    rewrite <- IH by (intros r' Hr'; apply Hks; by right).
    rewrite <- (sum_list_indicator ks (group r) Hnd) by (apply Hks; left).
    rewrite sum_list_map_plus. f_equal. apply map_ext. intros k. simpl.
    by destruct (bool_decide (group r = k)).
Qed.

(** When there are as many groups as rows, every group has one row: the
    only arrays that reach a cell have one element. *)
Lemma grouped_arrays_single (df : DataFrame) (k : list string) (g : DataFrame) :
  length (groupby df) = length df → (k, g) ∈ groupby df → length g = 1%nat.
Proof.
  unfold groupby. set (ks := sorted _ (remove_dups (map group df))).
  rewrite length_map. intros Hlen Hin.
  assert (NoDup ks) as Hnd.
  { unfold ks. rewrite sorted_perm. apply NoDup_remove_dups. }
  assert (∀ r, r ∈ df → group r ∈ ks) as Hks.
  { intros r Hr. unfold ks. rewrite elem_of_sorted, elem_of_remove_dups.
    apply list_elem_of_In, in_map, list_elem_of_In, Hr. }
  pose proof (group_sizes_sum df ks Hnd Hks) as Hsum. rewrite <- Hlen in Hsum.
  rewrite <- (length_map (λ k, length (List.filter (λ r, bool_decide (group r = k)) df)) ks)
    in Hsum.
  apply sum_list_ones in Hsum.
  - apply list_elem_of_In, in_map_iff in Hin as (k' & [= -> <-] & Hk').
    rewrite Forall_forall in Hsum. apply Hsum.
    first [ apply in_map_iff | apply list_elem_of_In, in_map_iff ]. by exists k.
  - apply Forall_forall. intros n Hn.
    assert (In n (map (λ k, length (List.filter (λ r, bool_decide (group r = k)) df)) ks))
      as (k' & <- & Hk')%in_map_iff by first [exact Hn | by apply list_elem_of_In].
    apply list_elem_of_In in Hk'. unfold ks in Hk'.
    rewrite elem_of_sorted, elem_of_remove_dups in Hk'.
    apply list_elem_of_In, in_map_iff in Hk' as (r & <- & Hr).
    assert (r ∈ List.filter (λ r', bool_decide (group r' = group r)) df) as Hmem.
    { apply elem_of_bool_filter. split; [by apply list_elem_of_In|].
      by apply bool_decide_eq_true_2. }
    destruct (List.filter _ df); [by apply elem_of_nil in Hmem|simpl; lia].
Qed.
End detect_shocks_facts.

Section detect_shocks_claims.
Import trend_detector.
Local Open Scope R_scope.

Lemma step_table_mean : np_mean [0; 3; 6] = 3.
Proof. unfold np_mean, np_sum. simpl. lra. Qed.

Lemma step_table_std : np_std [0; 3; 6] = Fin 3.
Proof.
  unfold np_std. simpl length. simpl Nat.leb. cbv iota. rewrite step_table_mean.
  f_equal. apply sqrt_lem_1; [|lra|]; unfold np_sum; simpl; lra.
Qed.

Lemma step_table_zscores :
  calculate_zscores (set_date step_table) = [Fin (-1); Fin 0; Fin 1].
Proof.
  unfold calculate_zscores.
  change (values_of (set_date step_table)) with [0; 3; 6].
  rewrite step_table_std, step_table_mean, (proj2 (Reqb_neq 3 0)) by lra.
  simpl. repeat f_equal; lra.
Qed.

(** C5 does not hold of the grouped call.  The observations 0.0, 3.0, 6.0
    of one group have the z-scores -1, 0 and 1.  Without grouping the two
    rows with |z| >= 1 are emitted, the positive one first, as C5 says
    ([ungrouped_shocks] shows it of every table); with the same table
    grouped by its one group the assignment of the z-score column raises
    ValueError (one array for one group, three rows). *)
Theorem grouped_shocks_raise :
  detect_shocks step_table ["demographic"] 1 = Raise ValueError
  ∧ detect_shocks step_table [] 1
    = Ok [ mkRow ["A"] (Timestamp 3) 6 (Some (Fin 1)) (Some (Fin 1))
             (Some "positive");
           mkRow ["A"] (Timestamp 1) 0 (Some (Fin (-1))) (Some (Fin 1))
             (Some "negative") ].
Proof.
  split.
  - apply detect_shocks_grouped_raises; [done|].
    unfold groupby. rewrite length_map, sorted_perm. by vm_compute.
  - unfold detect_shocks. rewrite bool_decide_eq_false_2 by done.
    unfold zscore_column. rewrite step_table_zscores. simpl.
    unfold shock_mask, z_of. simpl.
    assert (Rabs (-1) = 1) as Habs by (rewrite Rabs_left; lra).
    rewrite Habs, Rabs_R0, Rabs_R1.
    rewrite (proj2 (Rleb_le 1 1)), (proj2 (Rleb_gt 1 0)) by lra.
    unfold set_shock_magnitude, set_shock_direction, sort_by_z_score, z_of. simpl.
    rewrite Habs, Rabs_R1.
    rewrite (proj2 (Rltb_ge 0 (-1))), (proj2 (Rltb_lt 0 1)),
      (proj2 (Rleb_gt 1 (-1))) by lra.
    reflexivity.
Qed.
End detect_shocks_claims.

(** ** trend_detector.py: the table objects *)

Section heap_facts.
Import trend_detector.
Local Open Scope R_scope.

Lemma fresh_ne (h : gmap positive DataFrame) (l : positive) (x : DataFrame) :
  h !! l = Some x → fresh (dom h) ≠ l.
Proof.
  intros Hl <-. apply (is_fresh (dom h)). apply elem_of_dom. by eexists.
Qed.

(** Allocation and the changes of a new object keep what the heap held. *)
Lemma lookup_insert_fresh (h : gmap positive DataFrame) (l : positive)
    (x y : DataFrame) :
  h !! l = Some x → <[fresh (dom h) := y]> h !! l = Some x.
Proof. intros Hl. rewrite lookup_insert_ne; [done|]. by eapply fresh_ne. Qed.

Lemma fresh_lookup_None (h h' : gmap positive DataFrame) :
  (∀ l x, h !! l = Some x → h' !! l = Some x) → h !! fresh (dom h') = None.
Proof.
  intros Hsub. destruct (h !! fresh (dom h')) as [x|] eqn:Hl; [|done].
  by destruct (fresh_ne h' _ x (Hsub _ _ Hl)).
Qed.

Lemma bind_run {A B} (m : M A) (k : A → M B) (h h1 : gmap positive DataFrame) (a : A) :
  m h = (Ok a, h1) → bind m k h = k a h1.
Proof. unfold bind. by intros ->. Qed.

Lemma bind_raise {A B} (m : M A) (k : A → M B) (h h1 : gmap positive DataFrame) (e : exn) :
  m h = (Raise e, h1) → bind m k h = (Raise e, h1).
Proof. unfold bind. by intros ->. Qed.

Lemma rows_of_run (h : gmap positive DataFrame) (df : positive) (rows : DataFrame) :
  h !! df = Some rows → rows_of df h = (Ok rows, h).
Proof. unfold rows_of. by intros ->. Qed.

Lemma copy_run (h : gmap positive DataFrame) (df : positive) (rows : DataFrame) :
  h !! df = Some rows →
  copy df h = (Ok (fresh (dom h)), <[fresh (dom h) := rows]> h).
Proof. intros Hdf. unfold copy. by rewrite (bind_run _ _ _ _ _ (rows_of_run _ _ _ Hdf)). Qed.

(** A column assignment on a table object: its rows are read and the
    object is changed in place. *)
Lemma assign_column_run {B} (f : DataFrame → DataFrame) (k : unit → M B)
    (h : gmap positive DataFrame) (df : positive) (rows : DataFrame) :
  h !! df = Some rows →
  bind (rows_of df) (λ rows, bind (assign df (f rows)) k) h
  = k tt (<[df := f rows]> h).
Proof.
  intros Hdf. by rewrite (bind_run _ _ _ _ _ (rows_of_run _ _ _ Hdf)).
Qed.

Lemma detect_trends_on_run (self : TrendDetector) (h : gmap positive DataFrame)
    (df : positive) (rows : DataFrame) (group_cols : list string) :
  h !! df = Some rows →
  ∃ h', detect_trends_on self df group_cols h = (detect_trends self rows group_cols, h')
        ∧ ∀ l x, h !! l = Some x → h' !! l = Some x.
Proof.
  intros Hdf. unfold detect_trends_on, detect_trends.
  rewrite (bind_run _ _ _ _ _ (rows_of_run _ _ _ Hdf)).
  destruct (_ || _); [by exists h|].
  rewrite (bind_run _ _ _ _ _ (copy_run _ _ _ Hdf)).
  set (l1 := fresh (dom h)).
  rewrite (assign_column_run set_date _ _ l1 rows) by apply lookup_insert_eq.
  rewrite insert_insert_eq.
  erewrite bind_run by (apply rows_of_run, lookup_insert_eq).
  erewrite bind_run by reflexivity.
  set (l2 := fresh _).
  erewrite bind_run by (apply rows_of_run, lookup_insert_eq).
  assert (∀ l x, h !! l = Some x →
            <[l2 := sort_values group_cols (set_date rows)]>
              (<[l1 := set_date rows]> h) !! l = Some x) as Hframe.
  { intros l x Hl. unfold l2. apply lookup_insert_fresh.
    rewrite lookup_insert_ne; [done|]. by eapply fresh_ne. }
  destruct group_cols as [|col cols].
  - unfold lift at 1, bind.
    destruct (_analyze_series _ _ _) as [[result|]|]; by eexists.
  - by eexists.
Qed.

Lemma detect_shocks_on_run (h : gmap positive DataFrame) (df : positive)
    (rows : DataFrame) (group_cols : list string) (z_threshold : R) :
  h !! df = Some rows →
  ∃ h',
    (∀ l x, h !! l = Some x → h' !! l = Some x)
    ∧ match detect_shocks rows group_cols z_threshold with
      | Ok out =>
          ∃ shock_events,
            detect_shocks_on df group_cols z_threshold h = (Ok shock_events, h')
            ∧ h' !! shock_events = Some out
            ∧ h !! shock_events = None
      | Raise e => detect_shocks_on df group_cols z_threshold h = (Raise e, h')
      end.
Proof.
  intros Hdf. unfold detect_shocks_on, detect_shocks.
  rewrite (bind_run _ _ _ _ _ (rows_of_run _ _ _ Hdf)).
  destruct (bool_decide (rows = [])).
  { eexists. split; [|eexists; split_and!; [reflexivity|apply lookup_insert_eq|]].
    - intros l x Hl. by apply lookup_insert_fresh.
    - apply not_elem_of_dom, is_fresh. }
  rewrite (bind_run _ _ _ _ _ (copy_run _ _ _ Hdf)).
  set (l1 := fresh (dom h)).
  assert (h !! l1 = None) as Hl1 by apply not_elem_of_dom, is_fresh.
  assert (∀ l x y, h !! l = Some x → <[l1 := y]> h !! l = Some x) as Hframe1.
  { intros l x y Hl. by apply lookup_insert_fresh. }
  rewrite (assign_column_run set_date _ _ l1 rows) by apply lookup_insert_eq.
  rewrite insert_insert_eq.
  erewrite bind_run by (apply rows_of_run, lookup_insert_eq).
  destruct (set_z_score _ _) as [with_z|e].
  2: { erewrite bind_raise by reflexivity. eexists. split; [|reflexivity]. eauto. }
  erewrite bind_run by reflexivity.
  erewrite bind_run by reflexivity. unfold assign at 1. cbn beta.
  rewrite insert_insert_eq.
  erewrite bind_run by (apply rows_of_run, lookup_insert_eq).
  erewrite bind_run by reflexivity.
  set (h1 := <[l1 := with_z]> h).
  set (l2 := fresh (dom h1)).
  rewrite (assign_column_run set_shock_magnitude _ _ l2 _) by apply lookup_insert_eq.
  rewrite insert_insert_eq.
  rewrite (assign_column_run set_shock_direction _ _ l2 _) by apply lookup_insert_eq.
  rewrite insert_insert_eq.
  erewrite bind_run by (apply rows_of_run, lookup_insert_eq).
  eexists. split; [|eexists; split_and!; [reflexivity|apply lookup_insert_eq|]].
  - intros l x Hl. apply lookup_insert_fresh. unfold l2. apply lookup_insert_fresh.
    unfold h1. by apply Hframe1.
  - apply fresh_lookup_None. intros l x Hl. unfold l2.
    apply lookup_insert_fresh. unfold h1. by apply Hframe1.
Qed.
End heap_facts.

Section frame_claims.
Import trend_detector.
Local Open Scope R_scope.

(** C9.  [detect_trends] and [detect_shocks] leave the caller's table as
    it was: after the call the table object (and every other object the
    heap held) has the rows it had before, in the same order and with the
    same columns; the date conversion and the z-score and shock columns
    go to objects that the call creates. *)
Theorem detectors_leave_input_unchanged (self : TrendDetector)
    (h : gmap positive DataFrame) (df : positive) (rows : DataFrame)
    (group_cols : list string) (z_threshold : R) :
  h !! df = Some rows →
  (detect_trends_on self df group_cols h).2 !! df = Some rows
  ∧ (detect_shocks_on df group_cols z_threshold h).2 !! df = Some rows
  ∧ (∀ l x, h !! l = Some x →
       (detect_trends_on self df group_cols h).2 !! l = Some x
       ∧ (detect_shocks_on df group_cols z_threshold h).2 !! l = Some x).
Proof.
  intros Hdf.
  destruct (detect_trends_on_run self h df rows group_cols Hdf)
    as (ht & Htrends & Hframe_t).
  destruct (detect_shocks_on_run h df rows group_cols z_threshold Hdf)
    as (hs & Hframe_s & Hshocks).
  assert ((detect_shocks_on df group_cols z_threshold h).2 = hs) as Hs.
  { destruct (detect_shocks rows group_cols z_threshold).
    - by destruct Hshocks as (l & -> & _).
    - by rewrite Hshocks. }
  rewrite Htrends, Hs. simpl. split_and!; [by apply Hframe_t|by apply Hframe_s|].
  intros l x Hl. split; [by apply Hframe_t|by apply Hframe_s].
Qed.

Lemma detectors_leave_input_unchanged_witness :
  ({[1%positive := step_table]} : gmap positive DataFrame) !! 1%positive
  = Some step_table
  ∧ (detect_shocks_on 1%positive [] 1 {[1%positive := step_table]}).2 !! 1%positive
    = Some step_table.
Proof.
  assert (({[1%positive := step_table]} : gmap positive DataFrame) !! 1%positive
          = Some step_table) as Hdf by apply lookup_singleton_eq.
  split; [exact Hdf|].
  exact (proj1 (proj2 (detectors_leave_input_unchanged (mkTrendDetector 3 (1 / 10))
                         {[1%positive := step_table]} 1%positive step_table [] 1 Hdf))).
Defined.
End frame_claims.

(** * Further properties *)

(** ** skill_matcher.py: [recommend_training] *)

Section recommend_training_facts.
Import skill_matcher.
Local Open Scope Q_scope.

Lemma Qgeb_total (a b : Q) : Qgeb a b = false → Qgeb b a = true.
Proof.
  unfold Qgeb. rewrite <- not_true_iff_false, !Qle_bool_iff. intros H.
  apply Qlt_le_weak. by apply Qnot_le_lt.
Qed.

Lemma Qgeb_trans (a b c : Q) : Qgeb a b = true → Qgeb b c = true → Qgeb a c = true.
Proof. unfold Qgeb. rewrite !Qle_bool_iff. intros ? ?. by eapply Qle_trans. Qed.

Lemma elem_of_course_step (missing : gset string) (course : Course)
    (r : Recommendation) :
  r ∈ course_step missing course →
  ∃ skills,
    c_skills_covered course = Some skills
    ∧ rec_skills_covered r = list_to_set skills ∩ missing
    ∧ rec_skills_covered r ≠ ∅
    ∧ relevance_score r
      = inject_Z (len (rec_skills_covered r)) / inject_Z (len missing)
    ∧ missing_skills_covered r = len (rec_skills_covered r)
    ∧ total_missing_skills r = len missing
    ∧ rec_course_id r = c_id course.
Proof.
  unfold course_step. destruct (c_skills_covered course) as [skills|];
    [|by intros ?%elem_of_nil].
  destruct (decide (_ = ∅)) as [|Hne]; [by intros ?%elem_of_nil|].
  intros ->%list_elem_of_singleton. by exists skills.
Qed.

Lemma course_step_length (missing : gset string) (course : Course) :
  length (course_step missing course)
  = if covers_missing missing course then 1%nat else 0%nat.
Proof.
  unfold course_step, covers_missing.
  destruct (c_skills_covered course) as [skills|]; [|done].
  destruct (decide (_ = ∅)) as [Heq|Hne].
  - by rewrite bool_decide_eq_false_2 by (by intros ?).
  - by rewrite bool_decide_eq_true_2.
Qed.

Lemma concat_steps_length {A B} (f : A → list B) (g : A → bool) (l : list A) :
  (∀ x, length (f x) = if g x then 1%nat else 0%nat) →
  length (concat (map f l)) = length (List.filter g l).
Proof.
  intros Hf. induction l as [|x l IH]; simpl; [done|].
  rewrite length_app, Hf, IH. by destruct (g x).
Qed.
End recommend_training_facts.

Section recommend_training_properties.
Import skill_matcher.
Local Open Scope Q_scope.

(** X1.  [recommend_training] recommends nothing when the source or the
    target job is unknown, and when the source job already has every skill
    of the target. *)
Theorem recommend_training_nothing (c : catalog) (source_job_id target_job_id : string)
    (available_courses : list Course) :
  catalog_get c source_job_id = None
  ∨ catalog_get c target_job_id = None
  ∨ (∃ source target,
       catalog_get c source_job_id = Some source
       ∧ catalog_get c target_job_id = Some target
       ∧ get_skill_ids target ⊆ get_skill_ids source) →
  recommend_training c source_job_id target_job_id available_courses = [].
Proof.
  unfold recommend_training.
  intros [->|[Ht|(source & target & -> & -> & Hsub)]]; [done| |].
  - rewrite Ht. by destruct (catalog_get c source_job_id).
  - rewrite decide_True; [done|]. apply set_eq. intros x.
    rewrite elem_of_difference, elem_of_empty. split; [|done].
    intros [Hx Hnx]. apply Hnx, Hsub, Hx.
Qed.

Lemma recommend_training_nothing_witness :
  (catalog_get scenario "A" = None
   ∨ catalog_get scenario "A" = None
   ∨ ∃ source target,
       catalog_get scenario "A" = Some source
       ∧ catalog_get scenario "A" = Some target
       ∧ get_skill_ids target ⊆ get_skill_ids source)
  ∧ recommend_training scenario "A" "A" [excel_course; python_course] = [].
Proof.
  assert (catalog_get scenario "A" = None
          ∨ catalog_get scenario "A" = None
          ∨ ∃ source target,
              catalog_get scenario "A" = Some source
              ∧ catalog_get scenario "A" = Some target
              ∧ get_skill_ids target ⊆ get_skill_ids source) as H.
  { right. right. exists job_A, job_A. split_and!; [reflexivity..|done]. }
  split; [exact H|].
  exact (recommend_training_nothing scenario "A" "A" [excel_course; python_course] H).
Defined.



(** X3.  The result of [recommend_training] is in descending order of
    relevance, and for known jobs with a skill gap it has one entry for
    each course that lists a missing skill: a course without
    [skills_covered], or one that covers no missing skill, is left out. *)
Theorem recommend_training_sorted (c : catalog) (source_job_id target_job_id : string)
    (available_courses : list Course) :
  StronglySorted relevance_ge
    (recommend_training c source_job_id target_job_id available_courses)
  ∧ ∀ source target,
      catalog_get c source_job_id = Some source →
      catalog_get c target_job_id = Some target →
      get_skill_ids target ∖ get_skill_ids source ≠ ∅ →
      length (recommend_training c source_job_id target_job_id available_courses)
      = length (List.filter
                  (covers_missing (get_skill_ids target ∖ get_skill_ids source))
                  available_courses).
Proof.
  unfold recommend_training.
  destruct (catalog_get c source_job_id) as [source|]; [|by split; [constructor|]].
  destruct (catalog_get c target_job_id) as [target|]; [|by split; [constructor|]].
  destruct (decide (_ = ∅)) as [Hnone|Hmissing].
  { split; [constructor|]. by intros ? ? [= <-] [= <-] ?. }
  split.
  - eapply StronglySorted_impl; [|apply sorted_strongly].
    + intros a b. unfold relevance_ge, Qgeb. by rewrite Qle_bool_iff.
    + intros x y. apply Qgeb_total.
    + intros x y z. apply Qgeb_trans.
  - intros ? ? [= <-] [= <-] _. rewrite sorted_perm.
    apply concat_steps_length, course_step_length.
Qed.

Lemma recommend_training_sorted_witness :
  catalog_get scenario "A" = Some job_A
  ∧ catalog_get scenario "B" = Some job_B
  ∧ get_skill_ids job_B ∖ get_skill_ids job_A ≠ ∅
  ∧ length (recommend_training scenario "A" "B"
              [python_course; excel_course; untagged_course])
    = length (List.filter (covers_missing (get_skill_ids job_B ∖ get_skill_ids job_A))
                [python_course; excel_course; untagged_course]).
Proof.
  assert (catalog_get scenario "A" = Some job_A) as HA by reflexivity.
  assert (catalog_get scenario "B" = Some job_B) as HB by reflexivity.
  assert (get_skill_ids job_B ∖ get_skill_ids job_A ≠ ∅) as Hgap by (by vm_compute).
  split_and!; [done..|].
  exact (proj2 (recommend_training_sorted scenario "A" "B"
                  [python_course; excel_course; untagged_course]) job_A job_B HA HB Hgap).
Defined.
End recommend_training_properties.

(** ** skill_matcher.py: [find_similar_jobs] *)

Section find_similar_jobs_facts.
Import skill_matcher.
Local Open Scope Q_scope.

Lemma jaccard_comm (a b : gset string) : jaccard a b = jaccard b a.
Proof. unfold jaccard. by rewrite (comm_L (∪) a b), (comm_L (∩) a b). Qed.

Lemma jaccard_range (a b : gset string) : 0 <= jaccard a b <= 1.
Proof.
  unfold jaccard. destruct (0 <? len (a ∪ b))%Z eqn:Hpos; [|done].
  apply Z.ltb_lt in Hpos.
  assert (len (a ∩ b) <= len (a ∪ b))%Z as Hle.
  { unfold len. apply Nat2Z.inj_le, subseteq_size.
    etrans; [apply intersection_subseteq_l|apply union_subseteq_l]. }
  pose proof (len_nonneg (a ∩ b)) as Hnn.
  rewrite (Zlt_Qlt 0) in Hpos. rewrite (Zle_Qle 0) in Hnn. rewrite Zle_Qle in Hle.
  split.
  - apply Qle_shift_div_l; [done|]. by rewrite Qmult_0_l.
  - apply Qle_shift_div_r; [done|]. by rewrite Qmult_1_l.
Qed.

Lemma similar_step_value (src : string) (ss : gset string) (mo : Q)
    (k : string) (p : JobProfile) (j : string) (sim : Q) :
  (j, sim) ∈ similar_step src ss mo (k, p) →
  j = k ∧ sim = jaccard ss (get_skill_ids p) ∧ Qgeb sim mo = true.
Proof.
  simpl. destruct (decide (k = src)); [by intros ?%elem_of_nil|].
  destruct (decide (get_skill_ids p = ∅)); [by intros ?%elem_of_nil|].
  fold (jaccard ss (get_skill_ids p)).
  destruct (Qgeb _ _) eqn:Hge; [|by intros ?%elem_of_nil].
  intros [= -> ->]%list_elem_of_singleton. done.
Qed.

Lemma similar_step_intro (src : string) (ss : gset string) (mo : Q)
    (k : string) (p : JobProfile) :
  k ≠ src → get_skill_ids p ≠ ∅ →
  Qgeb (jaccard ss (get_skill_ids p)) mo = true →
  similar_step src ss mo (k, p) = [(k, jaccard ss (get_skill_ids p))].
Proof.
  intros Hk Hp Hge. simpl. rewrite decide_False, decide_False by done.
  fold (jaccard ss (get_skill_ids p)). by rewrite Hge.
Qed.

Lemma similar_step_length (src : string) (ss : gset string) (mo : Q)
    (entry : string * JobProfile) :
  (length (similar_step src ss mo entry) <= 1)%nat.
Proof.
  destruct entry as [k p]. simpl.
  destruct (decide (k = src)); [simpl; lia|].
  destruct (decide (get_skill_ids p = ∅)); [simpl; lia|].
  destruct (Qgeb _ _); simpl; lia.
Qed.

Lemma similar_step_keys (src : string) (ss : gset string) (mo : Q)
    (k : string) (p : JobProfile) :
  (similar_step src ss mo (k, p)).*1 = [] ∨ (similar_step src ss mo (k, p)).*1 = [k].
Proof.
  simpl. destruct (decide (k = src)); [by left|].
  destruct (decide (get_skill_ids p = ∅)); [by left|].
  destruct (Qgeb _ _); [by right|by left].
Qed.

Lemma similarities_length (src : string) (ss : gset string) (mo : Q) (c : catalog) :
  (length (concat (map (similar_step src ss mo) c)) <= length c)%nat.
Proof.
  induction c as [|entry c IH]; simpl; [done|].
  rewrite length_app. pose proof (similar_step_length src ss mo entry). lia.
Qed.

(** No job is listed twice. *)
Lemma similarities_NoDup (src : string) (ss : gset string) (mo : Q) (c : catalog) :
  catalog_wf c → NoDup (concat (map (similar_step src ss mo) c)).*1.
Proof.
  unfold catalog_wf. induction c as [|[k p] c IH]; [constructor|].
  rewrite fmap_cons, NoDup_cons. intros [Hk Hnd].
  change (concat (map (similar_step src ss mo) ((k, p) :: c)))
    with (similar_step src ss mo (k, p) ++ concat (map (similar_step src ss mo) c))%list.
  rewrite fmap_app. apply NoDup_app. split_and!.
  - destruct (similar_step_keys src ss mo k p) as [->| ->];
      [constructor|apply NoDup_singleton].
  - intros j Hj Hin.
    assert (j = k) as ->.
    { destruct (similar_step_keys src ss mo k p) as [Heq|Heq]; rewrite Heq in Hj;
        [by apply elem_of_nil in Hj|by apply list_elem_of_singleton in Hj]. }
    apply Hk. apply list_elem_of_fmap in Hin as ([j sim] & -> & Hin).
    apply elem_of_concat_map in Hin as ([k' p'] & Hkp & Hstep).
    apply similar_step_value in Hstep as (-> & _).
    apply list_elem_of_fmap. by exists (k', p').
  - by apply IH.
Qed.

Lemma catalog_get_Some_elem (c : catalog) (k : string) (p : JobProfile) :
  catalog_get c k = Some p → (k, p) ∈ c.
Proof.
  induction c as [|[k' p'] c IH]; simpl; [done|].
  destruct (decide (k' = k)) as [->|].
  - intros [= ->]. left.
  - intros ?. right. auto.
Qed.

Lemma catalog_get_elem (c : catalog) (k : string) (p : JobProfile) :
  catalog_wf c → (k, p) ∈ c → catalog_get c k = Some p.
Proof.
  intros Hwf Hin. destruct (catalog_get c k) as [p'|] eqn:Hget.
  - apply catalog_get_Some_elem in Hget.
    by rewrite (NoDup_fst_functional _ _ _ _ Hwf Hget Hin).
  - exfalso. clear Hwf. induction c as [|[k' p'] c IH]; [by apply elem_of_nil in Hin|].
    simpl in Hget. destruct (decide (k' = k)) as [->|Hne]; [done|].
    apply elem_of_cons in Hin as [[= -> ->]|Hin]; [done|]. by apply IH.
Qed.

Lemma slice_to_all {A} (n : Z) (l : list A) :
  (Z.of_nat (length l) <= n)%Z → slice_to n l = l.
Proof.
  intros Hn. unfold slice_to. rewrite (proj2 (Z.leb_le 0 n)) by lia.
  apply take_ge. lia.
Qed.

Lemma slice_to_length {A} (n : Z) (l : list A) :
  (0 <= n)%Z → (Z.of_nat (length (slice_to n l)) <= n)%Z.
Proof.
  intros Hn. unfold slice_to. rewrite (proj2 (Z.leb_le 0 n)) by lia.
  rewrite length_take. lia.
Qed.

Lemma slice_to_prefix {A} (n : Z) (l : list A) : ∃ k, (slice_to n l ++ k)%list = l.
Proof.
  unfold slice_to. destruct (0 <=? n)%Z; eexists; apply take_drop.
Qed.

Lemma StronglySorted_prefix {A} (R : A → A → Prop) (l1 l2 : list A) :
  StronglySorted R (l1 ++ l2) → StronglySorted R l1.
Proof.
  induction l1 as [|x l1 IH]; [constructor|].
  rewrite <- app_comm_cons. intros Hs. apply StronglySorted_inv in Hs as [Hs Hx].
  constructor; [by apply IH|]. by apply Forall_app in Hx as [? _].
Qed.
End find_similar_jobs_facts.

Section find_similar_jobs_properties.
Import skill_matcher.
Local Open Scope Q_scope.

(** X4.  The similarity is symmetric: when no job is cut off by [top_n],
    a job B that [find_similar_jobs] lists for A with similarity s has A
    listed for it with the same s, as long as A requires a skill (a job
    without skills is never a candidate). *)
Theorem jaccard_symmetric (c : catalog) (a b : string) (profile_a : JobProfile)
    (top_n : Z) (min_skill_overlap s : Q) :
  catalog_wf c →
  catalog_get c a = Some profile_a →
  get_skill_ids profile_a ≠ ∅ →
  (Z.of_nat (length c) <= top_n)%Z →
  (b, s) ∈ find_similar_jobs c a top_n min_skill_overlap →
  (a, s) ∈ find_similar_jobs c b top_n min_skill_overlap.
Proof.
  intros Hwf Ha Hskills Hn. unfold find_similar_jobs. rewrite Ha.
  rewrite slice_to_all
    by (rewrite sorted_perm; pose proof (similarities_length a
          (get_skill_ids profile_a) min_skill_overlap c); lia).
  rewrite elem_of_sorted. intros ([k profile_b] & Hin & Hstep)%elem_of_concat_map.
  pose proof (elem_of_similar_step _ _ _ _ _ _ _ Hstep) as (_ & Hne & _).
  apply similar_step_value in Hstep as (<- & -> & Hge).
  rewrite (catalog_get_elem c b profile_b Hwf Hin).
  rewrite slice_to_all
    by (rewrite sorted_perm; pose proof (similarities_length b
          (get_skill_ids profile_b) min_skill_overlap c); lia).
  rewrite elem_of_sorted. apply elem_of_concat_map.
  exists (a, profile_a). split; [by apply catalog_get_Some_elem|].
  rewrite jaccard_comm in Hge |- *.
  rewrite similar_step_intro by done. left.
Qed.

Lemma jaccard_symmetric_witness :
  catalog_wf scenario
  ∧ catalog_get scenario "A" = Some job_A
  ∧ get_skill_ids job_A ≠ ∅
  ∧ (Z.of_nat (length scenario) <= 5)%Z
  ∧ ("B", 1 # 3) ∈ find_similar_jobs scenario "A" 5 (3 # 10)
  ∧ ("A", 1 # 3) ∈ find_similar_jobs scenario "B" 5 (3 # 10).
Proof.
  assert (catalog_wf scenario) as Hwf by (unfold catalog_wf; compute_done).
  assert (catalog_get scenario "A" = Some job_A) as HA by reflexivity.
  assert (get_skill_ids job_A ≠ ∅) as Hskills by (by vm_compute).
  assert (Z.of_nat (length scenario) <= 5)%Z as Hn by (simpl; lia).
  assert (("B", 1 # 3) ∈ find_similar_jobs scenario "A" 5 (3 # 10)) as Hin.
  { assert (find_similar_jobs scenario "A" 5 (3 # 10) = [("B", 1 # 3)]) as ->
      by (by vm_compute).
    left. }
  split_and!; [done..|].
  exact (jaccard_symmetric scenario "A" "B" job_A 5 (3 # 10) (1 # 3)
           Hwf HA Hskills Hn Hin).
Defined.

(** X5.  What [find_similar_jobs] returns: nothing for an unknown source
    job; otherwise jobs of the catalogue other than the source, each at
    most once, each with its Jaccard index with the source, which is at
    least [min_skill_overlap] and lies in [0, 1]; in descending order of
    similarity; and no more than [top_n] of them when [top_n] is not
    negative. *)
Theorem find_similar_jobs_result (c : catalog) (source_job_id : string)
    (top_n : Z) (min_skill_overlap : Q) :
  let result := find_similar_jobs c source_job_id top_n min_skill_overlap in
  (catalog_get c source_job_id = None → result = [])
  ∧ (∀ job_id s, (job_id, s) ∈ result →
       job_id ≠ source_job_id
       ∧ (∃ source profile,
            catalog_get c source_job_id = Some source
            ∧ (job_id, profile) ∈ c
            ∧ s = jaccard (get_skill_ids source) (get_skill_ids profile))
       ∧ min_skill_overlap <= s
       ∧ 0 <= s <= 1)
  ∧ (catalog_wf c → NoDup result.*1)
  ∧ StronglySorted similarity_ge result
  ∧ ((0 <= top_n)%Z → (Z.of_nat (length result) <= top_n)%Z).
Proof.
  unfold find_similar_jobs.
  destruct (catalog_get c source_job_id) as [source|] eqn:Hsrc.
  2: { split_and!; [done|by intros ? ? ?%elem_of_nil|constructor|constructor|].
       simpl. lia. }
  set (similarities := concat (map _ c)).
  set (ordered := sorted _ similarities).
  assert (StronglySorted similarity_ge ordered) as Hsorted.
  { eapply StronglySorted_impl; [|apply sorted_strongly].
    - intros x y. unfold similarity_ge, Qgeb. by rewrite Qle_bool_iff.
    - intros x y. apply Qgeb_total.
    - intros x y z. apply Qgeb_trans. }
  destruct (slice_to_prefix top_n ordered) as (rest & Hprefix).
  split_and!.
  - done.
  - intros job_id s Hin%slice_to_subseteq. unfold ordered in Hin.
    rewrite elem_of_sorted in Hin.
    apply elem_of_concat_map in Hin as ([k profile] & Hkp & Hstep).
    pose proof (elem_of_similar_step _ _ _ _ _ _ _ Hstep) as (_ & Hne & _).
    apply similar_step_value in Hstep as (-> & -> & Hge).
    split_and!; [done| |by apply Qle_bool_iff|apply jaccard_range..].
    by exists source, profile.
  - intros Hwf. rewrite <- Hprefix in Hsorted.
    assert (NoDup ordered.*1) as Hnd.
    { unfold ordered. rewrite sorted_perm. by apply similarities_NoDup. }
    rewrite <- Hprefix, fmap_app in Hnd. by apply NoDup_app in Hnd as (? & _).
  - rewrite <- Hprefix in Hsorted. by apply StronglySorted_prefix in Hsorted.
  - apply slice_to_length.
Qed.

Lemma find_similar_jobs_result_witness :
  (0 <= 2)%Z
  ∧ (Z.of_nat (length (find_similar_jobs wide_scenario "A" 2 0)) <= 2)%Z.
Proof.
  assert (0 <= 2)%Z as Hn by lia.
  split; [exact Hn|].
  exact (proj2 (proj2 (proj2 (proj2 (find_similar_jobs_result wide_scenario "A" 2 0)))) Hn).
Defined.
End find_similar_jobs_properties.

(** ** skill_matcher.py: the skill graph *)

Section skill_graph_facts.
Import skill_matcher.
Local Open Scope Z_scope.

Lemma indicator_sum (P Q R : Prop) `{!Decision P, !Decision Q, !Decision R} :
  ¬ (P ∧ Q) → (R ↔ P ∨ Q) →
  (if bool_decide P then 1 else 0) + (if bool_decide Q then 1 else 0)
  = if bool_decide R then 1 else 0.
Proof.
  intros Hex HR. repeat case_bool_decide; try lia; exfalso; tauto.
Qed.

Lemma weight_lookup (g : SkillGraph) (u v : string) :
  graph_ok g → edges g !! (u, v) = if decide (weight g u v = 0) then None else Some (weight g u v).
Proof.
  intros [_ Hpos]. unfold weight. destruct (edges g !! (u, v)) as [w|] eqn:Hw; simpl.
  - destruct (Hpos u v w Hw) as [? _]. destruct (decide (w = 0)); [lia|done].
  - first [done | by case_decide].
Qed.

Lemma same_edges (g1 g2 : SkillGraph) :
  graph_ok g1 → graph_ok g2 →
  (∀ u v, weight g1 u v = weight g2 u v) → edges g1 = edges g2.
Proof.
  intros H1 H2 Hw. apply map_eq. intros [u v].
  by rewrite (weight_lookup g1 u v H1), (weight_lookup g2 u v H2), Hw.
Qed.

Lemma weight_set_weight (g : SkillGraph) (u v a b : string) (w : Z) :
  weight (set_weight g u v w) a b
  = if bool_decide ((a, b) = (u, v) ∨ (a, b) = (v, u)) then w else weight g a b.
Proof.
  unfold weight, set_weight. simpl.
  destruct (decide ((a, b) = (u, v))) as [->|Hne1].
  { rewrite lookup_insert_eq, bool_decide_eq_true_2; [done|by left]. }
  rewrite lookup_insert_ne by done.
  destruct (decide ((a, b) = (v, u))) as [->|Hne2].
  { rewrite lookup_insert_eq, bool_decide_eq_true_2; [done|by right]. }
  rewrite lookup_insert_ne by done.
  rewrite bool_decide_eq_false_2; [done|]. by intros [?|?].
Qed.

Lemma set_weight_ok (g : SkillGraph) (u v : string) (w : Z) :
  graph_ok g → u ≠ v → 0 < w → graph_ok (set_weight g u v w).
Proof.
  intros [Hsym Hpos] Huv Hw. split.
  - intros a b. unfold set_weight. simpl.
    destruct (decide ((a, b) = (u, v))) as [[= -> ->]|Hne1].
    { rewrite lookup_insert_eq, lookup_insert_ne by congruence.
      by rewrite lookup_insert_eq. }
    destruct (decide ((a, b) = (v, u))) as [[= -> ->]|Hne2].
    { rewrite lookup_insert_eq, lookup_insert_ne by congruence.
      by rewrite lookup_insert_eq. }
    rewrite !lookup_insert_ne by congruence. apply Hsym.
  - intros a b w'. unfold set_weight. simpl.
    destruct (decide ((u, v) = (a, b))) as [[= <- <-]|Hne1].
    { rewrite lookup_insert_eq. by intros [= <-]. }
    rewrite lookup_insert_ne by done.
    destruct (decide ((v, u) = (a, b))) as [[= <- <-]|Hne2].
    { rewrite lookup_insert_eq. by intros [= <-]. }
    rewrite lookup_insert_ne by done. apply Hpos.
Qed.

Lemma bump_edge_ok (g : SkillGraph) (u v : string) :
  graph_ok g → u ≠ v → graph_ok (bump_edge g u v).
Proof.
  intros Hok Huv. unfold bump_edge.
  destruct (edges g !! (u, v)) as [w|] eqn:Hw.
  - apply set_weight_ok; [done|done|]. destruct Hok as [_ Hpos].
    destruct (Hpos u v w Hw). lia.
  - by apply set_weight_ok.
Qed.

Lemma bump_edge_weight (g : SkillGraph) (u v a b : string) :
  weight (bump_edge g u v) a b
  = if bool_decide ((a, b) = (u, v) ∨ (a, b) = (v, u))
    then weight g u v + 1 else weight g a b.
Proof.
  unfold bump_edge. destruct (edges g !! (u, v)) as [w|] eqn:Hw;
    rewrite weight_set_weight; unfold weight; by rewrite Hw.
Qed.

Lemma bump_edge_nodes (g : SkillGraph) (u v : string) :
  nodes (bump_edge g u v) = nodes g.
Proof. unfold bump_edge. by destruct (edges g !! (u, v)). Qed.

(** The inner loop: the edges from [s] to the later skills. *)
Lemma bump_from_weight (s : string) (rest : list string) (g : SkillGraph)
    (a b : string) :
  graph_ok g → s ∉ rest → NoDup rest →
  graph_ok (foldl (λ g t, bump_edge g s t) g rest)
  ∧ nodes (foldl (λ g t, bump_edge g s t) g rest) = nodes g
  ∧ weight (foldl (λ g t, bump_edge g s t) g rest) a b
    = weight g a b
      + (if bool_decide ((a = s ∧ b ∈ rest) ∨ (b = s ∧ a ∈ rest)) then 1 else 0).
Proof.
  revert g. induction rest as [|t rest IH]; intros g Hok Hs Hnd; simpl.
  - split_and!; [done..|]. rewrite bool_decide_eq_false_2; [lia|].
    intros [[_ ?%elem_of_nil]|[_ ?%elem_of_nil]]; done.
  - apply not_elem_of_cons in Hs as [Hst Hs]. apply NoDup_cons in Hnd as [Ht Hnd].
    destruct (IH (bump_edge g s t)) as (Hok' & Hnodes & Hw);
      [by apply bump_edge_ok|done|done|].
    split_and!; [done|by rewrite Hnodes, bump_edge_nodes|].
    rewrite Hw, bump_edge_weight.
    rewrite <- (indicator_sum ((a, b) = (s, t) ∨ (a, b) = (t, s))
                  ((a = s ∧ b ∈ rest) ∨ (b = s ∧ a ∈ rest))
                  ((a = s ∧ b ∈ t :: rest) ∨ (b = s ∧ a ∈ t :: rest))).
    + destruct (bool_decide ((a, b) = (s, t) ∨ (a, b) = (t, s))) eqn:H1; [|lia].
      apply bool_decide_eq_true_1 in H1.
      assert (weight g s t = weight g a b) as ->; [|lia].
      destruct H1 as [[= -> ->]|[= -> ->]]; [done|].
      unfold weight. destruct Hok as [Hsym _]. by rewrite Hsym.
    + intros [[[= -> ->]|[= -> ->]] [[_ ?]|[_ ?]]]; done.
    + rewrite !elem_of_cons. split.
      * intros [[-> [->|?]]|[-> [->|?]]]; [left; by left|right; by left
                                        |left; by right|right; by right].
      * intros [[[= -> ->]|[= -> ->]]|[[-> ?]|[-> ?]]];
          [left; split; [done|by left]|right; split; [done|by left]
          |left; split; [done|by right]|right; split; [done|by right]].
Qed.

(** The two loops over the skills of one profile: every pair of different
    skills of the list gains one, nothing else changes. *)
Lemma bump_pairs_weight (skills : list string) (g : SkillGraph) (a b : string) :
  graph_ok g → NoDup skills →
  graph_ok (bump_pairs skills g)
  ∧ nodes (bump_pairs skills g) = nodes g
  ∧ weight (bump_pairs skills g) a b
    = weight g a b
      + (if bool_decide (a ≠ b ∧ a ∈ skills ∧ b ∈ skills) then 1 else 0).
Proof.
  revert g. induction skills as [|s rest IH]; intros g Hok Hnd; simpl.
  - split_and!; [done..|]. rewrite bool_decide_eq_false_2; [lia|].
    by intros (_ & ?%elem_of_nil & _).
  - apply NoDup_cons in Hnd as [Hs Hnd].
    destruct (bump_from_weight s rest g a b Hok Hs Hnd) as (Hok1 & Hn1 & Hw1).
    destruct (IH _ Hok1 Hnd) as (Hok2 & Hn2 & Hw2).
    split_and!; [done|by rewrite Hn2, Hn1|]. rewrite Hw2, Hw1, <- Z.add_assoc.
    f_equal. apply indicator_sum.
    + intros [[[-> ?]|[-> ?]] (_ & ? & ?)]; done.
    + rewrite !elem_of_cons. split.
      * intros (Hab & [->|Ha] & [->|Hb]); [done|left; by left|left; by right|by right].
      * intros [[[-> Hb]|[-> Ha]]|(? & ? & ?)].
        -- split_and!; [by intros ->|by left|by right].
        -- split_and!; [by intros ->|by right|by left].
        -- split_and!; [done|by right|by right].
Qed.

Lemma add_nodes_fold (l : list (string * Skill)) (g : SkillGraph) :
  NoDup l.*1 →
  edges (foldl (λ g kv, add_node g kv.1 kv.2) g l) = edges g
  ∧ nodes (foldl (λ g kv, add_node g kv.1 kv.2) g l) = list_to_map l ∪ nodes g.
Proof.
  revert g. induction l as [|[k x] l IH]; intros g; csimpl.
  - intros _. by rewrite (left_id_L ∅ (∪)).
  - rewrite NoDup_cons. intros [Hk Hnd].
    destruct (IH (add_node g k x) Hnd) as [-> ->]. split; [done|]. simpl.
    rewrite <- insert_union_l. symmetry. apply insert_union_r.
    by apply not_elem_of_list_to_map_1.
Qed.

Lemma add_new_nodes_fold (l : list (string * Skill)) (g : SkillGraph) :
  NoDup l.*1 →
  edges (foldl (λ g kv, if has_node g kv.1 then g else add_node g kv.1 kv.2) g l)
  = edges g
  ∧ nodes (foldl (λ g kv, if has_node g kv.1 then g else add_node g kv.1 kv.2) g l)
    = nodes g ∪ list_to_map l.
Proof.
  revert g. induction l as [|[k x] l IH]; intros g; csimpl.
  - intros _. by rewrite (right_id_L ∅ (∪)).
  - rewrite NoDup_cons. intros [Hk Hnd]. simpl.
    destruct (has_node g k) eqn:Hhas; unfold has_node in Hhas.
    + apply bool_decide_eq_true_1 in Hhas.
      destruct (IH g Hnd) as [-> ->]. split; [done|].
      destruct Hhas as [y Hy]. apply map_eq. intros j.
      rewrite !lookup_union. destruct (decide (k = j)) as [<-|Hne].
      * rewrite Hy, lookup_insert_eq.
        by destruct (list_to_map l !! k : option Skill).
      * by rewrite lookup_insert_ne.
    + apply bool_decide_eq_false_1, eq_None_not_Some in Hhas.
      destruct (IH (add_node g k x) Hnd) as [-> ->]. split; [done|]. simpl.
      rewrite <- insert_union_l. by rewrite <- insert_union_r.
Qed.

Lemma add_skill_nodes_spec (g : SkillGraph) (p : JobProfile) :
  edges (add_skill_nodes g p) = edges g
  ∧ nodes (add_skill_nodes g p) = required_skills p ∪ nodes g.
Proof.
  unfold add_skill_nodes.
  destruct (add_nodes_fold (map_to_list (required_skills p)) g) as [-> ->];
    [apply NoDup_fst_map_to_list|].
  by rewrite list_to_map_to_list.
Qed.

Lemma add_new_skill_nodes_spec (g : SkillGraph) (p : JobProfile) :
  edges (add_new_skill_nodes g p) = edges g
  ∧ nodes (add_new_skill_nodes g p) = nodes g ∪ required_skills p.
Proof.
  unfold add_new_skill_nodes.
  destruct (add_new_nodes_fold (map_to_list (required_skills p)) g) as [-> ->];
    [apply NoDup_fst_map_to_list|].
  by rewrite list_to_map_to_list.
Qed.

Lemma graph_ok_edges (g1 g2 : SkillGraph) :
  edges g1 = edges g2 → graph_ok g1 → graph_ok g2.
Proof. unfold graph_ok. by intros ->. Qed.

Lemma weight_edges (g1 g2 : SkillGraph) (u v : string) :
  edges g1 = edges g2 → weight g1 u v = weight g2 u v.
Proof. unfold weight. by intros ->. Qed.

Lemma elem_of_skill_keys (p : JobProfile) (u : string) :
  u ∈ skill_keys p ↔ u ∈ get_skill_ids p.
Proof. unfold skill_keys. apply elem_of_elements. Qed.

Lemma co_occurrences_cons (k : string) (p : JobProfile) (c : catalog) (u v : string) :
  co_occurrences ((k, p) :: c) u v
  = (if bool_decide (requires_both u v p) then 1 else 0) + co_occurrences c u v.
Proof.
  unfold co_occurrences, requires_both. simpl.
  destruct (bool_decide _); simpl length; lia.
Qed.

Lemma co_occurrences_app (c1 c2 : catalog) (u v : string) :
  co_occurrences (c1 ++ c2)%list u v = co_occurrences c1 u v + co_occurrences c2 u v.
Proof.
  unfold co_occurrences. rewrite List.filter_app, length_app. lia.
Qed.

(** What adding the pairs of one profile does to a weight. *)
Lemma bump_profile_weight (g : SkillGraph) (p : JobProfile) (u v : string) :
  graph_ok g →
  graph_ok (bump_pairs (skill_keys p) g)
  ∧ nodes (bump_pairs (skill_keys p) g) = nodes g
  ∧ weight (bump_pairs (skill_keys p) g) u v
    = weight g u v
      + (if bool_decide (u ≠ v ∧ requires_both u v p) then 1 else 0).
Proof.
  intros Hok.
  destruct (bump_pairs_weight (skill_keys p) g u v Hok) as (Hok' & Hn & ->);
    [unfold skill_keys; apply NoDup_elements|].
  split_and!; [done..|]. f_equal. unfold requires_both.
  repeat case_bool_decide; try done; exfalso; rewrite !elem_of_skill_keys in *; tauto.
Qed.

(** The second loop of [_build_skill_graph]. *)
Lemma build_edges_weight (c : catalog) (g : SkillGraph) (u v : string) :
  graph_ok g →
  graph_ok (foldl (λ g entry, bump_pairs (skill_keys entry.2) g) g c)
  ∧ nodes (foldl (λ g entry, bump_pairs (skill_keys entry.2) g) g c) = nodes g
  ∧ weight (foldl (λ g entry, bump_pairs (skill_keys entry.2) g) g c) u v
    = weight g u v + (if bool_decide (u ≠ v) then co_occurrences c u v else 0).
Proof.
  revert g. induction c as [|[k p] c IH]; intros g Hok.
  - simpl. split_and!; [done..|]. unfold co_occurrences. simpl.
    case_bool_decide; lia.
  - simpl foldl.
    destruct (bump_profile_weight g p u v Hok) as (Hok1 & Hn1 & Hw1).
    destruct (IH _ Hok1) as (Hok2 & Hn2 & Hw2).
    split_and!; [done|by rewrite Hn2|]. rewrite Hw2, Hw1, co_occurrences_cons.
    repeat case_bool_decide; try lia; exfalso; tauto.
Qed.

(** The first loop of [_build_skill_graph]. *)
Lemma build_nodes (c : catalog) (g : SkillGraph) (u : string) :
  edges (foldl (λ g entry, add_skill_nodes g entry.2) g c) = edges g
  ∧ (u ∈ dom (nodes (foldl (λ g entry, add_skill_nodes g entry.2) g c))
     ↔ u ∈ dom (nodes g) ∨ ∃ k p, (k, p) ∈ c ∧ u ∈ get_skill_ids p).
Proof.
  revert g. induction c as [|[k p] c IH]; intros g; simpl.
  - split; [done|]. split; [by left|]. intros [?|(? & ? & ?%elem_of_nil & _)]; done.
  - destruct (IH (add_skill_nodes g p)) as [-> ->].
    destruct (add_skill_nodes_spec g p) as [-> ->]. split; [done|].
    rewrite dom_union, elem_of_union. unfold get_skill_ids. split.
    + intros [[?|?]|(k' & p' & ? & ?)].
      * right. exists k, p. split; [left|done].
      * by left.
      * right. exists k', p'. split; [by right|done].
    + intros [?|(k' & p' & [[= -> ->]|?]%elem_of_cons & ?)].
      * left. by right.
      * left. by left.
      * right. by exists k', p'.
Qed.

Lemma empty_graph_ok : graph_ok (mkSkillGraph ∅ ∅).
Proof. split; [done|]. intros u v w. simpl. by rewrite lookup_empty. Qed.

(** The graph that [_build_skill_graph] gives. *)
Lemma build_skill_graph_spec (c : catalog) (u v : string) :
  graph_ok (_build_skill_graph c)
  ∧ weight (_build_skill_graph c) u v
    = (if bool_decide (u ≠ v) then co_occurrences c u v else 0)
  ∧ (u ∈ dom (nodes (_build_skill_graph c))
     ↔ ∃ k p, (k, p) ∈ c ∧ u ∈ get_skill_ids p).
Proof.
  unfold _build_skill_graph.
  set (g0 := foldl (λ g entry, add_skill_nodes g entry.2) (mkSkillGraph ∅ ∅) c).
  destruct (build_nodes c (mkSkillGraph ∅ ∅) u) as [Hedges Hnodes]. fold g0 in Hedges, Hnodes.
  assert (graph_ok g0) as Hok0.
  { eapply graph_ok_edges; [symmetry; exact Hedges|apply empty_graph_ok]. }
  destruct (build_edges_weight c g0 u v Hok0) as (Hok & -> & ->).
  split_and!; [done| |].
  - rewrite (weight_edges g0 (mkSkillGraph ∅ ∅)) by done.
    unfold weight. simpl. rewrite lookup_empty. simpl. lia.
  - rewrite Hnodes. simpl. rewrite dom_empty, elem_of_empty. tauto.
Qed.

Lemma catalog_set_fresh (c : catalog) (k : string) (p : JobProfile) :
  catalog_get c k = None → catalog_set c k p = (c ++ [(k, p)])%list.
Proof.
  induction c as [|[k' p'] c IH]; simpl; [done|].
  destruct (decide (k' = k)); [done|]. intros ?. by rewrite IH.
Qed.

Lemma catalog_set_again (c : catalog) (k : string) (p : JobProfile) :
  catalog_set (catalog_set c k p) k p = catalog_set c k p.
Proof.
  induction c as [|[k' p'] c IH]; simpl.
  - by rewrite decide_True.
  - destruct (decide (k' = k)) as [->|Hne]; simpl.
    + by rewrite decide_True.
    + rewrite decide_False by done. by rewrite IH.
Qed.

(** What [_update_skill_graph] does to a graph. *)
Lemma update_skill_graph_spec (g : SkillGraph) (p : JobProfile) (u v : string) :
  graph_ok g →
  graph_ok (_update_skill_graph g p)
  ∧ nodes (_update_skill_graph g p) = nodes g ∪ required_skills p
  ∧ weight (_update_skill_graph g p) u v
    = weight g u v + (if bool_decide (u ≠ v ∧ requires_both u v p) then 1 else 0).
Proof.
  intros Hok. unfold _update_skill_graph.
  destruct (add_new_skill_nodes_spec g p) as [Hedges Hnodes].
  assert (graph_ok (add_new_skill_nodes g p)) as Hok1
    by (eapply graph_ok_edges; [symmetry; exact Hedges|done]).
  destruct (bump_profile_weight _ p u v Hok1) as (Hok2 & -> & ->).
  split_and!; [done|done|]. by rewrite (weight_edges _ g).
Qed.

Lemma reachable_ok (m : SkillMatcher) : reachable m → graph_ok (skill_graph m).
Proof.
  induction 1 as [c|m p _ IH]; simpl.
  - by destruct (build_skill_graph_spec c "" "") as (? & _).
  - by destruct (update_skill_graph_spec (skill_graph m) p "" "" IH) as (? & _).
Qed.
End skill_graph_facts.

Section skill_graph_properties.
Import skill_matcher.
Local Open Scope Z_scope.
Local Open Scope list_scope.

Lemma has_edge_weight (g : SkillGraph) (u v : string) :
  graph_ok g → has_edge g u v = true ↔ weight g u v ≠ 0.
Proof.
  intros Hok. unfold has_edge. rewrite bool_decide_eq_true, (weight_lookup g u v Hok).
  destruct (decide (weight g u v = 0)) as [->|Hne].
  - split; [by intros [? ?]|done].
  - split; [done|]. intros _. by eexists.
Qed.

Lemma co_occurrences_nonneg (c : catalog) (u v : string) : 0 <= co_occurrences c u v.
Proof. unfold co_occurrences. lia. Qed.

Lemma catalog_get_set (c : catalog) (k : string) (p : JobProfile) :
  catalog_get (catalog_set c k p) k = Some p.
Proof.
  induction c as [|[k' p'] c IH]; simpl.
  - by rewrite decide_True.
  - destruct (decide (k' = k)) as [->|Hne]; simpl.
    + by rewrite decide_True.
    + by rewrite decide_False.
Qed.

(** X6.  The graph that a new SkillMatcher builds from its catalogue: the
    weight of the edge between two different skills is the number of
    profiles that require both, the same from either end; there is an edge
    exactly when some profile requires both; no skill has an edge to
    itself; and the nodes are the skills that some profile requires. *)
Theorem skill_graph_cooccurrence (c : catalog) (u v : string) :
  let g := skill_graph (init c) in
  weight g u v = weight g v u
  ∧ weight g u u = 0
  ∧ (u ≠ v → weight g u v = co_occurrences c u v)
  ∧ (has_edge g u v = true ↔ u ≠ v ∧ 0 < co_occurrences c u v)
  ∧ (has_node g u = true ↔ ∃ k p, (k, p) ∈ c ∧ u ∈ get_skill_ids p).
Proof.
  simpl. destruct (build_skill_graph_spec c u v) as (Hok & Hw & Hn).
  split_and!.
  - unfold weight. destruct Hok as [Hsym _]. by rewrite Hsym.
  - destruct (build_skill_graph_spec c u u) as (_ & -> & _).
    by rewrite bool_decide_eq_false_2 by (by intros ?).
  - intros Huv. by rewrite Hw, bool_decide_eq_true_2.
  - rewrite (has_edge_weight _ u v Hok), Hw.
    pose proof (co_occurrences_nonneg c u v). case_bool_decide as Huv.
    + split; [intros ?; split; [done|lia]|intros [_ ?]; lia].
    + split; [done|]. by intros [? _].
  - unfold has_node. rewrite bool_decide_eq_true, <- elem_of_dom. apply Hn.
Qed.

Lemma skill_graph_cooccurrence_witness :
  "python" ≠ "sql"
  ∧ weight (skill_graph (init scenario)) "python" "sql"
    = co_occurrences scenario "python" "sql".
Proof.
  assert ("python" ≠ "sql") as Hne by done.
  split; [exact Hne|].
  exact (proj1 (proj2 (proj2 (skill_graph_cooccurrence scenario "python" "sql"))) Hne).
Defined.

(** X7.  The graph stays the one a rebuild would give: it is for a new
    SkillMatcher, and [add_job_profile] with a job id that the catalogue
    does not hold appends the profile to the catalogue and leaves a graph
    with the edges, weights and nodes of a rebuild from the new
    catalogue. *)
Theorem incremental_update_is_rebuild (c : catalog) :
  graph_current (init c)
  ∧ ∀ m profile,
      graph_current m →
      catalog_get (job_profiles m) (id profile) = None →
      job_profiles (add_job_profile m profile)
      = (job_profiles m ++ [(id profile, profile)])%list
      ∧ graph_current (add_job_profile m profile).
Proof.
  split; [done|]. intros m p [Hedges Hnodes] Hnew.
  assert (job_profiles (add_job_profile m p)
          = (job_profiles m ++ [(id p, p)])%list) as Hcat
    by (by apply catalog_set_fresh).
  split; [done|]. unfold graph_current. rewrite Hcat. simpl.
  assert (graph_ok (skill_graph m)) as Hok.
  { eapply graph_ok_edges; [symmetry; exact Hedges|].
    by destruct (build_skill_graph_spec (job_profiles m) "" "") as (? & _). }
  split.
  - apply same_edges.
    + by destruct (update_skill_graph_spec (skill_graph m) p "" "" Hok) as (? & _).
    + by destruct (build_skill_graph_spec (job_profiles m ++ [(id p, p)]) "" "")
        as (? & _).
    + intros u v.
      destruct (update_skill_graph_spec (skill_graph m) p u v Hok) as (_ & _ & ->).
      destruct (build_skill_graph_spec (job_profiles m ++ [(id p, p)]) u v)
        as (_ & -> & _).
      rewrite (weight_edges _ _ u v Hedges).
      destruct (build_skill_graph_spec (job_profiles m) u v) as (_ & -> & _).
      rewrite co_occurrences_app, (co_occurrences_cons (id p) p [] u v).
      unfold co_occurrences at 3. simpl.
      repeat case_bool_decide; try lia; exfalso; tauto.
  - apply set_eq. intros u.
    destruct (update_skill_graph_spec (skill_graph m) p u u Hok) as (_ & -> & _).
    destruct (build_skill_graph_spec (job_profiles m ++ [(id p, p)]) u u)
      as (_ & _ & ->).
    rewrite dom_union, elem_of_union, Hnodes.
    destruct (build_skill_graph_spec (job_profiles m) u u) as (_ & _ & ->).
    unfold get_skill_ids. split.
    + intros [(k & p' & Hin & Hu)|Hu].
      * exists k, p'. split; [|done]. apply elem_of_app. by left.
      * exists (id p), p. split; [|done]. apply elem_of_app. right. left.
    + intros (k & p' & [Hin|[= -> ->]%list_elem_of_singleton]%elem_of_app & Hu).
      * left. by exists k, p'.
      * by right.
Qed.

Lemma incremental_update_is_rebuild_witness :
  graph_current (init scenario)
  ∧ catalog_get (job_profiles (init scenario)) (id job_C) = None
  ∧ graph_current (add_job_profile (init scenario) job_C).
Proof.
  assert (graph_current (init scenario)) as Hcur
    by exact (proj1 (incremental_update_is_rebuild scenario)).
  assert (catalog_get (job_profiles (init scenario)) (id job_C) = None) as Hnew
    by reflexivity.
  split_and!; [done..|].
  exact (proj2 (proj2 (incremental_update_is_rebuild scenario)
                  (init scenario) job_C Hcur Hnew)).
Defined.

(** X8.  [add_job_profile] only ever grows the graph.  On any matcher that
    [SkillMatcher(...)] and [add_job_profile] produce, every pair of
    different skills of the added profile gains one in weight and no other
    weight changes; the skills of the profile join the nodes; a skill that
    was a node keeps the attributes it had.  The catalogue then holds the
    profile under its id; adding the same profile once more leaves the
    catalogue as it is (while the weights gain one again). *)
Theorem add_job_profile_grows (m : SkillMatcher) (profile : JobProfile) (u v : string) :
  reachable m →
  let m' := add_job_profile m profile in
  weight (skill_graph m') u v
  = weight (skill_graph m) u v
    + (if bool_decide (u ≠ v ∧ requires_both u v profile) then 1 else 0)
  ∧ dom (nodes (skill_graph m')) = dom (nodes (skill_graph m)) ∪ get_skill_ids profile
  ∧ (∀ s, nodes (skill_graph m) !! u = Some s → nodes (skill_graph m') !! u = Some s)
  ∧ catalog_get (job_profiles m') (id profile) = Some profile
  ∧ job_profiles (add_job_profile m' profile) = job_profiles m'.
Proof.
  intros Hok%reachable_ok. simpl.
  destruct (update_skill_graph_spec (skill_graph m) profile u v Hok) as (_ & Hn & Hw).
  split_and!.
  - done.
  - by rewrite Hn, dom_union_L.
  - intros s Hs. rewrite Hn. by apply lookup_union_Some_l.
  - apply catalog_get_set.
  - apply catalog_set_again.
Qed.

Lemma add_job_profile_grows_witness :
  reachable (add_job_profile (init scenario) job_B)
  ∧ weight (skill_graph (add_job_profile (add_job_profile (init scenario) job_B) job_B))
      "sql" "excel"
    = weight (skill_graph (add_job_profile (init scenario) job_B)) "sql" "excel"
      + (if bool_decide ("sql" ≠ "excel" ∧ requires_both "sql" "excel" job_B)
         then 1 else 0).
Proof.
  assert (reachable (add_job_profile (init scenario) job_B)) as Hr
    by (apply reach_add, reach_init).
  split; [exact Hr|].
  exact (proj1 (add_job_profile_grows (add_job_profile (init scenario) job_B)
                  job_B "sql" "excel" Hr)).
Defined.
End skill_graph_properties.

(** ** trend_detector.py: the order of the rows *)

Section row_order_facts.
Import trend_detector.

Lemma string_ltb_lt (a b : string) :
  String.ltb a b = true ↔ String.compare a b = Lt.
Proof. unfold String.ltb. destruct (String.compare a b); split; congruence. Qed.

Lemma string_ltb_irrefl (a : string) : String.ltb a a = false.
Proof.
  pose proof (proj2 (OrderedTypeEx.String_as_OT.cmp_eq a a) eq_refl) as H.
  unfold OrderedTypeEx.String_as_OT.cmp in H. unfold String.ltb. by rewrite H.
Qed.

Lemma string_ltb_trans (a b c : string) :
  String.ltb a b = true → String.ltb b c = true → String.ltb a c = true.
Proof.
  rewrite !string_ltb_lt. intros H1 H2.
  apply OrderedTypeEx.String_as_OT.cmp_lt.
  eapply OrderedTypeEx.String_as_OT.lt_trans;
    by apply OrderedTypeEx.String_as_OT.cmp_lt.
Qed.

Lemma string_ltb_total (a b : string) :
  a ≠ b → String.ltb a b = true ∨ String.ltb b a = true.
Proof.
  intros Hne. rewrite !string_ltb_lt. destruct (String.compare a b) eqn:Hc.
  - by apply String.compare_eq_iff in Hc.
  - by left.
  - right. by rewrite String.compare_antisym, Hc.
Qed.

Lemma group_lt_irrefl (a : list string) : group_lt a a = false.
Proof. induction a as [|x a IH]; simpl; [done|]. by rewrite String.eqb_refl. Qed.

Lemma group_lt_trans (a b c : list string) :
  group_lt a b = true → group_lt b c = true → group_lt a c = true.
Proof.
  revert b c. induction a as [|x a IH]; intros [|y b] [|z c]; simpl; try done.
  destruct (String.eqb_spec x y) as [Hxy|Hxy];
    destruct (String.eqb_spec y z) as [Hyz|Hyz];
    destruct (String.eqb_spec x z) as [Hxz|Hxz]; try congruence.
  - apply IH.
  - subst. intros H1 H2.
    pose proof (string_ltb_trans _ _ _ H1 H2) as H.
    by rewrite string_ltb_irrefl in H.
  - apply string_ltb_trans.
Qed.

Lemma group_lt_total (a b : list string) :
  a ≠ b → group_lt a b = true ∨ group_lt b a = true.
Proof.
  revert b. induction a as [|x a IH]; intros [|y b] Hne; simpl; try done.
  - by left.
  - by right.
  - destruct (String.eqb_spec x y) as [->|Hxy].
    + rewrite String.eqb_refl. apply IH. congruence.
    + rewrite (proj2 (String.eqb_neq y x)) by congruence.
      by apply string_ltb_total.
Qed.

Lemma group_lt_asym (a b : list string) :
  group_lt a b = true → group_lt b a = false.
Proof.
  intros Hab. destruct (group_lt b a) eqn:Hba; [|done].
  pose proof (group_lt_trans _ _ _ Hab Hba) as H.
  by rewrite group_lt_irrefl in H.
Qed.

(** The order of [sort_values] is total and transitive. *)
Lemma row_before_total (group_cols : list string) (x y : Row) :
  negb (row_lt group_cols y x) = false → negb (row_lt group_cols x y) = true.
Proof.
  rewrite negb_false_iff, negb_true_iff. unfold row_lt.
  destruct group_cols as [|col cols].
  - rewrite Z.ltb_lt, Z.ltb_ge. lia.
  - destruct (decide (group y = group x)) as [Heq|Hne].
    + rewrite decide_True by done. rewrite Z.ltb_lt, Z.ltb_ge. lia.
    + rewrite decide_False by done. apply group_lt_asym.
Qed.

Lemma row_before_trans (group_cols : list string) (x y z : Row) :
  negb (row_lt group_cols y x) = true →
  negb (row_lt group_cols z y) = true →
  negb (row_lt group_cols z x) = true.
Proof.
  rewrite !negb_true_iff. unfold row_lt.
  destruct group_cols as [|col cols].
  - rewrite !Z.ltb_ge. lia.
  - destruct (decide (group y = group x)) as [Hyx|Hyx];
      destruct (decide (group z = group y)) as [Hzy|Hzy];
      destruct (decide (group z = group x)) as [Hzx|Hzx]; try congruence.
    + rewrite !Z.ltb_ge. lia.
    + intros H1 H2. rewrite <- Hzx in H1.
      destruct (group_lt_total _ _ Hzy) as [H|H]; congruence.
    + intros H1 H2.
      destruct (group_lt_total _ _ Hyx) as [H|H]; [congruence|].
      destruct (group_lt_total _ _ Hzy) as [H'|H']; [congruence|].
      destruct (group_lt (group z) (group x)) eqn:Hlt; [|done].
      pose proof (group_lt_trans _ _ _ (group_lt_trans _ _ _ H H') Hlt) as Hxx.
      by rewrite group_lt_irrefl in Hxx.
Qed.

Lemma sort_values_strongly (group_cols : list string) (df : DataFrame) :
  StronglySorted (λ a b, row_lt group_cols b a = false) (sort_values group_cols df).
Proof.
  unfold sort_values.
  eapply StronglySorted_impl;
    [|apply sorted_strongly; [apply row_before_total|apply row_before_trans]].
  intros a b. simpl. by rewrite negb_true_iff.
Qed.

Lemma StronglySorted_filter {A} (R : A → A → Prop) (f : A → bool) (l : list A) :
  StronglySorted R l → StronglySorted R (List.filter f l).
Proof.
  induction 1 as [|x l Hl IH Hx]; simpl; [constructor|].
  destruct (f x); [|done]. constructor; [done|].
  rewrite Forall_forall in Hx |- *. intros y Hy. apply Hx.
  by apply elem_of_bool_filter in Hy as [Hy _].
Qed.

(** The rows of a group of the sorted table are in the order of their
    dates; so are the rows of the whole table when there is no grouping. *)
Lemma group_chronological (group_cols : list string) (df g : DataFrame) :
  match group_cols with
  | [] => g = sort_values group_cols df
  | _ :: _ => ∃ k, (k, g) ∈ groupby (sort_values group_cols df)
  end →
  StronglySorted (λ a b, (timestamp (date a) <= timestamp (date b))%Z) g.
Proof.
  destruct group_cols as [|col cols].
  - intros ->. eapply StronglySorted_impl; [|apply sort_values_strongly].
    intros a b. simpl. rewrite Z.ltb_ge. lia.
  - intros (k & ->%elem_of_groupby).
    eapply StronglySorted_impl_elem;
      [|apply StronglySorted_filter, (sort_values_strongly (col :: cols))].
    intros a b [_ Ha%bool_decide_eq_true]%elem_of_bool_filter
      [_ Hb%bool_decide_eq_true]%elem_of_bool_filter.
    unfold row_lt. rewrite decide_True by congruence. rewrite Z.ltb_ge. lia.
Qed.

Lemma last_map {A B} (f : A → B) (l : list A) (d : A) :
  List.last (map f l) (f d) = f (List.last l d).
Proof.
  induction l as [|x l IH]; [done|]. destruct l as [|y l]; [done|].
  change (List.last (map f (x :: y :: l)) (f d)) with (List.last (map f (y :: l)) (f d)).
  by rewrite IH.
Qed.

Lemma last_elem_of {A} (l : list A) (d : A) : l ≠ [] → List.last l d ∈ l.
Proof.
  intros Hne. destruct (exists_last Hne) as (l' & x & ->).
  rewrite last_last. apply elem_of_app. right. left.
Qed.

Lemma StronglySorted_last {A} (R : A → A → Prop) (l : list A) (d x : A) :
  (∀ a, R a a) → StronglySorted R l → x ∈ l → R x (List.last l d).
Proof.
  intros Hrefl Hl Hx. assert (l ≠ []) as Hne by (by intros ->; apply elem_of_nil in Hx).
  destruct (exists_last Hne) as (l' & y & ->). rewrite last_last.
  apply elem_of_app in Hx as [Hx|Hx%list_elem_of_singleton]; [|by subst].
  clear Hne. revert x Hx.
  induction l' as [|a l' IH]; intros x Hx; [by apply elem_of_nil in Hx|].
  rewrite <- app_comm_cons in Hl. apply StronglySorted_inv in Hl as [Hl Ha].
  apply elem_of_cons in Hx as [->|Hx]; [|by apply IH].
  rewrite Forall_forall in Ha. apply Ha. apply elem_of_app. right. left.
Qed.

(** The analysis of rows in the order of their dates. *)
Lemma analyze_series_chronological (self : TrendDetector) (g : DataFrame)
    (r : TrendResult) :
  StronglySorted (λ a b, (timestamp (date a) <= timestamp (date b))%Z) g →
  _analyze_series self (values_of g) (dates_of g) = Ok (Some r) →
  ∃ first last,
    first ∈ g ∧ last ∈ g
    ∧ start_value r = value first
    ∧ end_value r = value last
    ∧ period r = (timestamp (date first), timestamp (date last))
    ∧ (min_periods self <= Z.of_nat (length g))%Z
    ∧ ∀ row, row ∈ g →
        (timestamp (date first) <= timestamp (date row) <= timestamp (date last))%Z.
Proof.
  intros Hsorted. unfold _analyze_series.
  destruct (Z.of_nat (length (values_of g)) <? min_periods self)%Z eqn:Hlen; [done|].
  apply Z.ltb_ge in Hlen. unfold values_of in Hlen. rewrite length_map in Hlen.
  destruct g as [|first rest]; [done|].
  change (values_of (first :: rest)) with (value first :: values_of rest).
  change (dates_of (first :: rest))
    with (timestamp (date first) :: dates_of rest).
  destruct (np_polyfit _ _) as [[slope intercept]|]; [|done].
  intros [= <-]. exists first, (List.last (first :: rest) first). cbn [start_value end_value period].
  split_and!.
  - left.
  - by apply last_elem_of.
  - done.
  - apply (last_map value (first :: rest) first).
  - f_equal. apply (last_map (λ r, timestamp (date r)) (first :: rest) first).
  - done.
  - intros row Hrow. split.
    + apply StronglySorted_inv in Hsorted as [_ Hfirst].
      apply elem_of_cons in Hrow as [->|Hrow]; [lia|].
      rewrite Forall_forall in Hfirst. apply Hfirst.
      first [exact Hrow | by apply list_elem_of_In].
    + apply (StronglySorted_last
               (λ a b, (timestamp (date a) <= timestamp (date b))%Z)
               (first :: rest) first row); [intros; lia|done|done].
Qed.

Lemma timestamp_to_datetime (c : date_cell) : timestamp (to_datetime c) = timestamp c.
Proof. done. Qed.

Lemma elem_of_set_date_inv (df : DataFrame) (r : Row) :
  r ∈ set_date df →
  ∃ r0, r0 ∈ df ∧ value r = value r0 ∧ group r = group r0
        ∧ timestamp (date r) = timestamp (date r0).
Proof.
  unfold set_date. rewrite list_elem_of_In, in_map_iff.
  intros (r0 & <- & Hin). exists r0. by rewrite list_elem_of_In.
Qed.

Lemma elem_of_set_date_intro (df : DataFrame) (r0 : Row) :
  r0 ∈ df →
  ∃ r, r ∈ set_date df ∧ value r = value r0 ∧ group r = group r0
       ∧ timestamp (date r) = timestamp (date r0).
Proof.
  intros Hin. eexists. split.
  - unfold set_date. apply list_elem_of_In, in_map. by apply list_elem_of_In.
  - done.
Qed.

Lemma filter_length_perm {A} (f : A → bool) (l1 l2 : list A) :
  l1 ≡ₚ l2 → length (List.filter f l1) = length (List.filter f l2).
Proof.
  induction 1 as [|x l1 l2 _ IH|x y l|l1 l2 l3 _ IH1 _ IH2]; simpl.
  - done.
  - destruct (f x); simpl; by rewrite IH.
  - by destruct (f x), (f y).
  - by rewrite IH1.
Qed.

Lemma filter_group_set_date (df : DataFrame) (k : list string) :
  length (List.filter (λ r, bool_decide (group r = k)) (set_date df))
  = length (List.filter (λ r, bool_decide (group r = k)) df).
Proof.
  unfold set_date. induction df as [|r df IH]; simpl; [done|].
  destruct (bool_decide (group r = k)); simpl; by rewrite IH.
Qed.

(** The rows that form a group keep their number through the conversion
    of the dates and the sort. *)
Lemma group_rows_length (df : DataFrame) (group_cols : list string) (k : list string) :
  length (List.filter (λ r, bool_decide (group r = k))
            (sort_values group_cols (set_date df)))
  = length (List.filter (λ r, bool_decide (group r = k)) df).
Proof.
  unfold sort_values.
  rewrite (filter_length_perm _ _ _ (sorted_perm _ (set_date df))).
  apply filter_group_set_date.
Qed.
End row_order_facts.

Section detect_trends_properties.
Import trend_detector.

Lemma elem_of_groupby_intro (df : DataFrame) (r : Row) :
  r ∈ df →
  (group r, List.filter (λ r', bool_decide (group r' = group r)) df) ∈ groupby df.
Proof.
  intros Hr. unfold groupby. apply list_elem_of_In, in_map_iff.
  exists (group r). split; [done|].
  apply list_elem_of_In, elem_of_sorted, elem_of_remove_dups.
  apply list_elem_of_In, in_map. by apply list_elem_of_In.
Qed.

(** The loop over the groups returns when every series it analyses has two
    observations; every group that is large enough then has an entry. *)
Lemma trends_of_groups_returns (self : TrendDetector)
    (grouped : list (list string * DataFrame)) (init : gmap string TrendResult) :
  (2 <= min_periods self)%Z →
  ∃ results,
    trends_of_groups self grouped init = Ok results
    ∧ (∀ key, is_Some (init !! key) → is_Some (results !! key))
    ∧ ∀ group_name group_df,
        (group_name, group_df) ∈ grouped →
        (min_periods self <= Z.of_nat (length group_df))%Z →
        is_Some (results !! group_key group_name).
Proof.
  intros Hmin. revert init.
  induction grouped as [|[name g] grouped IH]; intros init; simpl.
  - exists init. split_and!; [done|done|]. by intros ?? ?%elem_of_nil.
  - destruct (Z.of_nat (length g) <? min_periods self)%Z eqn:Hlen.
    + apply Z.ltb_lt in Hlen.
      destruct (IH init) as (results & Hrun & Hinit & Hgroups).
      exists results. split_and!; [done|done|].
      intros k' g' [[= -> ->]|Hin]%elem_of_cons Hlarge; [lia|by eapply Hgroups].
    + apply Z.ltb_ge in Hlen.
      destruct (analyze_series_returns self (values_of g) (dates_of g))
        as (r & ->).
      { unfold values_of. rewrite length_map. lia. }
      { unfold values_of, dates_of. by rewrite !length_map. }
      { unfold values_of. rewrite length_map. lia. }
      destruct (IH (<[group_key name := r]> init)) as (results & Hrun & Hinit & Hgroups).
      exists results. split_and!; [done| |].
      * intros key Hkey. apply Hinit. rewrite lookup_insert_is_Some. 
        destruct (decide (group_key name = key)); [by left|by right].
      * intros k' g' [[= -> ->]|Hin]%elem_of_cons Hlarge; [|by eapply Hgroups].
        apply Hinit. rewrite lookup_insert_is_Some. by left.
Qed.

(** X11.  Each entry of the result of [detect_trends] describes one group
    of the table (the whole table under the key "overall" when there is no
    grouping): the group has [min_periods] rows or more, the period runs
    from its earliest to its latest date, whatever the order of the rows
    in the table, and the start and end values are observations at these
    two dates. *)
Theorem trend_spans_its_group (self : TrendDetector) (df : DataFrame)
    (group_cols : list string) (results : gmap string TrendResult)
    (key : string) (r : TrendResult) :
  detect_trends self df group_cols = Ok results →
  results !! key = Some r →
  ∃ first last,
    first ∈ df ∧ last ∈ group_rows df group_cols first
    ∧ key = match group_cols with
            | [] => "overall"
            | _ :: _ => group_key (group first)
            end
    ∧ start_value r = value first
    ∧ end_value r = value last
    ∧ period r = (timestamp (date first), timestamp (date last))
    ∧ (min_periods self <= Z.of_nat (length (group_rows df group_cols first)))%Z
    ∧ ∀ row, row ∈ group_rows df group_cols first →
        (timestamp (date first) <= timestamp (date row) <= timestamp (date last))%Z.
Proof.
  unfold detect_trends. destruct (_ || _); [by intros [= <-]|].
  set (s := sort_values group_cols (set_date df)).
  assert (∀ row, row ∈ s →
            ∃ r0, r0 ∈ df ∧ value row = value r0 ∧ group row = group r0
                  ∧ timestamp (date row) = timestamp (date r0)) as Hback.
  { intros row Hrow. unfold s, sort_values in Hrow.
    rewrite elem_of_sorted in Hrow. by apply elem_of_set_date_inv. }
  assert (∀ r0, r0 ∈ df →
            ∃ row, row ∈ s ∧ value row = value r0 ∧ group row = group r0
                   ∧ timestamp (date row) = timestamp (date r0)) as Hforth.
  { intros r0 Hr0. destruct (elem_of_set_date_intro df r0 Hr0) as (row & Hrow & ?).
    exists row. split; [|done]. unfold s, sort_values. by rewrite elem_of_sorted. }
  destruct group_cols as [|col cols].
  - destruct (_analyze_series _ _ _) as [[result|]|] eqn:Han; [| |done].
    2: by intros [= <-].
    intros [= <-]. rewrite lookup_singleton. case_decide as Hkey; [|done].
    intros [= ->].
    destruct (analyze_series_chronological self s r (group_chronological [] _ s eq_refl) Han)
      as (first & last & Hfirst & Hlast & Hstart & Hend & Hperiod & Hlen & Hbounds).
    destruct (Hback first Hfirst) as (first0 & Hfirst0 & Hv1 & _ & Ht1).
    destruct (Hback last Hlast) as (last0 & Hlast0 & Hv2 & _ & Ht2).
    exists first0, last0. simpl.
    split_and!; [done|done|done|congruence|congruence|congruence| |].
    + unfold s in Hlen. by rewrite sort_values_length, set_date_length in Hlen.
    + intros row (row' & Hrow' & _ & _ & Ht)%Hforth.
      rewrite <- Ht1, <- Ht2, <- Ht. by apply Hbounds.
  - intros Hrun Hlook.
    destruct (trends_of_groups_lookup _ _ _ _ _ _ Hrun Hlook)
      as [?|(name & g & Hin & -> & _ & Han)]; [done|].
    assert (StronglySorted (λ a b, (timestamp (date a) <= timestamp (date b))%Z) g)
      as Hsorted.
    { apply (group_chronological (col :: cols) (set_date df)). by exists name. }
    destruct (analyze_series_chronological self g r Hsorted Han)
      as (first & last & Hfirst & Hlast & Hstart & Hend & Hperiod & Hlen & Hbounds).
    apply elem_of_groupby in Hin. fold s in Hin.
    rewrite Hin in Hfirst, Hlast.
    apply elem_of_bool_filter in Hfirst as [Hfirst Hg1%bool_decide_eq_true].
    apply elem_of_bool_filter in Hlast as [Hlast Hg2%bool_decide_eq_true].
    destruct (Hback first Hfirst) as (first0 & Hfirst0 & Hv1 & Hk1 & Ht1).
    destruct (Hback last Hlast) as (last0 & Hlast0 & Hv2 & Hk2 & Ht2).
    exists first0, last0. simpl.
    split_and!; [done| |congruence|congruence|congruence|congruence| |].
    + apply elem_of_bool_filter. split; [done|]. apply bool_decide_eq_true. congruence.
    + rewrite Hin in Hlen. unfold s in Hlen. rewrite group_rows_length in Hlen.
      by rewrite <- Hk1, Hg1.
    + intros row [(row' & Hrow' & _ & Hk & Ht)%Hforth Hg%bool_decide_eq_true]%elem_of_bool_filter.
      rewrite <- Ht1, <- Ht2, <- Ht. apply Hbounds. rewrite Hin.
      apply elem_of_bool_filter. split; [done|]. apply bool_decide_eq_true. congruence.
Qed.

Lemma trend_spans_its_group_witness :
  ∃ r, detect_trends (mkTrendDetector 3 (1 / 10)) step_table ["demographic"]
       = Ok {[ "A" := r ]}
       ∧ ∃ first last,
           first ∈ step_table ∧ last ∈ group_rows step_table ["demographic"] first
           ∧ "A" = group_key (group first)
           ∧ start_value r = value first
           ∧ end_value r = value last
           ∧ period r = (timestamp (date first), timestamp (date last))
           ∧ (3 <= Z.of_nat (length (group_rows step_table ["demographic"] first)))%Z
           ∧ ∀ row, row ∈ group_rows step_table ["demographic"] first →
               (timestamp (date first) <= timestamp (date row)
                <= timestamp (date last))%Z.
Proof.
  eexists. split; [reflexivity|].
  apply (trend_spans_its_group (mkTrendDetector 3 (1 / 10)) step_table
           ["demographic"] _ "A" _ eq_refl).
  reflexivity.
Defined.

(** X12.  With [min_periods] of 2 or more (the default is 3)
    [detect_trends] returns a result for every table of real values and
    of dates that [pd.to_datetime] reads, and the result has an entry for
    every group of [min_periods] rows or more (for the whole table when
    there is no grouping). *)
Theorem detect_trends_returns (self : TrendDetector) (df : DataFrame)
    (group_cols : list string) :
  (2 <= min_periods self)%Z →
  ∃ results,
    detect_trends self df group_cols = Ok results
    ∧ ∀ row, row ∈ df →
        (min_periods self <= Z.of_nat (length (group_rows df group_cols row)))%Z →
        is_Some (results !! match group_cols with
                            | [] => "overall"
                            | _ :: _ => group_key (group row)
                            end).
Proof.
  intros Hmin. unfold detect_trends.
  destruct (bool_decide (df = []) || (Z.of_nat (length df) <? min_periods self)%Z)
    eqn:Hsmall.
  - exists ∅. split; [done|]. intros row Hrow Hlarge. exfalso.
    apply orb_true_iff in Hsmall as [->%bool_decide_eq_true|Hlen%Z.ltb_lt];
      [by apply elem_of_nil in Hrow|].
    assert (length (group_rows df group_cols row) <= length df)%nat; [|lia].
    destruct group_cols; simpl; [done|]. apply filter_length_le.
  - apply orb_false_iff in Hsmall as [_ Hlen%Z.ltb_ge].
    set (s := sort_values group_cols (set_date df)).
    assert (length s = length df) as Hs.
    { unfold s. by rewrite sort_values_length, set_date_length. }
    destruct group_cols as [|col cols].
    + destruct (analyze_series_returns self (values_of s) (dates_of s)) as (r & ->).
      { unfold values_of. rewrite length_map. lia. }
      { unfold values_of, dates_of. by rewrite !length_map. }
      { unfold values_of. rewrite length_map. lia. }
      exists {[ "overall" := r ]}. split; [done|]. intros _ _ _.
      by rewrite lookup_singleton, decide_True.
    + destruct (trends_of_groups_returns self (groupby s) ∅ Hmin)
        as (results & Hrun & _ & Hgroups).
      exists results. split; [done|]. intros row Hrow Hlarge.
      destruct (elem_of_set_date_intro df row Hrow) as (row' & Hrow' & _ & Hk & _).
      rewrite <- Hk.
      apply (Hgroups _ (List.filter (λ r', bool_decide (group r' = group row')) s)).
      * apply elem_of_groupby_intro. unfold s, sort_values. by rewrite elem_of_sorted.
      * unfold s. rewrite group_rows_length. simpl in Hlarge. by rewrite Hk.
Qed.

Lemma detect_trends_returns_witness :
  (2 <= min_periods (mkTrendDetector 3 (1 / 10)))%Z
  ∧ ∃ results,
      detect_trends (mkTrendDetector 3 (1 / 10)) step_table ["demographic"] = Ok results
      ∧ is_Some (results !! "A").
Proof.
  assert (2 <= min_periods (mkTrendDetector 3 (1 / 10)))%Z as Hmin by (simpl; lia).
  split; [done|].
  destruct (detect_trends_returns (mkTrendDetector 3 (1 / 10)) step_table
              ["demographic"] Hmin) as (results & Hrun & Hrows).
  exists results. split; [done|].
  apply (Hrows (plain_row "A" 1 0)); [left|simpl; lia].
Defined.
End detect_trends_properties.

(** ** trend_detector.py: the shocks of a table *)

Section detect_shocks_properties.
Import trend_detector.
Local Open Scope R_scope.

Lemma remove_dups_length {A} `{EqDecision A} (l : list A) :
  (length (remove_dups l) <= length l)%nat
  ∧ (length (remove_dups l) = length l ↔ NoDup l).
Proof.
  induction l as [|x l [IHle IHiff]]; simpl.
  - split; [done|]. split; [constructor|done].
  - destruct (decide_rel elem_of x l) as [Hin|Hin]; simpl.
    + split; [lia|]. split; [lia|]. intros [? _]%NoDup_cons. done.
    + split; [lia|]. rewrite NoDup_cons. split.
      * intros Hlen. split; [done|]. apply IHiff. lia.
      * intros [_ Hnd%IHiff]. lia.
Qed.

Lemma groupby_length (df : DataFrame) :
  length (groupby (set_date df)) = length (remove_dups (map group df)).
Proof.
  unfold groupby. rewrite length_map, sorted_perm.
  unfold set_date. rewrite map_map. done.
Qed.

(** X14.  With grouping [detect_shocks] never returns a shock.  When two
    rows of the table share a group the assignment of the z-score column
    raises ValueError; when every row is a group of its own the call
    returns a table without rows. *)
Theorem grouped_shocks_outcome (df : DataFrame) (col : string)
    (cols : list string) (z_threshold : R) :
  df ≠ [] →
  (NoDup (map group df) → detect_shocks df (col :: cols) z_threshold = Ok [])
  ∧ (¬ NoDup (map group df) →
     detect_shocks df (col :: cols) z_threshold = Raise ValueError).
Proof.
  intros Hdf. pose proof (remove_dups_length (map group df)) as [_ Hiff]. split.
  - intros Hnd%Hiff.
    destruct (detect_shocks df (col :: cols) z_threshold) as [out|e] eqn:Hrun.
    + by apply detect_shocks_grouped in Hrun as ->.
    + exfalso. revert Hrun. unfold detect_shocks.
      rewrite bool_decide_eq_false_2 by done.
      unfold set_z_score, zscore_column, grouped_zscores.
      rewrite !length_map, set_date_length.
      assert (length (groupby (set_date df)) = length df) as Hlen.
      { rewrite groupby_length, Hnd. by rewrite length_map. }
      by rewrite Hlen, Nat.eqb_refl.
  - intros Hdup. apply detect_shocks_grouped_raises; [done|].
    rewrite groupby_length. intros Hlen. apply Hdup, Hiff.
    by rewrite Hlen, length_map.
Qed.

Lemma grouped_shocks_outcome_witness :
  step_table ≠ []
  ∧ detect_shocks step_table ["demographic"] 1 = Raise ValueError
  ∧ detect_shocks [plain_row "A" 1 0; plain_row "B" 1 3] ["demographic"] 1 = Ok [].
Proof.
  assert (step_table ≠ []) as H1 by done.
  assert ([plain_row "A" 1 0; plain_row "B" 1 3] ≠ []) as H2 by done.
  split_and!; [done| |].
  - apply (proj2 (grouped_shocks_outcome step_table "demographic" [] 1 H1)).
    intros Hnd. apply NoDup_cons in Hnd as [Hin _]. apply Hin. left.
  - apply (proj1 (grouped_shocks_outcome [plain_row "A" 1 0; plain_row "B" 1 3]
                    "demographic" [] 1 H2)).
    apply NoDup_cons. split; [|apply NoDup_singleton].
    by intros [=]%list_elem_of_singleton.
Defined.

(** X15.  The detectors on table objects compute what the functions on
    the contents give: [detect_trends] returns the dict of the rows of the
    object, and [detect_shocks] raises what the function on the rows
    raises or returns a table object that did not exist before the call,
    is not the caller's, and holds the result. *)
Theorem detectors_on_objects (self : TrendDetector) (h : gmap positive DataFrame)
    (df : positive) (rows : DataFrame) (group_cols : list string) (z_threshold : R) :
  h !! df = Some rows →
  (detect_trends_on self df group_cols h).1 = detect_trends self rows group_cols
  ∧ match detect_shocks rows group_cols z_threshold with
    | Ok out =>
        ∃ shock_events h',
          detect_shocks_on df group_cols z_threshold h = (Ok shock_events, h')
          ∧ h' !! shock_events = Some out
          ∧ h !! shock_events = None
          ∧ shock_events ≠ df
    | Raise e => (detect_shocks_on df group_cols z_threshold h).1 = Raise e
    end.
Proof.
  intros Hdf. split.
  - destruct (detect_trends_on_run self h df rows group_cols Hdf) as (h' & -> & _).
    done.
  - destruct (detect_shocks_on_run h df rows group_cols z_threshold Hdf)
      as (h' & _ & Hrun).
    destruct (detect_shocks rows group_cols z_threshold) as [out|e].
    + destruct Hrun as (shock_events & Hrun & Hout & Hnew).
      exists shock_events, h'. split_and!; [done..|]. intros ->. congruence.
    + by rewrite Hrun.
Qed.

Lemma detectors_on_objects_witness :
  ({[1%positive := step_table]} : gmap positive DataFrame) !! 1%positive
  = Some step_table
  ∧ (detect_shocks_on 1%positive ["demographic"] 1 {[1%positive := step_table]}).1
    = Raise ValueError.
Proof.
  assert (({[1%positive := step_table]} : gmap positive DataFrame) !! 1%positive
          = Some step_table) as Hdf by apply lookup_singleton_eq.
  split; [exact Hdf|].
  exact (proj2 (detectors_on_objects (mkTrendDetector 3 (1 / 10))
                  {[1%positive := step_table]} 1%positive step_table
                  ["demographic"] 1 Hdf)).
Defined.
End detect_shocks_properties.

(** ** geocode_util.py: [_geocode_with_retry] *)

Section geocode_retry_properties.
Import geocode_util.
Local Open Scope list_scope.

Lemma request_count_app (es1 es2 : list event) :
  request_count (es1 ++ es2) = (request_count es1 + request_count es2)%nat.
Proof. unfold request_count. by rewrite List.filter_app, length_app. Qed.

(** The three attempts, one reply after the other. *)
Lemma geocode_with_retry_cases (geocoder : string → nat → reply) (query : string)
    (w : World) :
  let n := requests w in
  _geocode_with_retry geocoder query w
  = match geocoder query n with
    | Found location =>
        (Some (point_of location), mkWorld (S n) (events w ++ [Request query]))
    | NotFound => (None, mkWorld (S n) (events w ++ [Request query]))
    | OtherError =>
        (None, mkWorld (S n) (events w ++ [Request query; Print UnexpectedError]))
    | ServiceTrouble =>
        match geocoder query (S n) with
        | Found location =>
            (Some (point_of location),
             mkWorld (S (S n)) (events w ++ [Request query; Sleep 2; Request query]))
        | NotFound =>
            (None, mkWorld (S (S n))
                     (events w ++ [Request query; Sleep 2; Request query]))
        | OtherError =>
            (None, mkWorld (S (S n))
                     (events w ++ [Request query; Sleep 2; Request query;
                                   Print UnexpectedError]))
        | ServiceTrouble =>
            match geocoder query (S (S n)) with
            | Found location =>
                (Some (point_of location),
                 mkWorld (S (S (S n)))
                   (events w ++ [Request query; Sleep 2; Request query; Sleep 4;
                                 Request query]))
            | NotFound =>
                (None, mkWorld (S (S (S n)))
                         (events w ++ [Request query; Sleep 2; Request query; Sleep 4;
                                       Request query]))
            | OtherError =>
                (None, mkWorld (S (S (S n)))
                         (events w ++ [Request query; Sleep 2; Request query; Sleep 4;
                                       Request query; Print UnexpectedError]))
            | ServiceTrouble =>
                (None, mkWorld (S (S (S n)))
                         (events w ++ [Request query; Sleep 2; Request query; Sleep 4;
                                       Request query; Print (FailedAfter 3)]))
            end
        end
    end.
Proof.
  unfold _geocode_with_retry. simpl.
  destruct (geocoder query (requests w)); simpl; unfold emit; simpl;
    by rewrite <- ?app_assoc.
Qed.


(** X17.  [_geocode_with_retry] returns a point exactly when one of the
    three attempts finds the location and every attempt before it met a
    service error; the point has the coordinates that the service gave.
    A reply that nothing was found, or any other error, ends the call
    with None at once. *)
Theorem geocode_retry_result (geocoder : string → nat → reply) (query : string)
    (w : World) (p : GeoPoint) :
  (_geocode_with_retry geocoder query w).1 = Some p
  ↔ ∃ n location,
      (n < 3)%nat
      ∧ geocoder query (requests w + n) = Found location
      ∧ p = point_of location
      ∧ ∀ m, (m < n)%nat → geocoder query (requests w + m) = ServiceTrouble.
Proof.
  rewrite geocode_with_retry_cases. cbv zeta.
  pose proof (Nat.add_0_r (requests w)) as E0.
  assert (requests w + 1 = S (requests w))%nat as E1 by lia.
  assert (requests w + 2 = S (S (requests w)))%nat as E2 by lia.
  split.
  - destruct (geocoder query (requests w)) as [l0| | |] eqn:H0; try done.
    { intros [= <-]. exists 0%nat, l0. rewrite E0.
      split_and!; [lia|done|done|]. intros m Hm. lia. }
    destruct (geocoder query (S (requests w))) as [l1| | |] eqn:H1; try done.
    { intros [= <-]. exists 1%nat, l1. rewrite E1.
      split_and!; [lia|done|done|]. intros [|m] Hm; [by rewrite E0|lia]. }
    destruct (geocoder query (S (S (requests w)))) as [l2| | |] eqn:H2; try done.
    intros [= <-]. exists 2%nat, l2. rewrite E2.
    split_and!; [lia|done|done|].
    intros [|[|m]] Hm; [by rewrite E0|by rewrite E1|lia].
  - intros (n & location & Hn & Hfound & -> & Hbefore).
    destruct n as [|[|[|n]]]; [| | |lia].
    + rewrite E0 in Hfound. by rewrite Hfound.
    + pose proof (Hbefore 0%nat ltac:(lia)) as Hb0. rewrite E0 in Hb0.
      rewrite E1 in Hfound. by rewrite Hb0, Hfound.
    + pose proof (Hbefore 0%nat ltac:(lia)) as Hb0. rewrite E0 in Hb0.
      pose proof (Hbefore 1%nat ltac:(lia)) as Hb1. rewrite E1 in Hb1.
      rewrite E2 in Hfound. by rewrite Hb0, Hb1, Hfound.
Qed.
End geocode_retry_properties.

(** ** skill_matcher.py: the shape of a returned path *)

Section transition_path_shape.
Import skill_matcher.
Local Open Scope Q_scope.

(** A returned path is the direct one or the combination of the two steps
    over a third job of the catalogue. *)
Lemma elem_of_find_transition_paths (c : catalog) (src tgt : string) (max_hops : Z)
    (source target : JobProfile) (p : TransitionPath) :
  catalog_get c src = Some source →
  catalog_get c tgt = Some target →
  p ∈ find_transition_paths c src tgt max_hops →
  transition_difficulty p < 1
  ∧ (p = _create_transition_path src tgt (get_skill_ids source) (get_skill_ids target)
     ∨ ∃ entry, entry ∈ c
         ∧ p ∈ intermediate_step src tgt (get_skill_ids source) (get_skill_ids target)
               entry).
Proof.
  intros Hsrc Htgt. unfold find_transition_paths. rewrite Hsrc, Htgt.
  destruct (max_hops <=? 0)%Z.
  - destruct (Qltb _ 1) eqn:Hlt; [|by intros ?%elem_of_nil].
    intros ->%list_elem_of_singleton. split; [by apply Qltb_lt|by left].
  - intros Hp%elem_of_deduplicated. split; [by eapply all_paths_feasible|].
    unfold all_paths in Hp.
    apply elem_of_bool_filter in Hp as [Hp _].
    apply elem_of_app in Hp as [->%list_elem_of_singleton|Hp]; [by left|].
    right. by apply elem_of_concat_map in Hp.
Qed.

Lemma py_max_cases (a b : Q) :
  (a < b ∧ py_max a b = b) ∨ (b <= a ∧ py_max a b = a).
Proof.
  unfold py_max. destruct (Qltb a b) eqn:H.
  - left. by apply Qltb_lt in H.
  - right. by apply Qltb_ge in H.
Qed.

Lemma len_union_disjoint (X Y : gset string) :
  X ## Y → len (X ∪ Y) = (len X + len Y)%Z.
Proof. intros Hd. unfold len. rewrite size_union by done. lia. Qed.

Lemma len_union_le (X Y : gset string) : (len (X ∪ Y) <= len X + len Y)%Z.
Proof.
  unfold len. rewrite size_union_alt.
  assert (size (Y ∖ X) ≤ size Y)%nat
    by (by apply subseteq_size, subseteq_difference_l).
  lia.
Qed.

(** X18.  Every path that [find_transition_paths] returns runs from the
    source to the target job (a third job it leads over is not recorded);
    its difficulty is its skill gap, a number from 0 up to but not
    including 1; missing_skills_count is the size of missing_skills, and
    common_skills_count is the size of skill_overlap or more; the missing
    skills include every skill of the target that the source lacks, so no
    detour saves a skill; and overlap and missing skills together cover
    the skills of the target. *)
Theorem returned_path_shape (c : catalog) (src tgt : string) (max_hops : Z)
    (source target : JobProfile) (p : TransitionPath) :
  catalog_get c src = Some source →
  catalog_get c tgt = Some target →
  p ∈ find_transition_paths c src tgt max_hops →
  source_job p = src ∧ target_job p = tgt
  ∧ transition_difficulty p == skill_gap p
  ∧ 0 <= skill_gap p ∧ skill_gap p < 1
  ∧ missing_skills_count p = len (missing_skills p)
  ∧ (len (skill_overlap p) <= common_skills_count p)%Z
  ∧ get_skill_ids target ∖ get_skill_ids source ⊆ missing_skills p
  ∧ get_skill_ids target ⊆ skill_overlap p ∪ missing_skills p.
Proof.
  intros Hsrc Htgt Hp.
  destruct (elem_of_find_transition_paths _ _ _ _ _ _ _ Hsrc Htgt Hp)
    as [Hlt [->|([job_id profile] & _ & Hstep)]].
  - set (s := get_skill_ids source) in *. set (t := get_skill_ids target) in *.
    pose proof (skill_gap_range src tgt s t) as [Hge _].
    pose proof (difficulty_is_gap src tgt s t) as Heq.
    split_and!; [done|done|done|done|by rewrite <- Heq|done|done|done|].
    cbn [skill_overlap missing_skills _create_transition_path].
    intros x Hx. apply elem_of_union.
    destruct (decide (x ∈ s)); [left; by apply elem_of_intersection|].
    right. by apply elem_of_difference.
  - unfold intermediate_step in Hstep.
    destruct (decide (job_id ∈ [src; tgt])); [by apply elem_of_nil in Hstep|].
    set (s := get_skill_ids source) in *. set (t := get_skill_ids target) in *.
    set (j := get_skill_ids profile) in *.
    destruct (Qltb _ 1 && Qltb _ 1) eqn:Hboth; [|by apply elem_of_nil in Hstep].
    apply andb_true_iff in Hboth as [H1%Qltb_lt H2%Qltb_lt].
    apply list_elem_of_singleton in Hstep. subst p.
    pose proof (skill_gap_range src job_id s j) as [Hge1 _].
    pose proof (skill_gap_range job_id tgt j t) as [Hge2 _].
    pose proof (difficulty_is_gap src job_id s j) as Heq1.
    pose proof (difficulty_is_gap job_id tgt j t) as Heq2.
    set (p1 := _create_transition_path src job_id s j) in *.
    set (p2 := _create_transition_path job_id tgt j t) in *.
    cbn [source_job target_job transition_difficulty skill_gap missing_skills_count
         missing_skills skill_overlap common_skills_count] in *.
    split_and!; [done|done| | | | | | |].
    + destruct (py_max_cases (transition_difficulty p1) (transition_difficulty p2))
        as [[? ->]|[? ->]],
        (py_max_cases (skill_gap p1) (skill_gap p2)) as [[? ->]|[? ->]]; lra.
    + destruct (py_max_cases (skill_gap p1) (skill_gap p2)) as [[? ->]|[? ->]]; lra.
    + destruct (py_max_cases (skill_gap p1) (skill_gap p2)) as [[? ->]|[? ->]]; lra.
    + change (len (j ∖ s) + len (t ∖ j) = len ((j ∖ s) ∪ (t ∖ j)))%Z.
      symmetry. apply len_union_disjoint.
      intros x [Hx _]%elem_of_difference [_ Hnx]%elem_of_difference. done.
    + change (len ((s ∩ j) ∪ (j ∩ t)) <= len (s ∩ j) + len (j ∩ t))%Z.
      apply len_union_le.
    + change (t ∖ s ⊆ (j ∖ s) ∪ (t ∖ j)).
      intros x [Hx Hnx]%elem_of_difference. apply elem_of_union.
      destruct (decide (x ∈ j)); [left|right]; by apply elem_of_difference.
    + change (t ⊆ ((s ∩ j) ∪ (j ∩ t)) ∪ ((j ∖ s) ∪ (t ∖ j))).
      intros x Hx. apply elem_of_union.
      destruct (decide (x ∈ j)).
      * left. apply elem_of_union. right. by apply elem_of_intersection.
      * right. apply elem_of_union. right. by apply elem_of_difference.
Qed.

Lemma returned_path_shape_witness :
  catalog_get scenario "A" = Some job_A
  ∧ catalog_get scenario "B" = Some job_B
  ∧ ∃ p, p ∈ find_transition_paths scenario "A" "B" 0
         ∧ missing_skills_count p = len (missing_skills p)
         ∧ get_skill_ids job_B ∖ get_skill_ids job_A ⊆ missing_skills p.
Proof.
  assert (catalog_get scenario "A" = Some job_A) as HA by reflexivity.
  assert (catalog_get scenario "B" = Some job_B) as HB by reflexivity.
  split_and!; [done..|].
  exists (_create_transition_path "A" "B" (get_skill_ids job_A) (get_skill_ids job_B)).
  assert (_create_transition_path "A" "B" (get_skill_ids job_A) (get_skill_ids job_B)
          ∈ find_transition_paths scenario "A" "B" 0) as Hp.
  { assert (find_transition_paths scenario "A" "B" 0
            = [_create_transition_path "A" "B" (get_skill_ids job_A)
                 (get_skill_ids job_B)]) as -> by (by vm_compute).
    left. }
  pose proof (returned_path_shape scenario "A" "B" 0 job_A job_B _ HA HB Hp)
    as (_ & _ & _ & _ & _ & Hcount & _ & Hmissing & _).
  exact (conj Hp (conj Hcount Hmissing)).
Defined.
End transition_path_shape.

(** ** skill_matcher.py: entries of equal score *)

Section stable_order.
Import skill_matcher.
Local Open Scope Q_scope.

(** The sort is stable: the elements of a class whose members may each
    stay in front of the others keep the order of the input. *)
Lemma insert_sorted_filter {A} (before : A → A → bool) (same : A → bool)
    (x : A) (l : list A) :
  (∀ a b, same a = true → same b = true → before a b = true) →
  List.filter same (insert_sorted before x l)
  = List.filter same (x :: l).
Proof.
  intros Hsame. induction l as [|y l IH]; [done|].
  cbn [insert_sorted]. destruct (before x y) eqn:Hxy; [done|].
  cbn [List.filter] in *. rewrite IH.
  destruct (same x) eqn:Hx, (same y) eqn:Hy; try done.
  by rewrite (Hsame x y Hx Hy) in Hxy.
Qed.

Lemma sorted_filter {A} (before : A → A → bool) (same : A → bool) (l : list A) :
  (∀ a b, same a = true → same b = true → before a b = true) →
  List.filter same (sorted before l) = List.filter same l.
Proof.
  intros Hsame. induction l as [|x l IH]; [done|].
  change (sorted before (x :: l)) with (insert_sorted before x (sorted before l)).
  rewrite (insert_sorted_filter before same x _ Hsame).
  cbn [List.filter]. by rewrite IH.
Qed.

Lemma Qgeb_same (q a b : Q) :
  Qeq_bool a q = true → Qeq_bool b q = true → Qgeb a b = true.
Proof.
  intros Ha%Qeq_bool_iff Hb%Qeq_bool_iff. unfold Qgeb. apply Qle_bool_iff. lra.
Qed.

(** X19.  Entries of equal score keep the order of the input.  The
    recommendations of one relevance are in the order of their courses in
    [available_courses], and the similar jobs of one similarity are in the
    order of the catalogue (when [top_n] cuts nothing off). *)
Theorem equal_scores_keep_order (c : catalog) (source_job_id target_job_id : string)
    (source target : JobProfile) (q : Q) :
  catalog_get c source_job_id = Some source →
  catalog_get c target_job_id = Some target →
  (∀ available_courses,
     get_skill_ids target ∖ get_skill_ids source ≠ ∅ →
     List.filter (λ r, Qeq_bool (relevance_score r) q)
       (recommend_training c source_job_id target_job_id available_courses)
     = List.filter (λ r, Qeq_bool (relevance_score r) q)
         (concat (map (course_step (get_skill_ids target ∖ get_skill_ids source))
                    available_courses)))
  ∧ (∀ top_n min_skill_overlap,
       (Z.of_nat (length c) <= top_n)%Z →
       List.filter (λ e, Qeq_bool e.2 q)
         (find_similar_jobs c source_job_id top_n min_skill_overlap)
       = List.filter (λ e, Qeq_bool e.2 q)
           (concat (map (similar_step source_job_id (get_skill_ids source)
                           min_skill_overlap) c))).
Proof.
  intros Hsrc Htgt. split.
  - intros available_courses Hgap. unfold recommend_training.
    rewrite Hsrc, Htgt. rewrite decide_False by done.
    apply sorted_filter. intros a b. apply Qgeb_same.
  - intros top_n min_skill_overlap Htop. unfold find_similar_jobs. rewrite Hsrc.
    rewrite slice_to_all.
    + apply (sorted_filter (λ x y : string * Q, Qgeb x.2 y.2) (λ e, Qeq_bool e.2 q)).
      intros a b. apply Qgeb_same.
    + rewrite sorted_perm.
      pose proof (similarities_length source_job_id (get_skill_ids source)
                    min_skill_overlap c).
      lia.
Qed.

Lemma equal_scores_keep_order_witness :
  catalog_get wide_scenario "A" = Some job_A
  ∧ catalog_get wide_scenario "B" = Some job_B
  ∧ (Z.of_nat (length wide_scenario) <= 5)%Z
  ∧ List.filter (λ e, Qeq_bool e.2 (1 # 3)) (find_similar_jobs wide_scenario "A" 5 0)
    = List.filter (λ e, Qeq_bool e.2 (1 # 3))
        (concat (map (similar_step "A" (get_skill_ids job_A) 0) wide_scenario)).
Proof.
  assert (catalog_get wide_scenario "A" = Some job_A) as HA by reflexivity.
  assert (catalog_get wide_scenario "B" = Some job_B) as HB by reflexivity.
  assert (Z.of_nat (length wide_scenario) <= 5)%Z as Htop by (simpl; lia).
  split_and!; [done..|].
  exact (proj2 (equal_scores_keep_order wide_scenario "A" "B" job_A job_B (1 # 3) HA HB)
           5%Z 0 Htop).
Defined.
End stable_order.

(** * Properties in machine arithmetic *)

(** ** trend_detector.py in machine arithmetic: float64 *)

Section float64_facts.
Import PrimFloat FloatOps FloatAxioms SpecFloat.
Import trend_detector_ieee.

Lemma float_zero (x : float) (s : bool) :
  Prim2SF x = S754_zero s → abs x = 0%float ∧ (x =? 0)%float = true
                            ∧ (0 <? x)%float = false.
Proof.
  intros Hx. split_and!.
  - apply Prim2SF_inj. by rewrite abs_spec, Hx.
  - rewrite eqb_spec, Hx. by destruct s.
  - rewrite ltb_spec, Hx. by destruct s.
Qed.

(** A finite float64 is a zero or has a mantissa. *)
Lemma is_finite_cases (c : float) :
  is_finite c = true →
  (∃ s, Prim2SF c = S754_zero s) ∨ (∃ s m e, Prim2SF c = S754_finite s m e).
Proof.
  unfold is_finite, is_nan, is_infinity.
  rewrite !eqb_spec, abs_spec.
  destruct (Prim2SF c) as [s|s| |s m e] eqn:Hc; simpl.
  - intros _. left. by exists s.
  - by destruct s.
  - done.
  - intros _. right. by exists s, m, e.
Qed.

(** The difference of a finite float64 and itself is 0.0. *)
Lemma sub_diag_finite (c : float) : is_finite c = true → (c - c)%float = 0%float.
Proof.
  intros [[s Hc]|(s & m & e & Hc)]%is_finite_cases; apply Prim2SF_inj;
    rewrite sub_spec, Hc.
  - by destruct s.
  - unfold SF64sub, SFsub. by rewrite Z.sub_diag.
Qed.

(** 0.0 divided by a finite float64 other than zero is a zero. *)
Lemma zero_div_finite (c : float) :
  is_finite c = true → (c =? 0)%float = false →
  ∃ s, Prim2SF (0 / c)%float = S754_zero s.
Proof.
  intros [[s Hc]|(s & m & e & Hc)]%is_finite_cases Hnz.
  - rewrite eqb_spec, Hc in Hnz. by destruct s.
  - rewrite div_spec, Hc. by eexists.
Qed.

(** The relative change of a constant finite series is a zero. *)
Lemma pct_change_constant (c : float) :
  is_finite c = true →
  abs (pct_change_of c c) = 0%float ∧ (0 <? pct_change_of c c)%float = false.
Proof.
  intros Hc. unfold pct_change_of. cbn [not_zero as_float subtract float64].
  destruct (c =? 0)%float eqn:Hz; simpl; [done|].
  rewrite (sub_diag_finite c Hc).
  destruct (zero_div_finite c Hc Hz) as (s & Hs).
  by destruct (float_zero _ _ Hs) as (? & _ & ?).
Qed.

(** Above zero is not at most zero. *)
Lemma ltb_zero_leb (t : float) : (0 <? t)%float = true → (t <=? 0)%float = false.
Proof.
  rewrite ltb_spec, leb_spec.
  change (Prim2SF 0) with (S754_zero false).
  by destruct (Prim2SF t) as [s|[]| |[] m e].
Qed.

(** 1 - x / ∞ is 1.0 or NaN, whatever x is. *)
Lemma one_minus_over_infinity (x : float) :
  (1 - x / infinity =? 0)%float = false.
Proof.
  rewrite eqb_spec, sub_spec, div_spec.
  change (Prim2SF infinity) with (S754_infinity false).
  change (Prim2SF 0) with (S754_zero false).
  change (Prim2SF 1) with (S754_finite false 4503599627370496 (-52)).
  by destruct (Prim2SF x) as [[]|[]| |[] m e].
Qed.

Lemma sum_loop_zeros (n : nat) : sum_loop 0 (replicate n 0%float) = 0%float.
Proof. unfold sum_loop. induction n as [|n IH]; simpl; [done|exact IH]. Qed.

Lemma add_blocks_zeros (blocks m : nat) :
  (8 * blocks <= m)%nat →
  add_blocks blocks (replicate 8 0%float) (replicate m 0%float) = replicate 8 0%float.
Proof.
  revert m. induction blocks as [|blocks IH]; intros m Hm; simpl; [done|].
  rewrite take_replicate, drop_replicate, Nat.min_l by lia.
  change (zip_with add (replicate 8 0%float) (replicate 8 0%float))
    with (replicate 8 0%float).
  apply IH. lia.
Qed.

Lemma block_sum_zeros (n : nat) :
  (8 <= n)%nat → block_sum (replicate n 0%float) = 0%float.
Proof.
  intros Hn. unfold block_sum. rewrite length_replicate.
  rewrite take_replicate, !drop_replicate, Nat.min_l by lia.
  pose proof (Nat.div_mod_eq n 8) as Hdiv.
  pose proof (Nat.mod_upper_bound n 8) as Hmod.
  rewrite add_blocks_zeros by lia.
  apply sum_loop_zeros.
Qed.

Lemma pairwise_sum_zeros (fuel n : nat) :
  pairwise_sum fuel (replicate n 0%float) = 0%float.
Proof.
  revert n. induction fuel as [|fuel IH]; intros n; simpl;
    rewrite length_replicate;
    destruct (n <? 8)%nat eqn:H8; try apply sum_loop_zeros;
    apply Nat.ltb_ge in H8;
    destruct (n <=? 128)%nat; try (by apply block_sum_zeros); try done.
  rewrite take_replicate, drop_replicate, !IH. reflexivity.
Qed.

Lemma np_sum_zeros (n : nat) : np_sum (replicate n 0%float) = 0%float.
Proof. unfold np_sum. by rewrite pairwise_sum_zeros. Qed.

(** The total sum of squares of a constant float64 series is 0.0 when
    the computed mean is the value. *)
Lemma ss_tot_constant (c : float) (values : list float) :
  is_finite c = true → Forall (λ v, v = c) values → np_mean values = c →
  ss_tot_of values = 0%float.
Proof.
  intros Hc Hall Hmean. unfold ss_tot_of. rewrite Hmean.
  assert (squared_deviations values c = replicate (length values) 0%float) as ->;
    [|apply np_sum_zeros].
  unfold squared_deviations. clear Hmean.
  induction Hall as [|v values -> _ IH]; [done|].
  cbn [map length replicate]. f_equal; [|exact IH].
  cbn [as_float float64]. by rewrite (sub_diag_finite c Hc).
Qed.

(** The standard deviation of a single value, as the program computes it
    from the squared deviation [q], is NaN or infinite. *)
Lemma single_std (q : float) :
  let std := sqrt ((0 + (0 + q)) / 0) in
  Prim2SF std = S754_nan ∨ Prim2SF std = S754_infinity false.
Proof.
  simpl. rewrite sqrt_spec, div_spec, !add_spec.
  change (Prim2SF 0) with (S754_zero false).
  destruct (Prim2SF q) as [[]|[]| |[] m e]; simpl; auto.
Qed.

(** The z-score of a single row never passes a threshold above zero. *)
Lemma single_zscore_mask (d q z_threshold : float) :
  (0 <? z_threshold)%float = true →
  let std := sqrt ((0 + (0 + q)) / 0) in
  (z_threshold <=? abs (if negb (std =? 0) then d / std else 0))%float = false.
Proof.
  intros Hthr std. pose proof (single_std q) as Hstd. fold std in Hstd.
  assert ((std =? 0)%float = false) as ->.
  { rewrite eqb_spec. by destruct Hstd as [-> | ->]. }
  simpl. revert Hthr. rewrite ltb_spec, leb_spec, abs_spec, div_spec.
  change (Prim2SF 0) with (S754_zero false).
  destruct Hstd as [-> | ->];
    destruct (Prim2SF z_threshold) as [[]|[]| |[] mt et],
             (Prim2SF d) as [[]|[]| |[] md ed]; done.
Qed.
End float64_facts.

(** ** trend_detector.py in machine arithmetic: [detect_trends] *)

Section machine_trend_facts.
Import PrimFloat.
Import trend_detector_ieee.
Context {V : Type} `{Dtype V}.
Variable lstsq : list float → list float → outcome (float * float).

(** What a result of [_analyze_series] holds. *)
Lemma machine_series_result (self : TrendDetector) (values : list V)
    (dates : list Z) (r : TrendResult) :
  _analyze_series lstsq self values dates = Ok (Some r) →
  ∃ start_val rest slope intercept,
    values = start_val :: rest
    ∧ (min_periods self <= Z.of_nat (length values))%Z
    ∧ (2 <= length values)%nat
    ∧ lstsq (np_arange (length values)) (map as_float values) = Ok (slope, intercept)
    ∧ let pct_change := pct_change_of start_val (List.last values start_val) in
      direction r = direction_of self pct_change
      ∧ magnitude r = abs pct_change
      ∧ confidence r
        = r_squared_of (ss_res_of values slope intercept) (ss_tot_of values)
      ∧ start_value r = as_float start_val
      ∧ end_value r = as_float (List.last values start_val).
Proof.
  unfold _analyze_series.
  destruct (Z.of_nat (length values) <? min_periods self)%Z eqn:Hlen; [done|].
  apply Z.ltb_ge in Hlen.
  destruct values as [|start_val rest]; [done|].
  destruct dates as [|first_date dates]; [done|].
  destruct rest as [|v2 rest]; [done|].
  destruct (np_polyfit _ _ _) as [[slope intercept]|] eqn:Hfit; [|done].
  intros [= <-]. exists start_val, (v2 :: rest), slope, intercept.
  split_and!; try done. simpl. lia.
Qed.

(** From two observations on the function returns what the solver
    returns. *)
Lemma machine_series_returns (self : TrendDetector) (values : list V)
    (dates : list Z) (fit : float * float) :
  (2 <= length values)%nat →
  length dates = length values →
  (min_periods self <= Z.of_nat (length values))%Z →
  lstsq (np_arange (length values)) (map as_float values) = Ok fit →
  ∃ r, _analyze_series lstsq self values dates = Ok (Some r).
Proof.
  intros H2 Hdates Hmin Hfit. unfold _analyze_series.
  rewrite (proj2 (Z.ltb_ge _ _)) by done.
  destruct values as [|v1 [|v2 values]]; simpl in H2; try lia.
  destruct dates as [|d1 dates]; [done|].
  assert (np_polyfit lstsq (np_arange (length (v1 :: v2 :: values)))
            (map as_float (v1 :: v2 :: values)) = Ok fit) as ->.
  { rewrite <- Hfit. reflexivity. }
  destruct fit as [slope intercept]. eauto.
Qed.

Lemma machine_last {A} (l : list A) (d : A) :
  l ≠ [] → last l = Some (List.last l d).
Proof.
  induction l as [|x l IH]; [done|]. intros _.
  destruct l as [|y l]; [done|].
  change (last (x :: y :: l)) with (last (y :: l)).
  change (List.last (x :: y :: l) d) with (List.last (y :: l) d).
  by apply IH.
Qed.

Lemma machine_direction_cases (self : TrendDetector) (pct_change : float) :
  direction_of self pct_change = STABLE
  ∨ direction_of self pct_change = INCREASING
  ∨ direction_of self pct_change = DECREASING.
Proof.
  unfold direction_of. destruct (_ <? _)%float; [by left|].
  destruct (_ <? _)%float; [right; by left|right; by right].
Qed.

Lemma machine_elem_of_set_date (df : DataFrame V) (r : Row V) :
  r ∈ set_date df → ∃ r0, r0 ∈ df ∧ value r = value r0 ∧ group r = group r0.
Proof.
  unfold set_date. rewrite list_elem_of_In, in_map_iff.
  intros (r0 & <- & Hin). exists r0. by rewrite list_elem_of_In.
Qed.

Lemma machine_elem_of_groupby (df : DataFrame V) (k : list string) (g : DataFrame V) :
  (k, g) ∈ groupby df → g = List.filter (λ r, bool_decide (group r = k)) df.
Proof.
  unfold groupby. rewrite list_elem_of_In, in_map_iff.
  by intros (k' & [= -> ->] & _).
Qed.

(** Where an entry of the result of the loop comes from. *)
Lemma machine_trends_of_groups_lookup (self : TrendDetector)
    (grouped : list (list string * DataFrame V))
    (init results : gmap string TrendResult) (key : string) (r : TrendResult) :
  trends_of_groups lstsq self grouped init = Ok results →
  results !! key = Some r →
  init !! key = Some r
  ∨ ∃ group_name group_df,
      (group_name, group_df) ∈ grouped
      ∧ key = group_key group_name
      ∧ _analyze_series lstsq self (values_of group_df) (dates_of group_df)
        = Ok (Some r).
Proof.
  revert init. induction grouped as [|[name g] grouped IH]; intros init; simpl.
  - intros [= ->]. by left.
  - assert (∀ init',
      trends_of_groups lstsq self grouped init' = Ok results →
      results !! key = Some r →
      (init' !! key = Some r → init !! key = Some r
         ∨ ∃ group_name group_df,
             (group_name, group_df) ∈ (name, g) :: grouped
             ∧ key = group_key group_name
             ∧ _analyze_series lstsq self (values_of group_df) (dates_of group_df)
               = Ok (Some r)) →
      init !! key = Some r
      ∨ ∃ group_name group_df,
          (group_name, group_df) ∈ (name, g) :: grouped
          ∧ key = group_key group_name
          ∧ _analyze_series lstsq self (values_of group_df) (dates_of group_df)
            = Ok (Some r)) as Hrest.
    { intros init' Hrun Hlook Hinit.
      destruct (IH init' Hrun Hlook) as [?|(k' & g' & Hin & ?)]; [by apply Hinit|].
      right. exists k', g'. split; [by right|done]. }
    destruct (Z.of_nat (length g) <? min_periods self)%Z eqn:Hlen.
    { intros Hrun Hlook. apply (Hrest init Hrun Hlook). by left. }
    destruct (_analyze_series lstsq self (values_of g) (dates_of g))
      as [[result|]|] eqn:Han; [| |done].
    + intros Hrun Hlook. apply (Hrest _ Hrun Hlook).
      rewrite lookup_insert. case_decide as Hkey; [|by left].
      intros [= ->]. right. exists name, g. split; [left|done].
    + intros Hrun Hlook. apply (Hrest init Hrun Hlook). by left.
Qed.

(** Every entry of the result of [detect_trends] is the analysis of rows
    of the table that belong to its key. *)
Lemma machine_detect_trends_lookup (self : TrendDetector) (df : DataFrame V)
    (group_cols : list string) (results : gmap string TrendResult)
    (key : string) (r : TrendResult) :
  detect_trends lstsq self df group_cols = Ok results →
  results !! key = Some r →
  ∃ values dates,
    _analyze_series lstsq self values dates = Ok (Some r)
    ∧ (length values <= length df)%nat
    ∧ ∀ v, v ∈ values → ∃ row, row ∈ series_rows df group_cols key ∧ value row = v.
Proof.
  unfold detect_trends. destruct (_ || _); [by intros [= <-]|].
  set (s := sort_values group_cols (set_date df)).
  assert (∀ row, row ∈ s → ∃ r0, r0 ∈ df ∧ value row = value r0 ∧ group row = group r0)
    as Hback.
  { intros row Hrow. unfold s, sort_values in Hrow. rewrite elem_of_sorted in Hrow.
    by apply machine_elem_of_set_date. }
  assert (length s = length df) as Hlen.
  { unfold s, sort_values, set_date. by rewrite sorted_perm, length_map. }
  destruct group_cols as [|col cols].
  - destruct (_analyze_series _ _ _ _) as [[result|]|] eqn:Han; [| |done].
    2: by intros [= <-].
    intros [= <-]. rewrite lookup_singleton. case_decide; [|done].
    intros [= ->]. exists (values_of s), (dates_of s).
    split_and!; [done|unfold values_of; by rewrite length_map, Hlen|].
    intros v (row & <- & Hrow%list_elem_of_In)%list_elem_of_In%in_map_iff.
    destruct (Hback row Hrow) as (r0 & Hr0 & Hv & _). by exists r0.
  - intros Hrun Hlook.
    destruct (machine_trends_of_groups_lookup _ _ _ _ _ _ Hrun Hlook)
      as [?|(name & g & Hin & -> & Han)]; [done|].
    apply machine_elem_of_groupby in Hin.
    exists (values_of g), (dates_of g). split_and!; [done| |].
    + unfold values_of. rewrite length_map, Hin, <- Hlen. apply filter_length_le.
    + intros v (row & <- & Hrow%list_elem_of_In)%list_elem_of_In%in_map_iff.
      rewrite Hin in Hrow.
      apply elem_of_bool_filter in Hrow as [Hrow Hname%bool_decide_eq_true].
      destruct (Hback row Hrow) as (r0 & Hr0 & Hv & Hg). exists r0.
      split; [|done]. apply elem_of_bool_filter. split; [done|].
      apply bool_decide_eq_true. by rewrite <- Hg, Hname.
Qed.
(** The ungrouped call on a table that is long enough has the one entry
    "overall", the analysis of the sorted table. *)
Lemma machine_overall (self : TrendDetector) (df : DataFrame V)
    (results : gmap string TrendResult) :
  detect_trends lstsq self df [] = Ok results →
  df ≠ [] →
  (min_periods self <= Z.of_nat (length df))%Z →
  ∃ r, results = {[ "overall" := r ]}
       ∧ _analyze_series lstsq self (values_of (sort_values [] (set_date df)))
           (dates_of (sort_values [] (set_date df))) = Ok (Some r).
Proof.
  intros Hrun Hne Hmin. unfold detect_trends in Hrun.
  rewrite bool_decide_eq_false_2 in Hrun by done.
  rewrite (proj2 (Z.ltb_ge _ _)) in Hrun by done. simpl in Hrun.
  destruct (_analyze_series _ _ _ _) as [[r|]|] eqn:Han; [| |done].
  - injection Hrun as <-. by exists r.
  - exfalso. unfold _analyze_series in Han.
    set (s := sort_values [] (set_date df)) in *.
    assert (length (values_of s) = length df) as Hlen.
    { unfold s, values_of, sort_values, set_date.
      by rewrite length_map, sorted_perm, length_map. }
    rewrite Hlen, (proj2 (Z.ltb_ge _ _)) in Han by done.
    destruct (values_of s), (dates_of s); try done.
    by destruct (np_polyfit _ _ _) as [[]|].
Qed.

Lemma values_of_constant (df : DataFrame V) (c : V) :
  (∀ row, row ∈ df → value row = c) →
  values_of (sort_values [] (set_date df)) = replicate (length df) c.
Proof.
  intros Hc. symmetry. apply replicate_as_Forall. split.
  - unfold values_of, sort_values, set_date.
    by rewrite length_map, sorted_perm, length_map.
  - apply Forall_forall. intros v Hv.
    assert (v ∈ values_of (sort_values [] (set_date df))) as Hin
      by first [exact Hv | by apply list_elem_of_In].
    apply list_elem_of_In, in_map_iff in Hin as (row & <- & Hrow%list_elem_of_In).
    unfold sort_values in Hrow. rewrite elem_of_sorted in Hrow.
    apply machine_elem_of_set_date in Hrow as (r0 & Hr0 & -> & _).
    symmetry. by apply Hc.
Qed.
End machine_trend_facts.

Section machine_trend_claims.
Import PrimFloat.
Import trend_detector_ieee.

(** C4, amended.  Whenever [_analyze_series] produces a TrendResult, its
    direction is STABLE if |pct_change| < threshold, else INCREASING if
    pct_change > 0, else DECREASING, and its magnitude is |pct_change|,
    where pct_change is what the program computes: 0 when the start value
    is zero, else the float64 quotient of end − start by start, the
    difference taken in the dtype of the column (rounded for float64,
    wrapping for int64).  A series of at least [min_periods] and at least
    two observations has a TrendResult when [np.polyfit] returns a fit;
    and [detect_trends] never produces VOLATILE. *)
Theorem trend_direction_classification {V : Type} `{Dtype V}
    (lstsq : list float → list float → outcome (float * float))
    (self : TrendDetector) :
  (∀ (values : list V) dates r,
     _analyze_series lstsq self values dates = Ok (Some r) →
     ∃ start_val end_val pct_change,
       head values = Some start_val
       ∧ last values = Some end_val
       ∧ pct_change
         = (if not_zero start_val
            then (as_float (subtract end_val start_val) / as_float start_val)%float
            else 0%float)
       ∧ magnitude r = abs pct_change
       ∧ direction r
         = (if (abs pct_change <? threshold self)%float then STABLE
            else if (0 <? pct_change)%float then INCREASING
            else DECREASING))
  ∧ (∀ (values : list V) dates fit,
       (2 <= length values)%nat →
       length dates = length values →
       (min_periods self <= Z.of_nat (length values))%Z →
       lstsq (np_arange (length values)) (map as_float values) = Ok fit →
       ∃ r, _analyze_series lstsq self values dates = Ok (Some r))
  ∧ (∀ (df : DataFrame V) group_cols results key r,
       detect_trends lstsq self df group_cols = Ok results →
       results !! key = Some r →
       direction r ≠ VOLATILE).
Proof.
  split_and!.
  - intros values dates r
      (start_val & rest & _ & _ & Hvalues & _ & _ & _ & Hdir & Hmag & _)%machine_series_result.
    exists start_val, (List.last values start_val),
      (pct_change_of start_val (List.last values start_val)).
    split_and!; [by rewrite Hvalues| |done|done|done].
    apply machine_last. by rewrite Hvalues.
  - intros values dates fit. apply machine_series_returns.
  - intros df group_cols results key r Hrun Hlook.
    destruct (machine_detect_trends_lookup _ _ _ _ _ _ _ Hrun Hlook)
      as (values & dates & Han & _).
    destruct (machine_series_result _ _ _ _ _ Han)
      as (start_val & rest & _ & _ & _ & _ & _ & _ & Hdir & _).
    rewrite Hdir.
    match goal with |- direction_of ?s ?p ≠ _ =>
      destruct (machine_direction_cases s p) as [-> | [-> | ->]]; discriminate end.
Qed.

Lemma trend_direction_classification_witness :
  (2 <= length rising_values)%nat
  ∧ length [1; 2; 3; 4]%Z = length rising_values
  ∧ (min_periods (mkTrendDetector 3 tenth) <= Z.of_nat (length rising_values))%Z
  ∧ solver_returning (0x1.4cccccccccccdp-1, 0x1.f333333333333p+1)%float
      (np_arange (length rising_values)) (map as_float rising_values)
    = Ok (0x1.4cccccccccccdp-1, 0x1.f333333333333p+1)%float
  ∧ ∃ r, _analyze_series (solver_returning (0x1.4cccccccccccdp-1, 0x1.f333333333333p+1)%float)
           (mkTrendDetector 3 tenth) rising_values [1; 2; 3; 4]%Z
         = Ok (Some r).
Proof.
  assert (2 <= length rising_values)%nat as H2 by (simpl; lia).
  assert (length [1; 2; 3; 4]%Z = length rising_values) as Hdates by reflexivity.
  assert (min_periods (mkTrendDetector 3 tenth)
          <= Z.of_nat (length rising_values))%Z as Hmin by (simpl; lia).
  assert (solver_returning (0x1.4cccccccccccdp-1, 0x1.f333333333333p+1)%float
            (np_arange (length rising_values)) (map as_float rising_values)
          = Ok (0x1.4cccccccccccdp-1, 0x1.f333333333333p+1)%float) as Hfit by reflexivity.
  split_and!; [done..|].
  exact (proj1 (proj2 (trend_direction_classification
                         (solver_returning (0x1.4cccccccccccdp-1, 0x1.f333333333333p+1)%float)
                         (mkTrendDetector 3 tenth)))
           rising_values [1; 2; 3; 4]%Z _ H2 Hdates Hmin Hfit).
Defined.

(** The scenario of the specification: 4.0, 4.5, 5.0, 6.0 changes by one
    half and is INCREASING, whatever line is fitted. *)
Example rising_series_machine
    (lstsq : list float → list float → outcome (float * float)) (r : TrendResult) :
  _analyze_series lstsq (mkTrendDetector 3 tenth) rising_values [1; 2; 3; 4]%Z
  = Ok (Some r) →
  direction r = INCREASING ∧ magnitude r = 0x1p-1%float.
Proof.
  intros (start_val & rest & _ & _ & Hvalues & _ & _ & _ & Hdir & Hmag & _)%machine_series_result.
  injection Hvalues as <- _. rewrite Hdir, Hmag. by vm_compute.
Qed.

(** C4 as stated fails.  A series of [min_periods] observations need not
    have a TrendResult: with min_periods 1 the single observation 5.0
    makes [np.polyfit] raise.  And the change is not the quotient of the
    mathematical difference: on the int64 column 5·10^18, 0, −5·10^18 the
    difference −10^19 wraps to 8446744073709551616, so the falling series
    is INCREASING by 1.689.... *)
Lemma trend_needs_two_observations :
  (∀ lstsq : list float → list float → outcome (float * float),
     _analyze_series lstsq (mkTrendDetector 1 tenth) [5%float] [1%Z]
     = Raise LinAlgError)
  ∧ (∀ (lstsq : list float → list float → outcome (float * float)) r,
       _analyze_series lstsq (mkTrendDetector 3 tenth)
         [5000000000000000000; 0; -5000000000000000000]%Z [1; 2; 3]%Z
       = Ok (Some r) →
       direction r = INCREASING ∧ magnitude r = 0x1.b07929f6da558p+0%float).
Proof.
  split.
  - intros lstsq. reflexivity.
  - intros lstsq r
      (start_val & rest & _ & _ & Hvalues & _ & _ & _ & Hdir & Hmag & _)%machine_series_result.
    injection Hvalues as <- _. rewrite Hdir, Hmag. by vm_compute.
Qed.



End machine_trend_claims.

(** ** trend_detector.py in machine arithmetic: [detect_shocks] *)

Section machine_shock_facts.
Import PrimFloat FloatOps FloatAxioms SpecFloat.
Import trend_detector_ieee.
Context {V : Type} `{Dtype V}.

Lemma machine_values_of_set_date (df : DataFrame V) :
  values_of (set_date df) = values_of df.
Proof. unfold values_of, set_date. rewrite map_map. by apply map_ext. Qed.

Lemma machine_zscores_length (g : DataFrame V) :
  length (calculate_zscores g) = length g.
Proof.
  unfold calculate_zscores, values_of. destruct (negb _); by rewrite !length_map.
Qed.

Lemma machine_zscores (df : DataFrame V) :
  calculate_zscores df = map (λ row, machine_z df (value row)) df.
Proof.
  unfold calculate_zscores, machine_z, values_of.
  destruct (negb _); by rewrite map_map.
Qed.

(** The table with its z-score column, and the result of the ungrouped
    call. *)
Lemma machine_ungrouped (df : DataFrame V) (z_threshold : float) :
  df ≠ [] →
  detect_shocks df [] z_threshold
  = Ok (sort_by_z_score
          (map annotate
             (List.filter (shock_mask z_threshold)
                (map (λ row, mkRow (group row) (to_datetime (date row)) (value row)
                               (Some (machine_z df (value row)))
                               (shock_magnitude row) (shock_direction row)) df)))).
Proof.
  intros Hne. unfold detect_shocks. rewrite bool_decide_eq_false_2 by done.
  unfold zscore_column, set_z_score.
  rewrite machine_zscores_length, Nat.eqb_refl. do 3 f_equal.
  rewrite machine_zscores. unfold machine_z.
  rewrite machine_values_of_set_date. unfold set_date.
  generalize (np_std (values_of df)) (np_mean (values_of df)). intros std mean.
  clear. induction df as [|r df IH]; simpl; [done|]. by rewrite IH.
Qed.

Lemma machine_filter_none {A} (f : A → bool) (l : list A) :
  (∀ x, x ∈ l → f x = false) → List.filter f l = [].
Proof.
  induction l as [|x l IH]; simpl; [done|]. intros Hall.
  rewrite (Hall x) by left. apply IH. intros y Hy. apply Hall. by right.
Qed.

Lemma machine_filter_all {A} (f : A → bool) (l : list A) :
  (∀ x, x ∈ l → f x = true) → List.filter f l = l.
Proof.
  induction l as [|x l IH]; simpl; [done|]. intros Hall.
  rewrite (Hall x) by left. f_equal. apply IH. intros y Hy. apply Hall. by right.
Qed.

Lemma machine_filter_map_length {A B} (f : A → B) (p : B → bool) (l : list A) :
  length (List.filter p (map f l)) = length (List.filter (λ x, p (f x)) l).
Proof.
  induction l as [|x l IH]; simpl; [done|]. destruct (p (f x)); simpl; by rewrite IH.
Qed.

Lemma leb_abs_nan (t : float) : (t <=? abs nan)%float = false.
Proof.
  rewrite leb_spec, abs_spec. change (Prim2SF nan) with S754_nan.
  by destruct (Prim2SF t) as [[]|[]| |[] m e].
Qed.

(** What a group leaves in its cell of the z-score column never passes a
    threshold above zero: an array of one z-score is that of a single
    value, any other array is not a number. *)
Lemma machine_array_cell_mask (g : DataFrame V) (z_threshold : float) :
  (0 <? z_threshold)%float = true →
  (z_threshold <=? abs (array_cell (calculate_zscores g)))%float = false.
Proof.
  intros Hthr. destruct g as [|r [|r' g]].
  - pose proof (machine_zscores_length (@nil (Row V))) as Hlen.
    destruct (calculate_zscores []); [apply leb_abs_nan|done].
  - pose proof (single_zscore_mask
                  (as_float (value r) - np_mean [value r])
                  ((as_float (value r) - np_mean [value r])
                   * (as_float (value r) - np_mean [value r]))
                  z_threshold Hthr) as Hmask.
    simpl in Hmask. unfold calculate_zscores.
    change (np_std (values_of [r]))
      with (sqrt ((0 + (0 + (as_float (value r) - np_mean [value r])
                            * (as_float (value r) - np_mean [value r]))) / 0)).
    change (values_of [r]) with [value r].
    by destruct (negb _).
  - pose proof (machine_zscores_length (r :: r' :: g)) as Hlen.
    destruct (calculate_zscores (r :: r' :: g)) as [|z [|z' zs]]; try done.
    apply leb_abs_nan.
Qed.

Lemma machine_set_z_score_z_of (df dfz : DataFrame V) (zs : list float) (r : Row V) :
  set_z_score df zs = Ok dfz → r ∈ dfz → z_of r ∈ zs.
Proof.
  unfold set_z_score. destruct (length zs =? length df)%nat; [|done].
  intros [= <-]. revert zs.
  induction df as [|r0 df IH]; intros [|z zs]; simpl;
    try by intros ?%elem_of_nil.
  rewrite !elem_of_cons. intros [-> | Hin]; [by left|]. right. by apply IH.
Qed.

(** With grouping and a threshold above zero nothing is emitted. *)
Lemma machine_grouped_none (df out : DataFrame V) (col : string)
    (cols : list string) (z_threshold : float) :
  (0 <? z_threshold)%float = true →
  detect_shocks df (col :: cols) z_threshold = Ok out → out = [].
Proof.
  intros Hthr. unfold detect_shocks.
  destruct (bool_decide (df = [])); [by intros [= <-]|].
  destruct (set_z_score _ _) as [dfz|] eqn:Hset; [|done].
  intros [= <-]. rewrite machine_filter_none; [done|].
  intros r Hr. unfold shock_mask.
  pose proof (machine_set_z_score_z_of _ _ _ _ Hset Hr) as Hz.
  unfold zscore_column, grouped_zscores in Hz. rewrite map_map in Hz.
  apply list_elem_of_In, in_map_iff in Hz as ([k g] & <- & _).
  by apply machine_array_cell_mask.
Qed.
End machine_shock_facts.

Section machine_shock_claims.
Import PrimFloat FloatOps FloatAxioms SpecFloat.
Import trend_detector_ieee.

(** C6, amended.  In a group whose values have a computed sample
    standard deviation of exactly 0.0 every z-score is 0.  With a
    z_threshold above zero the ungrouped call on a table with such a
    standard deviation emits no row, so a row that it emits shows that the
    standard deviation is not 0.0 (it may be NaN), and the grouped call
    emits no row of any group; with a z_threshold of zero or less the
    ungrouped call emits every row of such a table. *)
Theorem zero_variance_group_no_shocks {V : Type} `{Dtype V}
    (df : DataFrame V) (z_threshold : float) :
  (∀ g : DataFrame V,
     (np_std (values_of g) =? 0)%float = true →
     calculate_zscores g = map (λ _, 0%float) g)
  ∧ ((np_std (values_of df) =? 0)%float = true →
     (0 <? z_threshold)%float = true →
     detect_shocks df [] z_threshold = Ok [])
  ∧ (∀ out row,
       (0 <? z_threshold)%float = true →
       detect_shocks df [] z_threshold = Ok out →
       row ∈ out →
       (np_std (values_of df) =? 0)%float = false)
  ∧ (∀ col cols out,
       (0 <? z_threshold)%float = true →
       detect_shocks df (col :: cols) z_threshold = Ok out →
       out = [])
  ∧ ((np_std (values_of df) =? 0)%float = true →
     (z_threshold <=? 0)%float = true →
     ∃ out, detect_shocks df [] z_threshold = Ok out ∧ length out = length df).
Proof.
  assert (∀ g : DataFrame V,
            (np_std (values_of g) =? 0)%float = true →
            calculate_zscores g = map (λ _, 0%float) g) as Hzeros.
  { intros g Hstd. unfold calculate_zscores. rewrite Hstd. simpl.
    unfold values_of. by rewrite map_map. }
  assert ((np_std (values_of df) =? 0)%float = true →
          (0 <? z_threshold)%float = true →
          detect_shocks df [] z_threshold = Ok []) as Hnone.
  { intros Hstd Hthr. destruct (decide (df = [])) as [->|Hne]; [done|].
    rewrite (machine_ungrouped df z_threshold Hne).
    rewrite machine_filter_none; [done|].
    intros r (row & <- & _)%list_elem_of_In%in_map_iff.
    unfold shock_mask, z_of, machine_z. simpl. rewrite Hstd. simpl.
    by apply ltb_zero_leb. }
  split_and!; [exact Hzeros|exact Hnone| | |].
  - intros out row Hthr Hrun Hrow.
    destruct (np_std (values_of df) =? 0)%float eqn:Hstd; [|done].
    rewrite (Hnone eq_refl Hthr) in Hrun. injection Hrun as <-.
    by apply elem_of_nil in Hrow.
  - intros col cols out Hthr. by apply machine_grouped_none.
  - intros Hstd Hthr. destruct (decide (df = [])) as [->|Hne]; [by exists []|].
    rewrite (machine_ungrouped df z_threshold Hne). eexists. split; [done|].
    unfold sort_by_z_score. rewrite sorted_perm, length_map.
    rewrite machine_filter_all; [by rewrite length_map|].
    intros r (row & <- & _)%list_elem_of_In%in_map_iff.
    unfold shock_mask, z_of, machine_z. simpl. by rewrite Hstd.
Qed.

Lemma zero_variance_group_no_shocks_witness :
  (np_std (values_of (constant_table 4 3%float)) =? 0)%float = true
  ∧ (0 <? 2)%float = true
  ∧ detect_shocks (constant_table 4 3%float) [] 2 = Ok [].
Proof.
  assert ((np_std (values_of (constant_table 4 3%float)) =? 0)%float = true)
    as Hstd by reflexivity.
  assert ((0 <? 2)%float = true) as Hthr by reflexivity.
  split_and!; [done..|].
  exact (proj1 (proj2 (zero_variance_group_no_shocks (constant_table 4 3%float) 2))
           Hstd Hthr).
Defined.

(** C6 as stated fails.  The four observations 3.0 have the standard
    deviation 0.0, and with z_threshold 0.0 each of the four rows is
    emitted (|0| >= 0).  The six observations 0.1, a group without
    variance, have the mean 0.09999999999999999 and the standard
    deviation 1.52e-17 in float64: each has the z-score 0.9128709291752769
    and each is emitted at z_threshold 0.5. *)
Lemma zero_variance_counterexamples :
  ((np_std (values_of (constant_table 4 3%float)) =? 0)%float = true
   ∧ ∃ out, detect_shocks (constant_table 4 3%float) [] 0 = Ok out
            ∧ length out = 4%nat)
  ∧ (np_std (values_of (constant_table 6 tenth)) = 0x1.186f174f88472p-56%float
     ∧ ∃ out, detect_shocks (constant_table 6 tenth) [] 0x1p-1 = Ok out
              ∧ length out = 6%nat
              ∧ Forall (λ r, z_score r = Some 0x1.d363d1848dcbfp-1%float) out).
Proof.
  split; (split; [by vm_compute|]); eexists; (split; [vm_compute; reflexivity|]).
  - reflexivity.
  - split; [reflexivity|]. repeat constructor.
Qed.
End machine_shock_claims.

Section machine_shock_order.
Import PrimFloat FloatOps FloatAxioms SpecFloat.
Import trend_detector_ieee.

Lemma SFleb_total (a b : spec_float) :
  a ≠ S754_nan → b ≠ S754_nan → SFleb a b = false → SFleb b a = true.
Proof.
  unfold SFleb, SFcompare.
  destruct a as [[]|[]| |[] m1 e1], b as [[]|[]| |[] m2 e2]; try done; intros _ _;
    rewrite (Z.compare_antisym e1 e2);
    change (Pos.compare_cont Eq m2 m1) with (Pos.compare m2 m1);
    change (Pos.compare_cont Eq m1 m2) with (Pos.compare m1 m2);
    rewrite (Pos.compare_antisym m1 m2);
    by destruct (e1 ?= e2)%Z, (m1 ?= m2)%positive.
Qed.

Lemma SFleb_trans (a b c : spec_float) :
  SFleb a b = true → SFleb b c = true → SFleb a c = true.
Proof.
  unfold SFleb, SFcompare.
  destruct a as [[]|[]| |[] m1 e1], b as [[]|[]| |[] m2 e2],
    c as [[]|[]| |[] m3 e3]; try done;
    change (Pos.compare_cont Eq m1 m2) with (Pos.compare m1 m2);
    change (Pos.compare_cont Eq m2 m3) with (Pos.compare m2 m3);
    change (Pos.compare_cont Eq m1 m3) with (Pos.compare m1 m3);
    destruct (Z.compare_spec e1 e2), (Z.compare_spec e2 e3),
      (Z.compare_spec e1 e3); try done; try lia;
    destruct (Pos.compare_spec m1 m2), (Pos.compare_spec m2 m3),
      (Pos.compare_spec m1 m3); try done; try lia.
Qed.

Lemma is_nan_spec (x : float) : is_nan x = true ↔ Prim2SF x = S754_nan.
Proof.
  unfold is_nan. rewrite eqb_spec. unfold SFeqb, SFcompare.
  destruct (Prim2SF x) as [[]|[]| |[] m e]; try (split; done);
    rewrite Z.compare_refl; change (Pos.compare_cont Eq m m) with (Pos.compare m m);
    rewrite Pos.compare_refl; split; done.
Qed.

Lemma machine_z_before_total (a b : float) : z_before a b = false → z_before b a = true.
Proof.
  unfold z_before. destruct (is_nan b) eqn:Hb; [done|].
  destruct (is_nan a) eqn:Ha; [done|]. rewrite !leb_spec.
  apply SFleb_total; intros Hnan%is_nan_spec; congruence.
Qed.

Lemma machine_z_before_trans (a b c : float) :
  z_before a b = true → z_before b c = true → z_before a c = true.
Proof.
  unfold z_before. destruct (is_nan c) eqn:Hc; [done|].
  destruct (is_nan b) eqn:Hb; [done|]. destruct (is_nan a) eqn:Ha; [done|].
  rewrite !leb_spec. intros Hba Hcb. by eapply SFleb_trans.
Qed.

Lemma leb_not_nan (t x : float) : (t <=? x)%float = true → is_nan x = false.
Proof.
  rewrite leb_spec. intros Hle. destruct (is_nan x) eqn:Hx; [|done].
  apply is_nan_spec in Hx. rewrite Hx in Hle.
  by destruct (Prim2SF t).
Qed.

Lemma abs_nan (x : float) : is_nan (abs x) = false → is_nan x = false.
Proof.
  intros Habs. destruct (is_nan x) eqn:Hx; [|done].
  apply is_nan_spec in Hx.
  assert (is_nan (abs x) = true) as Hn; [|congruence].
  apply is_nan_spec. by rewrite abs_spec, Hx.
Qed.

(** X13.  Without grouping [detect_shocks] returns exactly the rows whose
    z-score, as the program computes it in float64 ((value − mean) / std,
    or 0 when the computed std is 0.0), has an absolute value of
    z_threshold or more: each with its date converted and the columns
    z_score, shock_magnitude (|z|) and shock_direction (positive when
    z > 0), as many as the table has such rows, and no z-score is below
    that of a later row. *)
Theorem shocks_are_the_outliers {V : Type} `{Dtype V}
    (df : DataFrame V) (z_threshold : float) :
  df ≠ [] →
  ∃ out,
    detect_shocks df [] z_threshold = Ok out
    ∧ (∀ r, r ∈ out ↔
         ∃ row, row ∈ df
           ∧ (z_threshold <=? abs (machine_z df (value row)))%float = true
           ∧ r = mkRow (group row) (Timestamp (timestamp (date row))) (value row)
                   (Some (machine_z df (value row)))
                   (Some (abs (machine_z df (value row))))
                   (Some (if (0 <? machine_z df (value row))%float
                          then "positive" else "negative")))
    ∧ length out
      = length (List.filter
                  (λ row, (z_threshold <=? abs (machine_z df (value row)))%float) df)
    ∧ StronglySorted (λ r1 r2, (z_of r2 <=? z_of r1)%float = true) out.
Proof.
  intros Hne. rewrite (machine_ungrouped df z_threshold Hne).
  eexists. split; [done|].
  set (dfz := map _ df).
  assert (∀ r, r ∈ sort_by_z_score (map annotate (List.filter (shock_mask z_threshold) dfz)) ↔
            ∃ row, row ∈ df
              ∧ (z_threshold <=? abs (machine_z df (value row)))%float = true
              ∧ r = mkRow (group row) (Timestamp (timestamp (date row))) (value row)
                      (Some (machine_z df (value row)))
                      (Some (abs (machine_z df (value row))))
                      (Some (if (0 <? machine_z df (value row))%float
                             then "positive" else "negative"))) as Hrows.
  { intros r. unfold sort_by_z_score. rewrite elem_of_sorted. split.
    - intros (r0 & <- & [Hr0 Hmask]%list_elem_of_In%elem_of_bool_filter)%list_elem_of_In%in_map_iff.
      apply list_elem_of_In, in_map_iff in Hr0 as (row & <- & Hrow%list_elem_of_In).
      by exists row.
    - intros (row & Hrow & Hz & ->). apply list_elem_of_In, in_map_iff.
      eexists (mkRow (group row) (to_datetime (date row)) (value row)
                 (Some (machine_z df (value row)))
                 (shock_magnitude row) (shock_direction row)).
      split; [done|]. apply list_elem_of_In, elem_of_bool_filter. split; [|done].
      apply list_elem_of_In, in_map_iff. exists row. split; [done|].
      by apply list_elem_of_In. }
  split_and!; [exact Hrows| |].
  - unfold sort_by_z_score. rewrite sorted_perm, length_map. unfold dfz.
    by rewrite machine_filter_map_length.
  - eapply StronglySorted_impl_elem;
      [|apply (sorted_strongly (λ r1 r2 : Row V, z_before (z_of r1) (z_of r2)))].
    + intros a b _ (row & _ & Hz & ->)%Hrows. unfold z_before, z_of. simpl.
      rewrite (abs_nan _ (leb_not_nan _ _ Hz)). by destruct (is_nan _).
    + intros x y. apply machine_z_before_total.
    + intros x y z. apply machine_z_before_trans.
Qed.

Lemma shocks_are_the_outliers_witness :
  tenths_table ≠ []
  ∧ ∃ out, detect_shocks tenths_table [] 1 = Ok out ∧ length out = 1%nat.
Proof.
  assert (tenths_table ≠ []) as Hne by done.
  split; [exact Hne|].
  destruct (shocks_are_the_outliers tenths_table 1%float Hne)
    as (out & Hrun & _ & Hlen & _).
  exists out. split; [exact Hrun|]. rewrite Hlen. reflexivity.
Defined.

(** The observations 0.0, 0.1, 0.2 at z_threshold 1.0: the computed
    z-scores are -1.0000000000000002, -1.39e-16 and 0.9999999999999999,
    and the one row that is emitted is the first. *)
Example rounded_zscores :
  detect_shocks tenths_table [] 1
  = Ok [ mkRow ["A"] (Timestamp 1) 0%float (Some (-0x1.0000000000001p+0)%float)
           (Some 0x1.0000000000001p+0%float) (Some "negative") ]
  ∧ calculate_zscores tenths_table
    = [ (-0x1.0000000000001p+0)%float; (-0x1.4p-53)%float;
        0x1.fffffffffffffp-1%float ].
Proof. split; reflexivity. Qed.
End machine_shock_order.
